(** * Azure Data Lake artifact repository: path and listing translation

    A shallow embedding of
    [mlflow/store/artifact/azure_data_lake_artifact_repo.py] together with
    the parts of the Python standard library it calls ([urllib.parse],
    [re], [posixpath], [sorted]), and the properties of the URI resolver
    and of the listing engine proved over that embedding.

    Conventions.
    - A Python [str] is a [list ascii]; the characters of the model are the
      8-bit ones.  On these, [urllib]'s NFKC screening of the authority
      never rejects, so it is not represented.
    - A raised exception is the [Raise] branch of [result]; the exception
      classes are the three the module can raise itself or receive from
      the library calls it makes.
    - [os.path] is [posixpath]. *)

From Stdlib Require Import Ascii String List Bool Arith ZArith Lia.
From Stdlib Require Import Sorting.Sorted Sorting.Permutation.
Import ListNotations.

Set Implicit Arguments.
Local Open Scope list_scope.

(** ** Python strings *)

Definition str := list ascii.

(** A string literal of the source. *)
Definition lit (s : string) : str := list_ascii_of_string s.

Module PyStr.

Definition eqb (a b : str) : bool :=
  if list_eq_dec ascii_dec a b then true else false.

(** [s.startswith(p)] *)
Fixpoint startswith (p s : str) : bool :=
  match p, s with
  | [], _ => true
  | _ :: _, [] => false
  | a :: p', b :: s' => Ascii.eqb a b && startswith p' s'
  end.

(** [s.endswith(p)] *)
Definition endswith (p s : str) : bool := startswith (rev p) (rev s).

(** [c in s] for a one-character [c] *)
Definition contains (c : ascii) (s : str) : bool :=
  existsb (Ascii.eqb c) s.

(** [s.find(c)]: the index of the first [c], or [-1] *)
Fixpoint find (c : ascii) (s : str) : Z :=
  match s with
  | [] => (-1)%Z
  | x :: s' =>
      if Ascii.eqb x c then 0%Z
      else let r := find c s' in
           if (r <? 0)%Z then (-1)%Z else (r + 1)%Z
  end.

(** [s[:i]] and [s[i:]] for [0 <= i] *)
Definition upto (i : Z) (s : str) : str := firstn (Z.to_nat i) s.
Definition from (i : Z) (s : str) : str := skipn (Z.to_nat i) s.

(** [s.lstrip(chars)] *)
Fixpoint lstrip (chars : ascii -> bool) (s : str) : str :=
  match s with
  | c :: s' => if chars c then lstrip chars s' else s
  | [] => []
  end.

(** [s.replace(c, "")] *)
Definition remove (c : ascii) (s : str) : str :=
  filter (fun x => negb (Ascii.eqb x c)) s.

(** [s.lower()] on the letters a scheme can hold *)
Definition lower_char (c : ascii) : ascii :=
  let n := nat_of_ascii c in
  if (65 <=? n) && (n <=? 90) then ascii_of_nat (n + 32) else c.
Definition lower (s : str) : str := map lower_char s.

(** [s.split(c, 1)] when [c in s]: the text before the first [c] and the
    text after it *)
Fixpoint split1 (c : ascii) (s : str) : str * str :=
  match s with
  | [] => ([], [])
  | x :: s' =>
      if Ascii.eqb x c then ([], s')
      else let (a, b) := split1 c s' in (x :: a, b)
  end.

(** [s.split(sep)] for a one-character separator *)
Fixpoint split (sep : ascii) (s : str) : list str :=
  match s with
  | [] => [[]]
  | x :: s' =>
      if Ascii.eqb x sep then [] :: split sep s'
      else match split sep s' with
           | w :: ws => (x :: w) :: ws
           | [] => [[x]]
           end
  end.

(** [sep.join(l)] *)
Fixpoint join (sep : str) (l : list str) : str :=
  match l with
  | [] => []
  | [w] => w
  | w :: ws => w ++ sep ++ join sep ws
  end.

(** [a < b] and [a <= b]: lexicographic on the code points *)
Fixpoint ltb (a b : str) : bool :=
  match a, b with
  | _, [] => false
  | [], _ :: _ => true
  | x :: a', y :: b' =>
      let n := nat_of_ascii x in
      let m := nat_of_ascii y in
      (n <? m) || ((n =? m) && ltb a' b')
  end.
Definition leb (a b : str) : bool := negb (ltb b a).

(** [s.rfind(c)]: the index of the last [c], or [-1] *)
Fixpoint rfind (c : ascii) (s : str) : Z :=
  match s with
  | [] => (-1)%Z
  | x :: s' =>
      let r := rfind c s' in
      if (0 <=? r)%Z then (r + 1)%Z
      else if Ascii.eqb x c then 0%Z else (-1)%Z
  end.

(** [s.rstrip(chars)] *)
Definition rstrip (chars : ascii -> bool) (s : str) : str :=
  rev (lstrip chars (rev s)).

End PyStr.

(** ** Exceptions and results *)

Inductive exn : Type :=
| MlflowException (message : str)
| ValueError (message : str)
| NotImplementedError (message : str).

Inductive result (A : Type) : Type :=
| Ok (a : A)
| Raise (e : exn).
Arguments Ok {A} a.
Arguments Raise {A} e.

Definition bind {A B} (m : result A) (k : A -> result B) : result B :=
  match m with
  | Ok a => k a
  | Raise e => Raise e
  end.

Notation "x <- m ;; k" := (bind m (fun x => k))
  (at level 61, m at next level, right associativity).
Notation "' p <- m ;; k" := (bind m (fun x => let 'p := x in k))
  (at level 61, p pattern, m at next level, right associativity).

(** ** [re]: the fragment of regular expressions the module uses

    A backtracking matcher in continuation-passing style.  [PlusNot c] is
    the greedy [[^c]+]; [Group] records the text its body consumed. *)

Module Re.

Inductive regex : Type :=
| Lit (c : ascii)
| PlusNot (c : ascii)
| Seq (r1 r2 : regex)
| Group (r : regex).

(** The literal text [c s], one [Lit] per character. *)
Fixpoint lits (c : ascii) (s : str) : regex :=
  match s with
  | [] => Lit c
  | c' :: s' => Seq (Lit c) (lits c' s')
  end.

Section Matcher.
Variable A : Type.

(** Greedy [[^c]*]: the longest run first, shorter ones on failure of
    the continuation. *)
Fixpoint star_not (c : ascii) (s : str) (k : str -> option A)
  : option A :=
  match s with
  | x :: s' =>
      if Ascii.eqb x c then k s
      else match star_not c s' k with
           | Some a => Some a
           | None => k s
           end
  | [] => k s
  end.

Definition plus_not (c : ascii) (s : str) (k : str -> option A)
  : option A :=
  match s with
  | x :: s' => if Ascii.eqb x c then None else star_not c s' k
  | [] => None
  end.

Fixpoint run (r : regex) (s : str) (groups : list str)
         (k : str -> list str -> option A) : option A :=
  match r with
  | Lit c =>
      match s with
      | x :: s' => if Ascii.eqb x c then k s' groups else None
      | [] => None
      end
  | PlusNot c => plus_not c s (fun s' => k s' groups)
  | Seq r1 r2 => run r1 s groups (fun s' g => run r2 s' g k)
  | Group r0 =>
      run r0 s groups
          (fun s' g =>
             k s' (g ++ [firstn (length s - length s') s]))
  end.
End Matcher.

(** [re.match(r, s)]: anchored at the start of [s] only; the result is
    the list of the groups' texts, or [None]. *)
Definition match_ (r : regex) (s : str) : option (list str) :=
  run r s [] (fun _ g => Some g).

(** [m.group(i)] for [1 <= i] *)
Definition group (m : list str) (i : nat) : str := nth (i - 1) m [].

End Re.

(** ** [urllib.parse] *)

Module UrlParse.

Record ParseResult : Type := mkParseResult {
  scheme : str;
  netloc : str;
  path : str;
  params : str;
  query : str;
  fragment : str
}.

Definition is_ascii_alpha (c : ascii) : bool :=
  let n := nat_of_ascii c in
  ((65 <=? n) && (n <=? 90)) || ((97 <=? n) && (n <=? 122)).

Definition is_digit (c : ascii) : bool :=
  let n := nat_of_ascii c in (48 <=? n) && (n <=? 57).

(** [scheme_chars]: letters, digits and [+-.] *)
Definition scheme_chars (c : ascii) : bool :=
  is_ascii_alpha c || is_digit c
  || Ascii.eqb c "+" || Ascii.eqb c "-" || Ascii.eqb c ".".

(** [_WHATWG_C0_CONTROL_OR_SPACE]: the characters up to the space *)
Definition c0_control_or_space (c : ascii) : bool :=
  nat_of_ascii c <=? 32.

(** [_UNSAFE_URL_BYTES_TO_REMOVE]: tab, carriage return, line feed *)
Definition unsafe_url_bytes : list ascii :=
  [ascii_of_nat 9; ascii_of_nat 13; ascii_of_nat 10].

Definition is_delim (c : ascii) : bool :=
  Ascii.eqb c "/" || Ascii.eqb c "?" || Ascii.eqb c "#".

(** [_splitnetloc(url, 0)] on [url[2:]]: the authority runs up to the
    earliest of [/], [?] and [#]. *)
Fixpoint splitnetloc (url : str) : str * str :=
  match url with
  | [] => ([], [])
  | c :: url' =>
      if is_delim c then ([], url)
      else let (n, rest) := splitnetloc url' in (c :: n, rest)
  end.

(** [uses_params] *)
Definition uses_params : list str :=
  map lit [""; "ftp"; "hdl"; "prospero"; "http"; "imap"; "https";
           "shttp"; "rtsp"; "rtspu"; "sip"; "sips"; "mms"; "sftp";
           "tel"]%string.

(** [_splitparams(url)] *)
Definition splitparams (url : str) : str * str :=
  let last_seg := last (PyStr.split "/" url) [] in
  if PyStr.contains "/" url && negb (PyStr.contains ";" last_seg)
  then (url, [])
  else
    (* the first [;] at or after the last [/] *)
    let head := firstn (length url - length last_seg) url in
    let (a, b) := PyStr.split1 ";" last_seg in
    (head ++ a, b).

(** The first steps of [urlsplit]: leading control characters and
    spaces are stripped, then tabs and line breaks removed anywhere. *)
Definition sanitize (url : str) : str :=
  let url := PyStr.lstrip c0_control_or_space url in
  fold_left (fun u b => PyStr.remove b u) unsafe_url_bytes url.

(** The scheme, lower-cased, and what follows its colon. *)
Definition split_scheme (url : str) : str * str :=
  let i := PyStr.find ":" url in
  if (0 <? i)%Z
     && match url with c :: _ => is_ascii_alpha c | [] => false end
     && forallb scheme_chars (PyStr.upto i url)
  then (PyStr.lower (PyStr.upto i url), PyStr.from (i + 1) url)
  else ([], url).

(** The fragment is cut off first, then the query. *)
Definition split_fragment_query (url : str) : str * str * str :=
  let '(url, fragment) :=
    if PyStr.contains "#" url then PyStr.split1 "#" url
    else (url, []) in
  let '(url, query) :=
    if PyStr.contains "?" url then PyStr.split1 "?" url
    else (url, []) in
  (url, query, fragment).

Section WithHostCheck.

(** The validation of a bracketed host ([_check_bracketed_host] and its
    variants), which differs between CPython releases and is absent
    from the older ones: [true] when the authority is let through. *)
Variable bracketed_netloc_ok : str -> bool.

(** The authority, when the text starts with [//]. *)
Definition split_authority (url : str) : result (str * str) :=
  if PyStr.startswith (lit "//") url then
    let '(netloc, url) := splitnetloc (skipn 2 url) in
    let lb := PyStr.contains "[" netloc in
    let rb := PyStr.contains "]" netloc in
    if (lb && negb rb) || (rb && negb lb)
    then Raise (ValueError (lit "Invalid IPv6 URL"))
    else if lb && rb && negb (bracketed_netloc_ok netloc)
    then Raise (ValueError (lit "Invalid IPv6 URL"))
    else Ok (netloc, url)
  else Ok ([], url).

Definition urlsplit (url : str)
  : result (str * str * str * str * str) :=
  let url := sanitize url in
  let '(scheme, url) := split_scheme url in
  '(netloc, url) <- split_authority url ;;
  let '(url, query, fragment) := split_fragment_query url in
  Ok (scheme, netloc, url, query, fragment).

Definition urlparse (url : str) : result ParseResult :=
  '(scheme, netloc, url, query, fragment) <- urlsplit url ;;
  let '(url, params) :=
    if existsb (PyStr.eqb scheme) uses_params && PyStr.contains ";" url
    then splitparams url
    else (url, []) in
  Ok (mkParseResult scheme netloc url params query fragment).

End WithHostCheck.

End UrlParse.

(** ** The URI resolver *)

Section Resolver.

Variable bracketed_netloc_ok : str -> bool.

(** [r"([^@]+)@([^.]+)\.dfs\.core\.windows\.net"] *)
Definition abfss_netloc_re : Re.regex :=
  Re.Seq (Re.Group (Re.PlusNot "@"))
    (Re.Seq (Re.Lit "@")
       (Re.Seq (Re.Group (Re.PlusNot "."))
          (Re.lits "." (lit "dfs.core.windows.net")))).

Definition not_an_abfss_uri (uri : str) : exn :=
  MlflowException (lit "Not an ABFSS URI: " ++ uri).

Definition bad_abfss_authority : exn :=
  MlflowException
    (lit "ABFSS URI must be of the form abfss://<filesystem>@<account>.dfs.core.windows.net").

Definition _parse_abfss_uri (uri : str) : result (str * str * str) :=
  parsed <- UrlParse.urlparse bracketed_netloc_ok uri ;;
  if negb (PyStr.eqb (UrlParse.scheme parsed) (lit "abfss"))
  then Raise (not_an_abfss_uri uri)
  else
    match Re.match_ abfss_netloc_re (UrlParse.netloc parsed) with
    | None => Raise bad_abfss_authority
    | Some m =>
        let filesystem := Re.group m 1 in
        let account_name := Re.group m 2 in
        let path := UrlParse.path parsed in
        let path :=
          if PyStr.startswith (lit "/") path then skipn 1 path else path in
        Ok (filesystem, account_name, path)
    end.

End Resolver.


(** ** [posixpath] *)

Module PosixPath.

Definition sep : str := lit "/".
Definition curdir : str := lit ".".
Definition pardir : str := lit "..".

Definition is_empty (s : str) : bool :=
  match s with [] => true | _ :: _ => false end.

Definition is_nil (l : list str) : bool :=
  match l with [] => true | _ :: _ => false end.

Definition isabs (s : str) : bool := PyStr.startswith sep s.

(** [join(a, b)] *)
Definition join (a b : str) : str :=
  if PyStr.startswith sep b then b
  else if is_empty a || PyStr.endswith sep a then a ++ b
  else a ++ sep ++ b.

(** [join( *l )] for a non-empty [l] *)
Definition join_all (l : list str) : str :=
  match l with
  | [] => []
  | a :: p => fold_left join p a
  end.

(** One turn of the loop of [normpath] over the components. *)
Definition norm_step (initial_slashes : nat) (new_comps : list str)
           (comp : str) : list str :=
  if PyStr.eqb comp [] || PyStr.eqb comp curdir then new_comps
  else if negb (PyStr.eqb comp pardir)
          || ((initial_slashes =? 0) && is_nil new_comps)
          || (negb (is_nil new_comps)
              && PyStr.eqb (last new_comps []) pardir)
  then new_comps ++ [comp]
  else removelast new_comps.

Definition normpath (path : str) : str :=
  if is_empty path then curdir
  else
    let initial_slashes :=
      if PyStr.startswith sep path then
        if PyStr.startswith (sep ++ sep) path
           && negb (PyStr.startswith (sep ++ sep ++ sep) path)
        then 2 else 1
      else 0 in
    let comps := PyStr.split "/" path in
    let new_comps := fold_left (norm_step initial_slashes) comps [] in
    let path := PyStr.join sep new_comps in
    let path := concat (repeat sep initial_slashes) ++ path in
    if is_empty path then curdir else path.

(** Python's order on lists of strings. *)
Fixpoint list_ltb (a b : list str) : bool :=
  match a, b with
  | _, [] => false
  | [], _ :: _ => true
  | x :: a', y :: b' =>
      if PyStr.eqb x y then list_ltb a' b' else PyStr.ltb x y
  end.

(** The loop of [commonprefix] over [s1], with [s2] read by index; the
    index is always in range because [s1 <= s2]. *)
Fixpoint common (s1 s2 : list str) : list str :=
  match s1, s2 with
  | c :: s1', y :: s2' =>
      if PyStr.eqb c y then c :: common s1' s2' else []
  | _, _ => []
  end.

(** [commonprefix([a, b])] *)
Definition commonprefix (a b : list str) : list str :=
  let s1 := if list_ltb b a then b else a in
  let s2 := if list_ltb a b then b else a in
  common s1 s2.

(** [basename(p)]: what follows the last slash *)
Definition basename (p : str) : str :=
  let i := (PyStr.rfind "/" p + 1)%Z in
  PyStr.from i p.

(** [dirname(p)]: what precedes the last slash, without the slashes that
    end it unless it consists of slashes only *)
Definition dirname (p : str) : str :=
  let i := (PyStr.rfind "/" p + 1)%Z in
  let head := PyStr.upto i p in
  if negb (is_empty head)
     && negb (PyStr.eqb head (concat (repeat sep (length head))))
  then PyStr.rstrip (Ascii.eqb "/") head
  else head.

Section WithCwd.

(** [os.getcwd()] *)
Variable cwd : str.

Definition abspath (path : str) : str :=
  normpath (if isabs path then path else join cwd path).

(** [[x for x in abspath(p).split(sep) if x]] *)
Definition components (p : str) : list str :=
  filter (fun x => negb (is_empty x)) (PyStr.split "/" (abspath p)).

Definition relpath (path start : str) : result str :=
  if is_empty path then Raise (ValueError (lit "no path specified"))
  else
    let start_list := components start in
    let path_list := components path in
    let i := length (commonprefix start_list path_list) in
    let rel_list :=
      repeat pardir (length start_list - i) ++ skipn i path_list in
    if is_nil rel_list then Ok curdir else Ok (join_all rel_list).

End WithCwd.

End PosixPath.

(** ** [sorted(l, key=...)]: a stable sort on string keys *)

Section Sorted.
Variable A : Type.
Variable key : A -> str.

(** [x] goes before the first element whose key is not smaller, hence
    before every element of equal key that followed it in the input. *)
Fixpoint insert_by (x : A) (l : list A) : list A :=
  match l with
  | [] => [x]
  | y :: l' =>
      if PyStr.ltb (key y) (key x) then y :: insert_by x l'
      else x :: l
  end.

Definition sorted (l : list A) : list A := fold_right insert_by [] l.
End Sorted.

(** ** Entities and collaborators *)

(** [mlflow.entities.FileInfo] *)
Module FileInfo.
Record t : Type := mk {
  path : str;
  is_dir : bool;
  file_size : option Z
}.
End FileInfo.

(** One entry of the backend listing ([PathProperties]); the content
    length may be missing. *)
Record PathProperties : Type := mkPathProperties {
  name : str;
  is_directory : bool;
  content_length : option Z
}.

(** The file system client: [get_paths(path, recursive)]. *)
Record FileSystemClient : Type := mkFileSystemClient {
  get_paths : str -> bool -> result (list PathProperties)
}.

(** The requests a directory upload sends, each through the directory
    client of [directory] and its file client of [file]. *)
Inductive request : Type :=
| CreateFile (directory file : str)
| UploadData (directory file : str) (data : list Byte.byte)
             (overwrite : bool).

(** Truth value of an optional string argument: [None] and [""] are
    false. *)
Definition truthy (p : option str) : bool :=
  match p with
  | Some (_ :: _) => true
  | _ => false
  end.

Definition arg (p : option str) : str :=
  match p with Some s => s | None => [] end.

(** ** The repository *)

Record Repository : Type := mkRepository {
  artifact_uri : str;
  write_timeout : Z;
  fs_client : FileSystemClient;
  base_data_lake_directory : str
}.

Section AzureDataLakeArtifactRepository.

(** The environment: URL host validation, working directory, the
    credential type, the storage service reached through
    [_get_data_lake_client(...).get_file_system_client(...)], and the
    local file system.  [visited top] lists the directories that a walk
    from [top] visits, in its order: for each, the names that lead to it
    from [top], the names of its subdirectories and those of its files.
    [getsize] is [os.path.getsize] and [read_bytes] the content that
    [open(_, "rb")] gives. *)
Variable bracketed_netloc_ok : str -> bool.
Variable cwd : str.
Variable Credential : Type.
Variable get_file_system_client : str -> Credential -> str -> FileSystemClient.
Variable visited : str -> list (list str * list str * list str).
Variable getsize : str -> Z.
Variable read_bytes : str -> list Byte.byte.

(** [os.walk(top)]: the path of each directory is [top] joined with the
    names that lead to it, one [os.path.join] per level. *)
Definition walk (top : str) : list (str * list str * list str) :=
  map (fun '(names, dirnames, filenames) =>
         (fold_left PosixPath.join names top, dirnames, filenames))
      (visited top).

Definition _DEFAULT_TIMEOUT : Z := 600.

(** [x or _DEFAULT_TIMEOUT] for the value [x] of
    [MLFLOW_ARTIFACT_UPLOAD_DOWNLOAD_TIMEOUT.get()]: [None] when the
    variable is unset, an integer otherwise. *)
Definition resolve_timeout (configured : option Z) : Z :=
  match configured with
  | None => _DEFAULT_TIMEOUT
  | Some v => if (v =? 0)%Z then _DEFAULT_TIMEOUT else v
  end.

Definition __init__ (uri : str) (credential : Credential)
           (configured_timeout : option Z) : result Repository :=
  let write_timeout := resolve_timeout configured_timeout in
  '(filesystem, account_name, path) <-
     _parse_abfss_uri bracketed_netloc_ok uri ;;
  let account_url :=
    lit "https://" ++ account_name ++ lit ".dfs.core.windows.net" in
  let fs := get_file_system_client account_url credential filesystem in
  Ok (mkRepository uri write_timeout fs path).

Definition log_artifact (self : Repository) (local_file : str)
           (artifact_path : option str) : result unit :=
  Raise (NotImplementedError
           (lit "This artifact repository does not support logging single artifacts")).

Definition delete_artifacts (self : Repository)
           (artifact_path : option str) : result unit :=
  Raise (NotImplementedError
           (lit "This artifact repository does not support deleting artifacts")).

(** *** [log_artifacts] *)

Definition upload_dest (self : Repository) (artifact_path : option str)
  : str :=
  let dest_path := base_data_lake_directory self in
  if truthy artifact_path
  then PosixPath.join dest_path (arg artifact_path)
  else dest_path.

(** The body of the inner loop, for the file [f] of [root]. *)
Definition upload_file (dest_path rel_path root f : str) : request :=
  let file := PosixPath.join rel_path f in
  let local_file_path := PosixPath.join root f in
  if (getsize local_file_path =? 0)%Z
  then CreateFile dest_path file
  else UploadData dest_path file (read_bytes local_file_path) true.

(** The outer loop: the requests sent so far, and how the loop ended. *)
Fixpoint upload_walk (dest_path local_dir : str)
         (entries : list (str * list str * list str))
         (sent : list request) : list request * result unit :=
  match entries with
  | [] => (sent, Ok tt)
  | (root, _, filenames) :: rest =>
      match PosixPath.relpath cwd root local_dir with
      | Raise e => (sent, Raise e)
      | Ok rel_path =>
          upload_walk dest_path local_dir rest
            (sent ++ map (upload_file dest_path rel_path root) filenames)
      end
  end.

Definition log_artifacts (self : Repository) (local_dir : str)
           (artifact_path : option str) : list request * result unit :=
  let dest_path := upload_dest self artifact_path in
  let local_dir := PosixPath.abspath cwd local_dir in
  upload_walk dest_path local_dir (walk local_dir) [].

(** *** [list_artifacts] *)

Definition list_target (self : Repository) (path : option str) : str :=
  let directory_to_list := base_data_lake_directory self in
  if truthy path
  then PosixPath.join directory_to_list (arg path)
  else directory_to_list.

(** The loop over the backend results, appending to [infos]. *)
Fixpoint list_loop (base directory_to_list : str)
         (results : list PathProperties) (infos : list FileInfo.t)
  : result (list FileInfo.t) :=
  match results with
  | [] => Ok infos
  | r :: rest =>
      if PyStr.eqb directory_to_list (name r)
      then list_loop base directory_to_list rest infos
      else if is_directory r then
        subdir <- PosixPath.relpath cwd (name r) base ;;
        let subdir :=
          if PyStr.endswith (lit "/") subdir
          then removelast subdir else subdir in
        list_loop base directory_to_list rest
                  (infos ++ [FileInfo.mk subdir true None])
      else
        file_name <- PosixPath.relpath cwd (name r) base ;;
        list_loop base directory_to_list rest
                  (infos ++ [FileInfo.mk file_name false (content_length r)])
  end.

(** [directory_to_list[len(base) + 1 :]] *)
Definition rel_path_of (self : Repository) (path : option str) : str :=
  skipn (length (base_data_lake_directory self) + 1)
        (list_target self path).

(** [infos] as the loop leaves it. *)
Definition list_infos (self : Repository) (path : option str)
  : result (list FileInfo.t) :=
  results <- get_paths (fs_client self) (list_target self path) false ;;
  list_loop (base_data_lake_directory self) (list_target self path)
            results [].

Definition list_artifacts (self : Repository) (path : option str)
  : result (list FileInfo.t) :=
  infos <- list_infos self path ;;
  let rel_path := rel_path_of self path in
  match infos with
  | [info] =>
      if negb (FileInfo.is_dir info)
         && PyStr.eqb (FileInfo.path info) rel_path
      then Ok []
      else Ok (sorted FileInfo.path infos)
  | _ => Ok (sorted FileInfo.path infos)
  end.

End AzureDataLakeArtifactRepository.

(** *** [_download_file]

    The file client is reached in two steps, through the directory client
    of the parent directory.  The local file is opened for writing, hence
    emptied, before the transfer starts; it receives what the backend
    delivers, and an error of the transfer is raised after that.  Opening
    the local file is taken to succeed. *)

Section Download.

(** [download dir file]: the bytes that
    [get_directory_client(dir).get_file_client(file).download_file()]
    delivers, and the error that ends the transfer, if any. *)
Variable download : str -> str -> list Byte.byte * option exn.

(** The file client that a download goes through. *)
Definition download_address (self : Repository) (remote_file_path : str)
  : str * str :=
  let remote_full_path :=
    PosixPath.join (base_data_lake_directory self) remote_file_path in
  let base_dir := PosixPath.dirname remote_full_path in
  let filename := PosixPath.basename remote_full_path in
  (base_dir, filename).

(** The local file written, as a path and its content, and the outcome. *)
Definition _download_file (self : Repository)
           (remote_file_path local_path : str)
  : (str * list Byte.byte) * result unit :=
  let '(base_dir, filename) := download_address self remote_file_path in
  let '(data, failure) := download base_dir filename in
  ((local_path, data),
   match failure with
   | None => Ok tt
   | Some e => Raise e
   end).

End Download.

(** ** Vocabulary of the statements *)

(** The fixed domain suffix of an authority. *)
Definition dfs_suffix : str := lit ".dfs.core.windows.net".

(** [netloc] is a filesystem name without [@], an [@], an account name
    without dot, the fixed suffix, and then [extra]. *)
Definition authority_shape (netloc filesystem account extra : str) : Prop :=
  netloc = filesystem ++ lit "@" ++ account ++ dfs_suffix ++ extra
  /\ filesystem <> [] /\ ~ In "@"%char filesystem
  /\ account <> [] /\ ~ In "."%char account.

(** No character of [s] is one of [bad]. *)
Definition none_of (bad s : str) : bool :=
  forallb (fun c => negb (PyStr.contains c bad)) s.

(** What may follow the path of a URI: nothing, a query or a fragment. *)
Definition is_uri_tail (t : str) : bool :=
  match t with
  | [] => true
  | c :: _ => Ascii.eqb c "?" || Ascii.eqb c "#"
  end.

(** The path component of a URI with an authority: empty or rooted, and
    free of the characters that end it or that URL splitting removes. *)
Definition is_path_component (p : str) : bool :=
  (PosixPath.is_empty p || PyStr.startswith (lit "/") p)
  && none_of (lit "?#" ++ UrlParse.unsafe_url_bytes) p.

(** A filesystem name that can stand in the authority of a URI: not
    empty, and free of [@], of the delimiters that end an authority, of
    brackets, and of the characters URL splitting removes. *)
Definition is_filesystem_name (s : str) : bool :=
  negb (PosixPath.is_empty s)
  && none_of (lit "@/?#[]" ++ UrlParse.unsafe_url_bytes) s.

(** An account name likewise, free of dots instead of [@]. *)
Definition is_account_name (s : str) : bool :=
  negb (PosixPath.is_empty s)
  && none_of (lit "./?#[]" ++ UrlParse.unsafe_url_bytes) s.

(** A path component proper: not empty and free of slashes. *)
Definition is_component (w : str) : Prop := w <> [] /\ ~ In "/"%char w.

(** A backend result other than the listed directory itself. *)
Definition is_child (target : str) (r : PathProperties) : bool :=
  negb (PyStr.eqb target (name r)).

(** The entry that stands for the backend result [r]: its name relative
    to [base]; no size for a directory, the reported length for a file. *)
Definition entry_of (cwd base : str) (r : PathProperties)
  : result FileInfo.t :=
  p <- PosixPath.relpath cwd (name r) base ;;
  Ok (FileInfo.mk p (is_directory r)
                  (if is_directory r then None else content_length r)).

(** The final test of [list_artifacts]: one entry, a file, whose path is
    [rel_path]. *)
Definition is_lone_file (rel_path : str) (infos : list FileInfo.t) : bool :=
  match infos with
  | [info] =>
      negb (FileInfo.is_dir info) && PyStr.eqb (FileInfo.path info) rel_path
  | _ => false
  end.

(** The entry of a result for which a relative path exists. *)
Definition entry_or_default (cwd base : str) (r : PathProperties)
  : FileInfo.t :=
  match entry_of cwd base r with
  | Ok e => e
  | Raise _ => FileInfo.mk [] false None
  end.

(** Ascending order of the keys of two elements: the second key is not
    smaller than the first. *)
Definition key_le (A : Type) (key : A -> str) (a b : A) : Prop :=
  PyStr.leb (key a) (key b) = true.

(** Ascending order of the paths of two entries. *)
Definition path_le : FileInfo.t -> FileInfo.t -> Prop :=
  key_le FileInfo.path.

(** A plain name: a component other than [.] and [..]. *)
Definition plain_name (w : str) : bool :=
  negb (PosixPath.is_empty w) && negb (PyStr.contains "/" w)
  && negb (PyStr.eqb w PosixPath.curdir)
  && negb (PyStr.eqb w PosixPath.pardir).

(** The relative path that goes down through the names [names]. *)
Definition path_of (names : list str) : str :=
  PyStr.join PosixPath.sep names.

(** The path that a directory of the walk has relative to the top: [.]
    for the top itself. *)
Definition rel_dir (names : list str) : str :=
  match names with
  | [] => PosixPath.curdir
  | _ :: _ => path_of names
  end.

(** A path made of slashes only, the empty one included. *)
Definition all_slashes (s : str) : bool := forallb (Ascii.eqb "/") s.

(** The spellings of the scheme that lower-casing turns into [abfss]. *)
Definition is_abfss_spelling (sch : str) : bool :=
  PyStr.eqb (PyStr.lower sch) (lit "abfss").

(** [path[1:]] when the path starts with a slash, else [path]. *)
Definition strip_leading_slash (p : str) : str :=
  match p with
  | "/"%char :: p' => p'
  | _ => p
  end.

(** The authorities that lack a part of
    [<filesystem>@<account>.dfs.core.windows.net]: no [@] at all; nothing
    before the first [@]; after the first [@], no dot, a dot at once, or
    a first dot that the fixed domain does not follow. *)
Inductive malformed_authority : str -> Prop :=
| no_at (a : str) :
    ~ In "@"%char a -> malformed_authority a
| no_filesystem (r : str) :
    malformed_authority ("@"%char :: r)
| no_dot (ns acct : str) :
    ~ In "@"%char ns -> ~ In "."%char acct ->
    malformed_authority (ns ++ lit "@" ++ acct)
| no_account (ns r : str) :
    ~ In "@"%char ns ->
    malformed_authority (ns ++ lit "@." ++ r)
| other_domain (ns acct r : str) :
    ~ In "@"%char ns -> ~ In "."%char acct ->
    PyStr.startswith (lit "dfs.core.windows.net") r = false ->
    malformed_authority (ns ++ lit "@" ++ acct ++ lit "." ++ r).

(** ** A small deployment, for the worked cases

    A repository rooted at [root] of the filesystem [fs] of the account
    [acct], a process running in [/home/user], and a local tree
    [/data/run] holding [a.txt], the empty file [empty] and [sub/b.bin]. *)

Module Sample.

Definition host_ok : str -> bool := fun _ => true.
Definition cwd : str := lit "/home/user".
Definition uri : str := lit "abfss://fs@acct.dfs.core.windows.net/root".

(** A listing of [root/sub] that names the directory itself. *)
Definition listing : list PathProperties :=
  [ mkPathProperties (lit "root/sub/b.txt") false (Some 12%Z);
    mkPathProperties (lit "root/sub") true None;
    mkPathProperties (lit "root/sub/inner") true None;
    mkPathProperties (lit "root/sub/a.txt") false (Some 0%Z) ].

Definition client (l : list PathProperties) : FileSystemClient :=
  mkFileSystemClient (fun _ _ => Ok l).

Definition repo (l : list PathProperties) : Repository :=
  mkRepository uri 600 (client l) (lit "root").

(** A listing of [root/f.txt] that holds the file alone, under a name
    that is not the text of the listed path. *)
Definition lone_file : list PathProperties :=
  [ mkPathProperties (lit "./root/f.txt") false (Some 3%Z) ].

(** A file for which the backend reports no length. *)
Definition file_without_length : list PathProperties :=
  [ mkPathProperties (lit "root/f") false None ].

Definition service (account_url : str) (credential : unit)
           (filesystem : str) : FileSystemClient := client [].

Definition visited (top : str) : list (list str * list str * list str) :=
  [ ([], [lit "sub"], [lit "a.txt"; lit "empty"]);
    ([lit "sub"], [], [lit "b.bin"]) ].

Definition getsize (p : str) : Z :=
  if PyStr.eqb p (lit "/data/run/empty") then 0%Z else 3%Z.

Definition read_bytes (p : str) : list Byte.byte :=
  [Byte.x01; Byte.x02; Byte.x03].

(** A repository whose base path is empty, and a listing of [f.txt]
    there that holds the file alone under the name [./f.txt]. *)
Definition rootless (l : list PathProperties) : Repository :=
  mkRepository (lit "abfss://fs@acct.dfs.core.windows.net") 600 (client l) [].

Definition lone_file_rootless : list PathProperties :=
  [ mkPathProperties (lit "./f.txt") false (Some 3%Z) ].

(** A listing with a result that has no name. *)
Definition nameless : list PathProperties :=
  [ mkPathProperties (lit "root/a") false (Some 1%Z);
    mkPathProperties [] false (Some 2%Z) ].

(** A transfer that fails after the first byte. *)
Definition breaks (dir file : str) : list Byte.byte * option exn :=
  ([Byte.x01], Some (ValueError (lit "connection lost"))).

End Sample.

(** * Properties *)

Unset Implicit Arguments.

(** ** Strings *)

Module PyStrFacts.

Lemma eqb_eq (a b : str) : PyStr.eqb a b = true <-> a = b.
Proof.
  unfold PyStr.eqb. destruct (list_eq_dec ascii_dec a b); split;
    congruence.
Qed.

Lemma eqb_refl (a : str) : PyStr.eqb a a = true.
Proof. now apply eqb_eq. Qed.

Lemma eqb_neq (a b : str) : PyStr.eqb a b = false <-> a <> b.
Proof.
  unfold PyStr.eqb. destruct (list_eq_dec ascii_dec a b); split;
    congruence.
Qed.

Lemma startswith_app (p s : str) : PyStr.startswith p (p ++ s) = true.
Proof.
  induction p as [|c p IH]; simpl; [reflexivity|].
  now rewrite Ascii.eqb_refl.
Qed.

Lemma startswith_inv (p s : str) :
  PyStr.startswith p s = true -> exists r, s = p ++ r.
Proof.
  revert s. induction p as [|c p IH]; intros s H; simpl in *.
  - now exists s.
  - destruct s as [|x s]; [discriminate|].
    apply andb_true_iff in H as [Hc Hp].
    apply Ascii.eqb_eq in Hc. subst x.
    destruct (IH _ Hp) as [r ->]. now exists r.
Qed.

Lemma contains_false (c : ascii) (s : str) :
  PyStr.contains c s = false <-> ~ In c s.
Proof.
  unfold PyStr.contains. induction s as [|x s IH]; simpl.
  - tauto.
  - rewrite orb_false_iff, IH, Ascii.eqb_neq. intuition congruence.
Qed.

Lemma contains_true (c : ascii) (s : str) :
  PyStr.contains c s = true <-> In c s.
Proof.
  unfold PyStr.contains. rewrite existsb_exists. split.
  - intros [x [Hin Hx]]. apply Ascii.eqb_eq in Hx. now subst.
  - intros H. exists c. split; [assumption | apply Ascii.eqb_refl].
Qed.

Lemma remove_id (c : ascii) (s : str) :
  ~ In c s -> PyStr.remove c s = s.
Proof.
  unfold PyStr.remove. induction s as [|x s IH]; simpl; intros H.
  - reflexivity.
  - destruct (Ascii.eqb_spec x c) as [->|Hx]; simpl.
    + exfalso. apply H. now left.
    + f_equal. apply IH. tauto.
Qed.

Lemma remove_app (c : ascii) (a b : str) :
  PyStr.remove c (a ++ b) = PyStr.remove c a ++ PyStr.remove c b.
Proof. apply filter_app. Qed.

(** Splitting at the first [c]. *)
Lemma split1_first (c : ascii) (a b : str) :
  ~ In c a -> PyStr.split1 c (a ++ c :: b) = (a, b).
Proof.
  induction a as [|x a IH]; simpl; intros H.
  - now rewrite Ascii.eqb_refl.
  - destruct (Ascii.eqb_spec x c) as [->|Hx]; [tauto|].
    rewrite IH by tauto. reflexivity.
Qed.

(** Two decompositions at a first occurrence agree. *)
Lemma first_occurrence_unique (c : ascii) (a a' b b' : str) :
  ~ In c a -> ~ In c a' -> a ++ c :: b = a' ++ c :: b' ->
  a = a' /\ b = b'.
Proof.
  revert a'. induction a as [|x a IH]; intros [|x' a'] Ha Ha' E;
    simpl in *.
  - injection E as ->. now split.
  - injection E as -> _. tauto.
  - injection E as -> _. tauto.
  - injection E as -> E.
    destruct (IH a') as [-> ->]; tauto.
Qed.

End PyStrFacts.

(** ** Regular expressions *)

Module ReFacts.
Import PyStrFacts.

Section Star.
Variable A : Type.
Variable c : ascii.

(** The greedy run stops at the first [c] (or at the end), and the
    continuation is tried there first. *)
Lemma star_not_greedy (p rest : str) (k : str -> option A) (a : A) :
  ~ In c p -> (rest = [] \/ exists r, rest = c :: r) ->
  k rest = Some a ->
  Re.star_not c (p ++ rest) k = Some a.
Proof.
  intros Hp Hrest Hk. induction p as [|x p IH]; simpl.
  - destruct Hrest as [-> | [r ->]]; simpl.
    + assumption.
    + now rewrite Ascii.eqb_refl.
  - destruct (Ascii.eqb_spec x c) as [->|Hx].
    + exfalso. apply Hp. now left.
    + rewrite IH; [reflexivity|]. simpl in Hp. tauto.
Qed.

(** A success of the run is a success of the continuation after some
    prefix free of [c]. *)
Lemma star_not_inv (s : str) (k : str -> option A) (a : A) :
  Re.star_not c s k = Some a ->
  exists p r, s = p ++ r /\ ~ In c p /\ k r = Some a.
Proof.
  induction s as [|x s IH]; simpl; intros H.
  - exists [], []. auto.
  - destruct (Ascii.eqb_spec x c) as [->|Hx].
    + exists [], (c :: s). auto.
    + destruct (Re.star_not c s k) as [a'|] eqn:E.
      * injection H as ->.
        destruct (IH eq_refl) as (p & r & -> & Hp & Hk).
        exists (x :: p), r. simpl. intuition congruence.
      * exists [], (x :: s). auto.
Qed.

Lemma plus_not_greedy (p rest : str) (k : str -> option A) (a : A) :
  p <> [] -> ~ In c p -> (rest = [] \/ exists r, rest = c :: r) ->
  k rest = Some a ->
  Re.plus_not c (p ++ rest) k = Some a.
Proof.
  intros Hne Hp Hrest Hk. destruct p as [|x p]; [congruence|].
  simpl. destruct (Ascii.eqb_spec x c) as [->|Hx].
  - exfalso. apply Hp. now left.
  - apply star_not_greedy; simpl in Hp; tauto.
Qed.

Lemma plus_not_inv (s : str) (k : str -> option A) (a : A) :
  Re.plus_not c s k = Some a ->
  exists p r, s = p ++ r /\ p <> [] /\ ~ In c p /\ k r = Some a.
Proof.
  destruct s as [|x s]; simpl; [discriminate|].
  destruct (Ascii.eqb_spec x c) as [->|Hx]; [discriminate|].
  intros H. apply star_not_inv in H as (p & r & -> & Hp & Hk).
  exists (x :: p), r. simpl. intuition congruence.
Qed.
End Star.

(** A chain of literals matches exactly its own text. *)
Lemma run_lits (A : Type) (text : str) :
  forall (c : ascii) (s : str) (g : list str)
         (k : str -> list str -> option A),
    Re.run (Re.lits c text) s g k =
    if PyStr.startswith (c :: text) s
    then k (skipn (length (c :: text)) s) g else None.
Proof.
  induction text as [|c' text IH]; intros c s g k.
  - destruct s as [|x s]; [reflexivity|]. simpl.
    rewrite (Ascii.eqb_sym c x), andb_true_r.
    destruct (Ascii.eqb x c); reflexivity.
  - destruct s as [|x s]; [reflexivity|].
    change (Re.run (Re.lits c (c' :: text)) (x :: s) g k)
      with (if Ascii.eqb x c then Re.run (Re.lits c' text) s g k
            else None).
    rewrite IH.
    change (PyStr.startswith (c :: c' :: text) (x :: s))
      with (Ascii.eqb c x && PyStr.startswith (c' :: text) s).
    rewrite (Ascii.eqb_sym c x).
    destruct (Ascii.eqb x c); reflexivity.
Qed.

Lemma firstn_consumed (p r : str) :
  firstn (length (p ++ r) - length r) (p ++ r) = p.
Proof.
  rewrite length_app.
  replace (length p + length r - length r) with (length p + 0) by lia.
  rewrite firstn_app_2. simpl. apply app_nil_r.
Qed.

End ReFacts.

(** ** URL splitting of the ABFSS form *)

Module UrlFacts.
Import PyStrFacts.

Lemma none_of_In (bad s : str) (c : ascii) :
  none_of bad s = true -> In c bad -> ~ In c s.
Proof.
  unfold none_of. rewrite forallb_forall. intros H Hbad Hin.
  specialize (H c Hin). apply negb_true_iff in H.
  apply contains_false in H. contradiction.
Qed.

Lemma none_of_cons (bad : str) (x : ascii) (s : str) :
  none_of bad (x :: s) = true <->
  PyStr.contains x bad = false /\ none_of bad s = true.
Proof.
  unfold none_of. cbn [forallb].
  now rewrite andb_true_iff, negb_true_iff.
Qed.

Lemma none_of_weaken (bad bad' s : str) :
  incl bad' bad -> none_of bad s = true -> none_of bad' s = true.
Proof.
  unfold none_of. rewrite !forallb_forall. intros Hi H x Hx.
  specialize (H x Hx). apply negb_true_iff in H.
  apply contains_false in H. apply negb_true_iff, contains_false.
  intros Hb. apply H, Hi, Hb.
Qed.

(** Text free of tabs and line breaks is left alone. *)
Lemma remove_unsafe_id (s : str) :
  none_of UrlParse.unsafe_url_bytes s = true ->
  fold_left (fun u b => PyStr.remove b u) UrlParse.unsafe_url_bytes s = s.
Proof.
  intros H. simpl.
  rewrite (remove_id (ascii_of_nat 9) s),
    (remove_id (ascii_of_nat 13) s), (remove_id (ascii_of_nat 10) s);
    try reflexivity; apply (none_of_In _ _ _ H); simpl; tauto.
Qed.

Lemma remove_unsafe_app (a b : str) :
  fold_left (fun u c => PyStr.remove c u) UrlParse.unsafe_url_bytes (a ++ b)
  = fold_left (fun u c => PyStr.remove c u) UrlParse.unsafe_url_bytes a
    ++ fold_left (fun u c => PyStr.remove c u) UrlParse.unsafe_url_bytes b.
Proof. simpl. now rewrite !remove_app. Qed.

Lemma remove_unsafe_tail (t : str) :
  is_uri_tail t = true ->
  is_uri_tail
    (fold_left (fun u c => PyStr.remove c u) UrlParse.unsafe_url_bytes t)
  = true.
Proof.
  destruct t as [|c t]; [reflexivity|]. simpl. intros H.
  apply orb_true_iff in H.
  destruct H as [H|H]; apply Ascii.eqb_eq in H; subst c; reflexivity.
Qed.

Lemma sanitize_abfss (a p t : str) :
  none_of UrlParse.unsafe_url_bytes a = true ->
  none_of UrlParse.unsafe_url_bytes p = true ->
  UrlParse.sanitize (lit "abfss://" ++ a ++ p ++ t)
  = lit "abfss://" ++ a ++ p
    ++ fold_left (fun u c => PyStr.remove c u) UrlParse.unsafe_url_bytes t.
Proof.
  intros Ha Hp. unfold UrlParse.sanitize.
  change (PyStr.lstrip UrlParse.c0_control_or_space
            (lit "abfss://" ++ a ++ p ++ t))
    with (lit "abfss://" ++ a ++ p ++ t).
  rewrite !remove_unsafe_app.
  rewrite (remove_unsafe_id a Ha), (remove_unsafe_id p Hp).
  reflexivity.
Qed.

Lemma split_scheme_abfss (r : str) :
  UrlParse.split_scheme (lit "abfss:" ++ r) = (lit "abfss", r).
Proof. reflexivity. Qed.

Lemma is_delim_spec (c : ascii) :
  UrlParse.is_delim c = true <-> In c (lit "/?#").
Proof.
  unfold UrlParse.is_delim. rewrite !orb_true_iff, !Ascii.eqb_eq.
  simpl. intuition congruence.
Qed.

(** The authority ends at the first delimiter. *)
Lemma splitnetloc_app (a rest : str) :
  none_of (lit "/?#") a = true ->
  match rest with [] => true | c :: _ => UrlParse.is_delim c end = true ->
  UrlParse.splitnetloc (a ++ rest) = (a, rest).
Proof.
  intros Ha Hrest.
  induction a as [|x a IH]; cbn [app UrlParse.splitnetloc].
  - destruct rest as [|c rest]; [reflexivity|].
    cbn [UrlParse.splitnetloc]. now rewrite Hrest.
  - apply none_of_cons in Ha as [Hx Ha].
    destruct (UrlParse.is_delim x) eqn:E.
    + apply is_delim_spec, contains_true in E.
      rewrite E in Hx. discriminate.
    + now rewrite (IH Ha).
Qed.

Lemma split_authority_plain (ok : str -> bool) (a rest : str) :
  none_of (lit "/?#[]") a = true ->
  match rest with [] => true | c :: _ => UrlParse.is_delim c end = true ->
  UrlParse.split_authority ok (lit "//" ++ a ++ rest) = Ok (a, rest).
Proof.
  intros Ha Hrest. unfold UrlParse.split_authority.
  change (PyStr.startswith (lit "//") (lit "//" ++ a ++ rest)) with true.
  change (skipn 2 (lit "//" ++ a ++ rest)) with (a ++ rest).
  cbv iota.
  rewrite splitnetloc_app; [| | assumption].
  - assert (Hl : PyStr.contains "[" a = false)
      by (apply contains_false, (none_of_In _ _ _ Ha); simpl; tauto).
    assert (Hr : PyStr.contains "]" a = false)
      by (apply contains_false, (none_of_In _ _ _ Ha); simpl; tauto).
    now rewrite Hl, Hr.
  - apply (none_of_weaken (lit "/?#[]")); [|assumption].
    intros c Hc. simpl in *. tauto.
Qed.

(** The path component survives the removal of fragment and query. *)
Lemma split_fragment_query_path (p t : str) :
  none_of (lit "?#") p = true -> is_uri_tail t = true ->
  exists q f, UrlParse.split_fragment_query (p ++ t) = (p, q, f).
Proof.
  intros Hp Ht.
  assert (Hq : ~ In "?"%char p) by (apply (none_of_In _ _ _ Hp); simpl; tauto).
  assert (Hf : ~ In "#"%char p) by (apply (none_of_In _ _ _ Hp); simpl; tauto).
  assert (Hpq : PyStr.contains "?" p = false) by now apply contains_false.
  assert (Hpf : PyStr.contains "#" p = false) by now apply contains_false.
  unfold UrlParse.split_fragment_query.
  destruct t as [|c t].
  - rewrite app_nil_r, Hpf, Hpq. now exists [], [].
  - simpl in Ht. apply orb_true_iff in Ht.
    destruct Ht as [Hc|Hc]; apply Ascii.eqb_eq in Hc; subst c.
    + (* a query, and maybe a fragment after it *)
      destruct (PyStr.contains "#" (p ++ "?"%char :: t)) eqn:E.
      * apply contains_true in E. apply in_app_or in E.
        destruct E as [E|E]; [contradiction|].
        destruct E as [E|E]; [discriminate|].
        apply in_split in E.
        (* cut at the first [#] of [t] *)
        assert (Hfirst : exists t1 t2, t = t1 ++ "#"%char :: t2
                                       /\ ~ In "#"%char t1).
        { clear - E. destruct E as (l1 & l2 & ->).
          induction l1 as [|x l1 IH].
          - exists [], l2. simpl. tauto.
          - destruct (ascii_dec x "#") as [->|Hx].
            + exists [], (l1 ++ "#"%char :: l2). simpl. tauto.
            + destruct IH as (t1 & t2 & Et & Hn).
              exists (x :: t1), t2. simpl. rewrite Et.
              intuition congruence. }
        destruct Hfirst as (t1 & t2 & -> & Hn).
        replace (p ++ "?"%char :: t1 ++ "#"%char :: t2)
          with ((p ++ "?"%char :: t1) ++ "#"%char :: t2)
          by (rewrite <- app_assoc; reflexivity).
        rewrite split1_first.
        -- assert (Hc : PyStr.contains "?" (p ++ "?"%char :: t1) = true)
             by (apply contains_true, in_or_app; right; now left).
           rewrite Hc, split1_first by assumption.
           now exists t1, t2.
        -- intros Hin. apply in_app_or in Hin.
           destruct Hin as [Hin|[Hin|Hin]];
             [contradiction | discriminate | contradiction].
      * assert (Hc : PyStr.contains "?" (p ++ "?"%char :: t) = true)
          by (apply contains_true, in_or_app; right; now left).
        rewrite Hc, split1_first by assumption.
        now exists t, [].
    + (* a fragment *)
      assert (Hc : PyStr.contains "#" (p ++ "#"%char :: t) = true)
        by (apply contains_true, in_or_app; right; now left).
      rewrite Hc, split1_first by assumption.
      rewrite Hpq. now exists [], t.
Qed.

End UrlFacts.

(** ** The authority pattern *)

Module ResolverFacts.
Import PyStrFacts ReFacts UrlFacts.

(** The pattern accepts every authority that begins with the shape, and
    captures the two names. *)
Lemma match_complete (n ns acct extra : str) :
  authority_shape n ns acct extra ->
  Re.match_ abfss_netloc_re n = Some [ns; acct].
Proof.
  intros (-> & Hns & Hat & Hacct & Hdot).
  unfold Re.match_, abfss_netloc_re. cbn [Re.run].
  apply plus_not_greedy; try assumption.
  - right. now exists (acct ++ dfs_suffix ++ extra).
  - rewrite firstn_consumed. cbn [Re.run app lit list_ascii_of_string].
    change (Ascii.eqb "@" "@") with true. cbv iota.
    apply plus_not_greedy; try assumption.
    + right. now exists (lit "dfs.core.windows.net" ++ extra).
    + rewrite firstn_consumed. rewrite run_lits.
      change ("."%char :: lit "dfs.core.windows.net") with dfs_suffix.
      now rewrite startswith_app.
Qed.

(** Conversely a match fixes the shape of the start of the authority. *)
Lemma match_sound (n : str) (m : list str) :
  Re.match_ abfss_netloc_re n = Some m ->
  exists ns acct extra, m = [ns; acct] /\ authority_shape n ns acct extra.
Proof.
  unfold Re.match_, abfss_netloc_re. cbn [Re.run]. intros H.
  apply plus_not_inv in H as (ns & r & -> & Hns & Hat & H).
  rewrite firstn_consumed in H. cbn [Re.run app] in H.
  destruct r as [|x r]; [discriminate|].
  destruct (Ascii.eqb_spec x "@") as [->|]; [|discriminate].
  apply plus_not_inv in H as (acct & r' & -> & Hacct & Hdot & H).
  rewrite firstn_consumed, run_lits in H.
  destruct (PyStr.startswith ("."%char :: lit "dfs.core.windows.net") r')
    eqn:E; [|discriminate].
  injection H as <-.
  apply startswith_inv in E as [extra ->].
  exists ns, acct, extra. split; [reflexivity|].
  unfold authority_shape. repeat split; assumption.
Qed.

(** The two names and the rest are determined by the authority. *)
Lemma shape_unique (n ns acct extra ns' acct' extra' : str) :
  authority_shape n ns acct extra ->
  authority_shape n ns' acct' extra' ->
  ns = ns' /\ acct = acct' /\ extra = extra'.
Proof.
  intros (-> & _ & Hat & _ & Hdot) (E & _ & Hat' & _ & Hdot').
  apply (first_occurrence_unique "@") in E as [-> E]; try assumption.
  apply (first_occurrence_unique ".") in E as [-> E]; try assumption.
  injection E as E. auto.
Qed.

Lemma match_none (n : str) :
  Re.match_ abfss_netloc_re n = None <->
  ~ exists ns acct extra, authority_shape n ns acct extra.
Proof.
  split.
  - intros H (ns & acct & extra & Hs).
    rewrite (match_complete _ _ _ _ Hs) in H. discriminate.
  - intros H. destruct (Re.match_ abfss_netloc_re n) as [m|] eqn:E;
      [|reflexivity].
    exfalso. apply H.
    destruct (match_sound _ _ E) as (ns & acct & extra & _ & Hs).
    now exists ns, acct, extra.
Qed.

Lemma strip_leading_slash_eq (p : str) :
  (if PyStr.startswith (lit "/") p then skipn 1 p else p)
  = strip_leading_slash p.
Proof.
  destruct p as [|c p]; [reflexivity|].
  cbn [PyStr.startswith lit list_ascii_of_string strip_leading_slash].
  rewrite andb_true_r, Ascii.eqb_sym.
  destruct (Ascii.eqb_spec c "/") as [->|Hc]; [reflexivity|].
  destruct c as [[] [] [] [] [] [] [] []]; try reflexivity.
  now contradiction Hc.
Qed.

(** The resolver, read off the parsed URL. *)
Lemma parse_of_parsed (ok : str -> bool) (uri : str)
      (parsed : UrlParse.ParseResult) :
  UrlParse.urlparse ok uri = Ok parsed ->
  _parse_abfss_uri ok uri =
  if PyStr.eqb (UrlParse.scheme parsed) (lit "abfss")
  then match Re.match_ abfss_netloc_re (UrlParse.netloc parsed) with
       | Some m => Ok (Re.group m 1, Re.group m 2,
                       strip_leading_slash (UrlParse.path parsed))
       | None => Raise bad_abfss_authority
       end
  else Raise (not_an_abfss_uri uri).
Proof.
  intros H. unfold _parse_abfss_uri. rewrite H. cbn [bind].
  destruct (PyStr.eqb (UrlParse.scheme parsed) (lit "abfss"));
    cbn [negb]; [|reflexivity].
  destruct (Re.match_ abfss_netloc_re (UrlParse.netloc parsed));
    [|reflexivity].
  now rewrite strip_leading_slash_eq.
Qed.

(** URL parsing of a URI of the ABFSS scheme: authority [a], path
    component [p], and a query or fragment [t] after it. *)
Lemma urlparse_abfss (ok : str -> bool) (a p t : str) :
  none_of (lit "/?#[]" ++ UrlParse.unsafe_url_bytes) a = true ->
  is_path_component p = true ->
  is_uri_tail t = true ->
  exists q f,
    UrlParse.urlparse ok (lit "abfss://" ++ a ++ p ++ t)
    = Ok (UrlParse.mkParseResult (lit "abfss") a p [] q f).
Proof.
  intros Ha Hp Ht.
  unfold is_path_component in Hp. apply andb_true_iff in Hp as [Hp0 Hp].
  assert (Hau : none_of UrlParse.unsafe_url_bytes a = true).
  { apply (none_of_weaken (lit "/?#[]" ++ UrlParse.unsafe_url_bytes));
      [|assumption]. intros c Hc. apply in_or_app. now right. }
  assert (Had : none_of (lit "/?#[]") a = true).
  { apply (none_of_weaken (lit "/?#[]" ++ UrlParse.unsafe_url_bytes));
      [|assumption]. intros c Hc. apply in_or_app. now left. }
  assert (Hpu : none_of UrlParse.unsafe_url_bytes p = true).
  { apply (none_of_weaken (lit "?#" ++ UrlParse.unsafe_url_bytes));
      [|assumption]. intros c Hc. apply in_or_app. now right. }
  assert (Hpd : none_of (lit "?#") p = true).
  { apply (none_of_weaken (lit "?#" ++ UrlParse.unsafe_url_bytes));
      [|assumption]. intros c Hc. apply in_or_app. now left. }
  pose proof (remove_unsafe_tail t Ht) as Ht'.
  set (t' := fold_left (fun u c => PyStr.remove c u)
                       UrlParse.unsafe_url_bytes t) in *.
  destruct (split_fragment_query_path p t' Hpd Ht') as (q & f & Hfq).
  exists q, f.
  unfold UrlParse.urlparse, UrlParse.urlsplit.
  rewrite (sanitize_abfss a p t Hau Hpu). fold t'.
  change (lit "abfss://" ++ a ++ p ++ t')
    with (lit "abfss:" ++ lit "//" ++ a ++ p ++ t').
  rewrite split_scheme_abfss.
  rewrite (split_authority_plain ok a (p ++ t') Had).
  - cbn [bind]. rewrite Hfq. reflexivity.
  - destruct p as [|c p].
    + destruct t' as [|c t'']; [reflexivity|].
      cbn [app]. apply is_delim_spec. simpl in Ht'.
      apply orb_true_iff in Ht'.
      destruct Ht' as [E|E]; apply Ascii.eqb_eq in E; subst c;
        simpl; tauto.
    + cbn [app]. apply is_delim_spec.
      cbn [PosixPath.is_empty orb PyStr.startswith lit
             list_ascii_of_string] in Hp0.
      rewrite andb_true_r in Hp0. apply Ascii.eqb_eq in Hp0. subst c.
      simpl. tauto.
Qed.

(** The resolver on a URI of the valid form. *)
Lemma parse_valid_form (ok : str -> bool) (ns acct p t : str) :
  is_filesystem_name ns = true ->
  is_account_name acct = true ->
  is_path_component p = true ->
  is_uri_tail t = true ->
  _parse_abfss_uri ok
    (lit "abfss://" ++ ns ++ lit "@" ++ acct ++ dfs_suffix ++ p ++ t)
  = Ok (ns, acct, strip_leading_slash p).
Proof.
  intros Hns Hacct Hp Ht.
  unfold is_filesystem_name in Hns. apply andb_true_iff in Hns as [Hn0 Hns].
  unfold is_account_name in Hacct.
  apply andb_true_iff in Hacct as [Ha0 Hacct].
  assert (Hshape : authority_shape (ns ++ lit "@" ++ acct ++ dfs_suffix)
                                   ns acct []).
  { unfold authority_shape. rewrite app_nil_r. repeat split.
    - destruct ns; [discriminate | congruence].
    - apply (none_of_In _ _ _ Hns). simpl. tauto.
    - destruct acct; [discriminate | congruence].
    - apply (none_of_In _ _ _ Hacct). simpl. tauto. }
  assert (Hauth : none_of (lit "/?#[]" ++ UrlParse.unsafe_url_bytes)
                          (ns ++ lit "@" ++ acct ++ dfs_suffix) = true).
  { assert (H1 : none_of (lit "/?#[]" ++ UrlParse.unsafe_url_bytes) ns
                 = true).
    { apply (none_of_weaken (lit "@/?#[]" ++ UrlParse.unsafe_url_bytes));
        [|assumption]. intros c Hc. simpl in *. tauto. }
    assert (H2 : none_of (lit "/?#[]" ++ UrlParse.unsafe_url_bytes) acct
                 = true).
    { apply (none_of_weaken (lit "./?#[]" ++ UrlParse.unsafe_url_bytes));
        [|assumption]. intros c Hc. simpl in *. tauto. }
    unfold none_of in *. rewrite !forallb_app, H1, H2. reflexivity. }
  destruct (urlparse_abfss ok _ p t Hauth Hp Ht) as (q & f & Hparse).
  replace (lit "abfss://" ++ ns ++ lit "@" ++ acct ++ dfs_suffix ++ p ++ t)
    with (lit "abfss://" ++ (ns ++ lit "@" ++ acct ++ dfs_suffix) ++ p ++ t)
    by (now rewrite <- !app_assoc).
  rewrite (parse_of_parsed ok _ _ Hparse).
  cbn [UrlParse.scheme UrlParse.netloc UrlParse.path].
  rewrite eqb_refl, (match_complete _ _ _ _ Hshape). reflexivity.
Qed.

End ResolverFacts.

(** ** Relative paths *)

Module PathFacts.
Import PyStrFacts.

Lemma endswith_sep_app (a w : str) :
  w <> [] ->
  PyStr.endswith PosixPath.sep (a ++ w) = PyStr.endswith PosixPath.sep w.
Proof.
  intros Hw. unfold PyStr.endswith. rewrite rev_app_distr.
  destruct (rev w) as [|x r] eqn:E.
  - apply (f_equal (@rev ascii)) in E. rewrite rev_involutive in E.
    contradiction.
  - reflexivity.
Qed.

Lemma startswith_sep_cons (x : ascii) (r : str) :
  PyStr.startswith PosixPath.sep (x :: r) = Ascii.eqb "/" x.
Proof.
  change PosixPath.sep with ["/"%char]. cbn [PyStr.startswith].
  apply andb_true_r.
Qed.

(** A component does not end with a slash. *)
Lemma component_end (w : str) :
  is_component w -> PyStr.endswith PosixPath.sep w = false.
Proof.
  intros [Hne Hs]. unfold PyStr.endswith.
  change (rev PosixPath.sep) with PosixPath.sep.
  destruct (rev w) as [|x r] eqn:E.
  - reflexivity.
  - rewrite startswith_sep_cons. apply Ascii.eqb_neq. intros <-.
    apply Hs, in_rev. rewrite E. now left.
Qed.

Lemma component_start (w : str) :
  is_component w -> PyStr.startswith PosixPath.sep w = false.
Proof.
  intros [Hne Hs]. destruct w as [|x w]; [contradiction|].
  rewrite startswith_sep_cons. apply Ascii.eqb_neq. intros <-.
  apply Hs. now left.
Qed.

(** The pieces of a split hold no separator. *)
Lemma split_pieces (c : ascii) (s : str) :
  Forall (fun w => ~ In c w) (PyStr.split c s).
Proof.
  induction s as [|x s IH]; cbn [PyStr.split].
  - constructor; [tauto | constructor].
  - destruct (Ascii.eqb_spec x c) as [->|Hx].
    + constructor; [tauto | assumption].
    + destruct (PyStr.split c s) as [|w ws].
      * constructor; [|constructor]. simpl. intuition congruence.
      * inversion IH; subst. constructor; [|assumption].
        simpl. intuition congruence.
Qed.

Lemma components_are_components (cwd p : str) :
  Forall is_component (PosixPath.components cwd p).
Proof.
  unfold PosixPath.components.
  generalize (split_pieces "/" (PosixPath.abspath cwd p)).
  generalize (PyStr.split "/" (PosixPath.abspath cwd p)).
  induction l as [|w l IH]; intros H; cbn [filter]; [constructor|].
  inversion H; subst.
  destruct w as [|x w]; cbn [PosixPath.is_empty negb].
  - now apply IH.
  - constructor; [|now apply IH]. split; [discriminate | assumption].
Qed.

Lemma pardir_component : is_component PosixPath.pardir.
Proof.
  split; [discriminate|]. simpl. intuition discriminate.
Qed.

(** Joining components keeps the end of the last one. *)
Lemma join_components (acc : str) (l : list str) :
  acc <> [] -> PyStr.endswith PosixPath.sep acc = false ->
  Forall is_component l ->
  fold_left PosixPath.join l acc <> []
  /\ PyStr.endswith PosixPath.sep (fold_left PosixPath.join l acc) = false.
Proof.
  revert acc. induction l as [|w l IH]; intros acc Hne Hend Hl;
    cbn [fold_left].
  - now split.
  - inversion Hl as [|? ? Hw Hl']; subst.
    assert (E : PosixPath.join acc w = acc ++ PosixPath.sep ++ w).
    { unfold PosixPath.join.
      rewrite (component_start w Hw), Hend.
      destruct acc; [contradiction | reflexivity]. }
    rewrite E. apply IH; [| |assumption].
    + destruct acc; [contradiction | discriminate].
    + rewrite app_assoc, endswith_sep_app by (apply Hw).
      now apply component_end.
Qed.

(** A relative path never ends with a slash. *)
Lemma relpath_end (cwd p start r : str) :
  PosixPath.relpath cwd p start = Ok r ->
  PyStr.endswith PosixPath.sep r = false.
Proof.
  unfold PosixPath.relpath.
  destruct (PosixPath.is_empty p); [discriminate|].
  set (sl := PosixPath.components cwd start).
  set (pl := PosixPath.components cwd p).
  set (i := length (PosixPath.commonprefix sl pl)).
  assert (Hall : Forall is_component
                        (repeat PosixPath.pardir (length sl - i)
                         ++ skipn i pl)).
  { apply Forall_app. split.
    - apply Forall_forall. intros x Hx. apply repeat_spec in Hx.
      subst. apply pardir_component.
    - apply Forall_forall. intros x Hx.
      pose proof (components_are_components cwd p) as H.
      rewrite Forall_forall in H. apply H.
      fold pl. rewrite <- (firstn_skipn i pl). apply in_or_app. now right. }
  destruct (repeat PosixPath.pardir (length sl - i) ++ skipn i pl)
    as [|w l]; cbn [PosixPath.is_nil].
  - intros H. injection H as <-. reflexivity.
  - intros H. injection H as <-. cbn [PosixPath.join_all].
    inversion Hall as [|? ? Hw Hl]; subst.
    apply join_components; [apply Hw | now apply component_end | assumption].
Qed.

Lemma abspath_nonempty (cwd p : str) : PosixPath.abspath cwd p <> [].
Proof.
  unfold PosixPath.abspath, PosixPath.normpath.
  destruct (PosixPath.is_empty _); [discriminate|].
  match goal with
  | |- (if PosixPath.is_empty ?x then _ else _) <> [] =>
      destruct x; cbn [PosixPath.is_empty]; discriminate
  end.
Qed.

Lemma join_nonempty (a b : str) : a <> [] -> PosixPath.join a b <> [].
Proof.
  intros Ha. unfold PosixPath.join.
  destruct (PyStr.startswith PosixPath.sep b) eqn:E.
  - destruct b; [discriminate E | discriminate].
  - destruct (PosixPath.is_empty a || PyStr.endswith PosixPath.sep a);
      destruct a; try contradiction; discriminate.
Qed.

Lemma join_names_nonempty (names : list str) (top : str) :
  top <> [] -> fold_left PosixPath.join names top <> [].
Proof.
  revert top. induction names as [|n names IH]; intros top Ht;
    cbn [fold_left]; [assumption|].
  apply IH. now apply join_nonempty.
Qed.

(** A relative path exists for every non-empty path. *)
Lemma relpath_total (cwd p start : str) :
  p <> [] -> exists r, PosixPath.relpath cwd p start = Ok r.
Proof.
  intros Hp. unfold PosixPath.relpath.
  destruct p; [contradiction|]. cbn [PosixPath.is_empty].
  match goal with |- context [if ?b then _ else _] => destruct b end;
    eauto.
Qed.

Lemma relpath_defined (cwd p start r : str) :
  PosixPath.relpath cwd p start = Ok r -> p <> [].
Proof.
  unfold PosixPath.relpath. destruct p; [discriminate | discriminate].
Qed.

End PathFacts.

(** ** Sorting *)

Module SortedFacts.

Lemma ltb_irrefl (a : str) : PyStr.ltb a a = false.
Proof.
  induction a as [|x a IH]; cbn [PyStr.ltb]; [reflexivity|].
  rewrite Nat.ltb_irrefl, Nat.eqb_refl, IH. reflexivity.
Qed.

Lemma ltb_trans (a b c : str) :
  PyStr.ltb a b = true -> PyStr.ltb b c = true -> PyStr.ltb a c = true.
Proof.
  revert b c. induction a as [|x a IH]; intros [|y b] [|z c];
    cbn [PyStr.ltb]; try discriminate; try reflexivity.
  rewrite !orb_true_iff, !andb_true_iff, !Nat.ltb_lt, !Nat.eqb_eq.
  intros [H1|[H1 H1']] [H2|[H2 H2']].
  - left. lia.
  - left. lia.
  - left. lia.
  - right. split; [lia|]. eapply IH; eassumption.
Qed.

(** The order is total: of two distinct strings one is smaller. *)
Lemma ltb_total (a b : str) :
  PyStr.ltb a b = false -> PyStr.ltb b a = false -> a = b.
Proof.
  revert b. induction a as [|x a IH]; intros [|y b];
    cbn [PyStr.ltb]; try discriminate; try reflexivity.
  rewrite !orb_false_iff, !andb_false_iff, !Nat.ltb_ge, !Nat.eqb_neq.
  intros [H1 H1'] [H2 H2'].
  assert (E : nat_of_ascii x = nat_of_ascii y) by lia.
  apply (f_equal ascii_of_nat) in E as E'.
  rewrite !ascii_nat_embedding in E'. subst y.
  f_equal. apply IH.
  - destruct H1' as [?|?]; [lia | assumption].
  - destruct H2' as [?|?]; [lia | assumption].
Qed.

Lemma leb_trans (a b c : str) :
  PyStr.leb a b = true -> PyStr.leb b c = true -> PyStr.leb a c = true.
Proof.
  unfold PyStr.leb. rewrite !negb_true_iff. intros Hab Hbc.
  destruct (PyStr.ltb c a) eqn:Hca; [|reflexivity].
  destruct (PyStr.ltb c b) eqn:Hcb; [congruence|].
  (* b <= c < a and a <= b *)
  destruct (PyStr.ltb b c) eqn:E.
  - rewrite (ltb_trans b c a E Hca) in Hab. discriminate.
  - rewrite (ltb_total b c E Hcb) in Hab. congruence.
Qed.

Section Insertion.
Variable A : Type.
Variable key : A -> str.

Lemma insert_by_perm (x : A) (l : list A) :
  Permutation (x :: l) (insert_by key x l).
Proof.
  induction l as [|y l IH]; cbn [insert_by]; [reflexivity|].
  destruct (PyStr.ltb (key y) (key x)); [|reflexivity].
  rewrite perm_swap. now constructor.
Qed.

Lemma sorted_perm (l : list A) : Permutation l (sorted key l).
Proof.
  induction l as [|x l IH]; cbn; [constructor|].
  rewrite <- insert_by_perm. now constructor.
Qed.

Lemma insert_by_sorted (x : A) (l : list A) :
  Sorted (key_le key) l -> Sorted (key_le key) (insert_by key x l).
Proof.
  induction 1 as [|y l Hs IH Hhd]; cbn [insert_by].
  - repeat constructor.
  - destruct (PyStr.ltb (key y) (key x)) eqn:E.
    + constructor; [assumption|].
      destruct l as [|z l]; cbn [insert_by].
      * constructor. unfold key_le, PyStr.leb.
        destruct (PyStr.ltb (key x) (key y)) eqn:E'; [|reflexivity].
        pose proof (ltb_trans _ _ _ E E') as C.
        rewrite ltb_irrefl in C. discriminate.
      * destruct (PyStr.ltb (key z) (key x)).
        -- constructor. now inversion Hhd.
        -- constructor. unfold key_le, PyStr.leb.
           destruct (PyStr.ltb (key x) (key y)) eqn:E'; [|reflexivity].
           pose proof (ltb_trans _ _ _ E E') as C.
           rewrite ltb_irrefl in C. discriminate.
    + constructor; [now constructor|].
      constructor. unfold key_le, PyStr.leb. now rewrite E.
Qed.

Lemma sorted_sorted (l : list A) :
  StronglySorted (key_le key) (sorted key l).
Proof.
  apply Sorted_StronglySorted.
  - intros a b c. apply leb_trans.
  - induction l as [|x l IH]; cbn; [constructor|].
    now apply insert_by_sorted.
Qed.
(** The keys of a sorted list are in ascending order. *)
Lemma sorted_keys (l : list A) :
  StronglySorted (fun a b => PyStr.leb a b = true) (map key (sorted key l)).
Proof.
  generalize (sorted_sorted l). generalize (sorted key l).
  induction 1 as [|x l' Hs IH Hx]; cbn [map]; constructor.
  - assumption.
  - rewrite Forall_map. exact Hx.
Qed.

End Insertion.

(** A list of strings has one ascending arrangement. *)
Lemma ascending_unique (l l' : list str) :
  StronglySorted (fun a b => PyStr.leb a b = true) l ->
  StronglySorted (fun a b => PyStr.leb a b = true) l' ->
  Permutation l l' -> l = l'.
Proof.
  intros Hl. revert l'.
  induction Hl as [|x l Hs IH Hx]; intros l' Hl' Hp.
  - apply Permutation_nil in Hp. now subst.
  - destruct Hl' as [|y l' Hs' Hy].
    + apply Permutation_sym, Permutation_nil in Hp. discriminate.
    + assert (Hxy : PyStr.leb x y = true).
      { assert (Hin : In y (x :: l))
          by (eapply Permutation_in; [apply Permutation_sym, Hp | now left]).
        destruct Hin as [->|Hin].
        - unfold PyStr.leb. now rewrite ltb_irrefl.
        - rewrite Forall_forall in Hx. now apply Hx. }
      assert (Hyx : PyStr.leb y x = true).
      { assert (Hin : In x (y :: l'))
          by (eapply Permutation_in; [apply Hp | now left]).
        destruct Hin as [->|Hin].
        - unfold PyStr.leb. now rewrite ltb_irrefl.
        - rewrite Forall_forall in Hy. now apply Hy. }
      unfold PyStr.leb in Hxy, Hyx. apply negb_true_iff in Hxy, Hyx.
      pose proof (ltb_total x y Hyx Hxy) as ->.
      f_equal. apply IH; [assumption|].
      eapply Permutation_cons_inv. exact Hp.
Qed.

(** Sorting forgets the order of its input, as far as the keys go. *)
Lemma sorted_keys_perm (A : Type) (key : A -> str) (l l' : list A) :
  Permutation l l' ->
  map key (sorted key l) = map key (sorted key l').
Proof.
  intros Hp. apply ascending_unique; try apply sorted_keys.
  apply Permutation_map.
  rewrite <- (sorted_perm A key l), <- (sorted_perm A key l'). exact Hp.
Qed.

(** The order is the lexicographic one: [a < b] when [a] is a proper
    prefix of [b], or when at the first difference the character of [a]
    is the smaller. *)
Lemma ltb_lexicographic (a b : str) :
  PyStr.ltb a b = true <->
  exists p,
    (exists y b', a = p /\ b = p ++ y :: b')
    \/ (exists x y a' b',
           a = p ++ x :: a' /\ b = p ++ y :: b'
           /\ nat_of_ascii x < nat_of_ascii y).
Proof.
  split.
  - revert b. induction a as [|x a IH]; intros [|y b]; cbn [PyStr.ltb];
      try discriminate.
    + intros _. exists []. left. now exists y, b.
    + rewrite orb_true_iff, andb_true_iff, Nat.ltb_lt, Nat.eqb_eq.
      intros [H|[H H']].
      * exists []. right. now exists x, y, a, b.
      * apply (f_equal ascii_of_nat) in H.
        rewrite !ascii_nat_embedding in H. subst y.
        destruct (IH b H') as [p [(y & b' & -> & ->)
                                 |(u & v & a' & b' & -> & -> & Hlt)]].
        -- exists (x :: p). left. now exists y, b'.
        -- exists (x :: p). right. now exists u, v, a', b'.
  - intros [p H]. revert a b H.
    induction p as [|c p IH]; intros a b H.
    + destruct H as [(y & b' & -> & ->)|(x & y & a' & b' & -> & -> & Hlt)];
        cbn [app PyStr.ltb]; [reflexivity|].
      apply orb_true_iff. left. now apply Nat.ltb_lt.
    + assert (E : exists a0 b0,
                 a = c :: a0 /\ b = c :: b0
                 /\ ((exists y b', a0 = p /\ b0 = p ++ y :: b')
                     \/ (exists x y a' b',
                            a0 = p ++ x :: a' /\ b0 = p ++ y :: b'
                            /\ nat_of_ascii x < nat_of_ascii y))).
      { destruct H as [(y & b' & -> & ->)
                      |(x & y & a' & b' & -> & -> & Hlt)].
        - exists p, (p ++ y :: b'). repeat split. left. now exists y, b'.
        - exists (p ++ x :: a'), (p ++ y :: b'). repeat split.
          right. now exists x, y, a', b'. }
      destruct E as (a0 & b0 & -> & -> & H0).
      cbn [PyStr.ltb]. rewrite Nat.eqb_refl, (IH a0 b0 H0).
      apply orb_true_r.
Qed.

End SortedFacts.

(** ** The listing loop and the upload loop *)

Module RepositoryFacts.
Import PyStrFacts PathFacts SortedFacts.

Section WithCwd.
Variable cwd : str.

(** The loop keeps the results other than the target, in order, and
    appends the entry of each. *)
Lemma list_loop_entries (base target : str)
      (results : list PathProperties) :
  forall infos out,
    list_loop cwd base target results infos = Ok out ->
    exists news,
      out = infos ++ news
      /\ Forall2 (fun r e => entry_of cwd base r = Ok e)
                 (filter (is_child target) results) news.
Proof.
  induction results as [|r rest IH]; intros infos out H;
    cbn [list_loop filter] in *.
  - injection H as <-. exists []. rewrite app_nil_r. now split.
  - unfold is_child at 1.
    destruct (PyStr.eqb target (name r)); cbn [negb].
    + now apply IH.
    + destruct (is_directory r) eqn:Hd;
        destruct (PosixPath.relpath cwd (name r) base) as [p|e] eqn:Hp;
        cbn [bind] in *; try discriminate.
      * change (lit "/") with PosixPath.sep in H.
        rewrite (relpath_end _ _ _ _ Hp) in H.
        destruct (IH _ _ H) as (news & -> & Hn).
        exists (FileInfo.mk p true None :: news).
        rewrite <- app_assoc. split; [reflexivity|].
        constructor; [|assumption].
        unfold entry_of. rewrite Hp, Hd. reflexivity.
      * destruct (IH _ _ H) as (news & -> & Hn).
        exists (FileInfo.mk p false (content_length r) :: news).
        rewrite <- app_assoc. split; [reflexivity|].
        constructor; [|assumption].
        unfold entry_of. rewrite Hp, Hd. reflexivity.
Qed.

(** The loop runs to its end when every kept result has a name. *)
Lemma list_loop_total (base target : str)
      (results : list PathProperties) :
  Forall (fun r => name r <> []) (filter (is_child target) results) ->
  forall infos, exists out,
      list_loop cwd base target results infos = Ok out.
Proof.
  induction results as [|r rest IH]; intros Hall infos;
    cbn [list_loop filter] in *.
  - eauto.
  - unfold is_child at 1 in Hall.
    destruct (PyStr.eqb target (name r)); cbn [negb] in Hall.
    + now apply IH.
    + inversion Hall as [|? ? Hr Hrest]; subst.
      destruct (relpath_total cwd (name r) base Hr) as [p Hp].
      rewrite Hp. cbn [bind].
      destruct (is_directory r); now apply IH.
Qed.

(** What [list_artifacts] returns: nothing, or the entries sorted. *)
Lemma list_artifacts_result (self : Repository) (path : option str)
      (out : list FileInfo.t) :
  list_artifacts cwd self path = Ok out ->
  exists results infos,
    get_paths (fs_client self) (list_target self path) false = Ok results
    /\ Forall2 (fun r e =>
                  entry_of cwd (base_data_lake_directory self) r = Ok e)
               (filter (is_child (list_target self path)) results) infos
    /\ (out = [] \/ out = sorted FileInfo.path infos).
Proof.
  unfold list_artifacts, list_infos. intros H.
  destruct (get_paths (fs_client self) (list_target self path) false)
    as [results|e] eqn:Hg; cbn [bind] in H; [|discriminate].
  destruct (list_loop cwd (base_data_lake_directory self)
                      (list_target self path) results [])
    as [infos|e] eqn:Hl; cbn [bind] in H; [|discriminate].
  destruct (list_loop_entries _ _ _ _ _ Hl) as (news & E & Hn).
  cbn [app] in E. subst news.
  exists results, infos. split; [reflexivity|]. split; [assumption|].
  destruct infos as [|info [|info' infos]].
  - injection H as <-. now left.
  - destruct (negb (FileInfo.is_dir info)
              && PyStr.eqb (FileInfo.path info) (rel_path_of self path));
      injection H as <-; [now left | now right].
  - injection H as <-. now right.
Qed.

(** [list_artifacts] returns when the backend answers and every result
    it keeps has a name. *)
Lemma list_artifacts_returns (self : Repository) (path : option str)
      (results : list PathProperties) :
  get_paths (fs_client self) (list_target self path) false = Ok results ->
  Forall (fun r => name r <> [])
         (filter (is_child (list_target self path)) results) ->
  exists out, list_artifacts cwd self path = Ok out.
Proof.
  intros Hg Hnames. unfold list_artifacts, list_infos.
  rewrite Hg. cbn [bind].
  destruct (list_loop_total (base_data_lake_directory self)
                            (list_target self path) results Hnames [])
    as [infos ->].
  cbn [bind]. destruct infos as [|info [|info' infos]]; eauto.
  destruct (negb (FileInfo.is_dir info)
            && PyStr.eqb (FileInfo.path info) (rel_path_of self path));
    eauto.
Qed.

(** What [list_artifacts] returns, with the entries named: the entries of
    the kept results, sorted, unless they are one lone file. *)
Lemma list_artifacts_exact (self : Repository) (path : option str)
      (out : list FileInfo.t) :
  list_artifacts cwd self path = Ok out ->
  exists results,
    get_paths (fs_client self) (list_target self path) false = Ok results
    /\ out =
       let infos :=
         map (entry_or_default cwd (base_data_lake_directory self))
             (filter (is_child (list_target self path)) results) in
       if is_lone_file (rel_path_of self path) infos then []
       else sorted FileInfo.path infos.
Proof.
  unfold list_artifacts, list_infos. intros H.
  destruct (get_paths (fs_client self) (list_target self path) false)
    as [results|e] eqn:Hg; cbn [bind] in H; [|discriminate].
  destruct (list_loop cwd (base_data_lake_directory self)
                      (list_target self path) results [])
    as [infos|e] eqn:Hl; cbn [bind] in H; [|discriminate].
  destruct (list_loop_entries _ _ _ _ _ Hl) as (news & E & Hn).
  cbn [app] in E. subst news.
  assert (Hmap : infos
                 = map (entry_or_default cwd (base_data_lake_directory self))
                       (filter (is_child (list_target self path)) results)).
  { clear - Hn. induction Hn as [|r e rs es Hre _ IH]; [reflexivity|].
    cbn [map]. f_equal; [|exact IH].
    unfold entry_or_default. now rewrite Hre. }
  exists results. split; [reflexivity|]. cbv zeta. rewrite <- Hmap.
  destruct infos as [|info [|info' infos]]; cbn [is_lone_file].
  - now injection H as <-.
  - destruct (negb (FileInfo.is_dir info)
              && PyStr.eqb (FileInfo.path info) (rel_path_of self path));
      now injection H as <-.
  - now injection H as <-.
Qed.

Lemma filter_perm (A : Type) (f : A -> bool) (l l' : list A) :
  Permutation l l' -> Permutation (filter f l) (filter f l').
Proof.
  induction 1 as [|x l l' _ IH|x y l|l l' l'' _ IH1 _ IH2]; cbn [filter].
  - constructor.
  - destruct (f x); [now constructor | assumption].
  - destruct (f x), (f y); try reflexivity. apply perm_swap.
  - now transitivity (filter f l').
Qed.

(** The paths returned do not depend on the order of the backend
    results. *)
Lemma list_artifacts_order_independent
      (self self' : Repository) (path : option str)
      (results results' : list PathProperties)
      (out out' : list FileInfo.t) :
  base_data_lake_directory self = base_data_lake_directory self' ->
  get_paths (fs_client self) (list_target self path) false = Ok results ->
  get_paths (fs_client self') (list_target self' path) false = Ok results' ->
  Permutation results results' ->
  list_artifacts cwd self path = Ok out ->
  list_artifacts cwd self' path = Ok out' ->
  map FileInfo.path out = map FileInfo.path out'.
Proof.
  intros Hbase Hg Hg' Hperm H H'.
  destruct (list_artifacts_exact _ _ _ H) as (r1 & Hr1 & ->).
  destruct (list_artifacts_exact _ _ _ H') as (r2 & Hr2 & ->).
  rewrite Hg in Hr1. injection Hr1 as <-.
  rewrite Hg' in Hr2. injection Hr2 as <-.
  assert (Ht : list_target self' path = list_target self path)
    by (unfold list_target; now rewrite Hbase).
  assert (Hrel : rel_path_of self' path = rel_path_of self path)
    by (unfold rel_path_of; now rewrite Ht, Hbase).
  rewrite Ht, Hrel, <- Hbase. cbv zeta.
  set (f := entry_or_default cwd (base_data_lake_directory self)).
  set (keep := is_child (list_target self path)).
  assert (Hp : Permutation (map f (filter keep results))
                           (map f (filter keep results')))
    by (apply Permutation_map, filter_perm, Hperm).
  assert (Hlone : is_lone_file (rel_path_of self path)
                               (map f (filter keep results))
                  = is_lone_file (rel_path_of self path)
                                 (map f (filter keep results'))).
  { destruct (map f (filter keep results)) as [|e [|e' l]] eqn:E.
    - apply Permutation_nil in Hp. now rewrite Hp.
    - apply Permutation_length_1_inv in Hp. now rewrite Hp.
    - apply Permutation_length in Hp.
      destruct (map f (filter keep results')) as [|x [|x' l']];
        try discriminate. reflexivity. }
  rewrite <- Hlone.
  destruct (is_lone_file (rel_path_of self path)
                         (map f (filter keep results))); [reflexivity|].
  now apply sorted_keys_perm.
Qed.

Lemma Forall2_origin (A B : Type) (R : A -> B -> Prop)
      (l : list A) (l' : list B) :
  Forall2 R l l' -> Forall (fun b => exists a, In a l /\ R a b) l'.
Proof.
  induction 1 as [|a b l l' Hab _ IH]; constructor.
  - exists a. split; [now left | assumption].
  - eapply Forall_impl; [|exact IH].
    intros b' (a' & Hin & Hr). exists a'. split; [now right | assumption].
Qed.

(** Every entry returned stands for a kept result. *)
Lemma list_artifacts_origin (self : Repository) (path : option str)
      (results : list PathProperties) (out : list FileInfo.t) :
  get_paths (fs_client self) (list_target self path) false = Ok results ->
  list_artifacts cwd self path = Ok out ->
  Forall (fun e =>
            exists r, In r results
                      /\ name r <> list_target self path
                      /\ entry_of cwd (base_data_lake_directory self) r
                         = Ok e) out.
Proof.
  intros Hg H.
  destruct (list_artifacts_result _ _ _ H)
    as (results' & infos & Hg' & Hn & Hout).
  rewrite Hg in Hg'. injection Hg' as <-.
  apply Forall2_origin in Hn.
  apply Forall_forall. intros e He.
  assert (Hin : In e infos).
  { destruct Hout as [->| ->]; [contradiction|].
    eapply Permutation_in; [|exact He].
    apply Permutation_sym, sorted_perm. }
  rewrite Forall_forall in Hn.
  destruct (Hn e Hin) as (r & Hr & Hre).
  apply filter_In in Hr as [Hr Hc].
  exists r. repeat split; try assumption.
  unfold is_child in Hc. apply negb_true_iff, eqb_neq in Hc. congruence.
Qed.

(** The upload loop sends one request per file and ends normally when
    every directory walked has a name. *)
Section Upload.
Variable getsize : str -> Z.
Variable read_bytes : str -> list Byte.byte.

Lemma upload_walk_requests (dest top : str)
      (entries : list (str * list str * list str)) :
  Forall (fun e => fst (fst e) <> []) entries ->
  forall sent, exists reqs,
    upload_walk cwd getsize read_bytes dest top entries sent
    = (sent ++ reqs, Ok tt)
    /\ forall q,
        In q reqs <->
        exists root dirs files f rel,
          In (root, dirs, files) entries /\ In f files
          /\ PosixPath.relpath cwd root top = Ok rel
          /\ q = upload_file getsize read_bytes dest rel root f.
Proof.
  induction entries as [|[[root dirs] files] rest IH];
    intros Hall sent; cbn [upload_walk].
  - exists []. rewrite app_nil_r. split; [reflexivity|].
    intros q. split; [contradiction|].
    intros (? & ? & ? & ? & ? & [] & _).
  - inversion Hall as [|? ? Hroot Hrest]; subst. cbn [fst] in Hroot.
    destruct (relpath_total cwd root top Hroot) as [rel Hrel].
    rewrite Hrel.
    destruct (IH Hrest
                 (sent ++ map (upload_file getsize read_bytes dest rel
                                           root) files))
      as (reqs & E & Hreqs).
    exists (map (upload_file getsize read_bytes dest rel root) files
            ++ reqs).
    rewrite E, <- app_assoc. split; [reflexivity|].
    intros q. rewrite in_app_iff, in_map_iff, Hreqs. split.
    + intros [(f & <- & Hf) | (root' & dirs' & files' & f & rel'
                               & Hin & Hf & Hr & ->)].
      * exists root, dirs, files, f, rel.
        repeat split; try assumption. now left.
      * exists root', dirs', files', f, rel'.
        repeat split; try assumption. now right.
    + intros (root' & dirs' & files' & f & rel'
              & [Hin|Hin] & Hf & Hr & ->).
      * injection Hin as <- <- <-. left. exists f.
        rewrite Hrel in Hr. injection Hr as <-. now split.
      * right. exists root', dirs', files', f, rel'.
        repeat split; assumption.
Qed.
End Upload.

End WithCwd.

End RepositoryFacts.

(** * The URI resolver *)

(** C3. A URI of the valid form
    [abfss://<filesystem>@<account>.dfs.core.windows.net<path>], possibly
    followed by a query or a fragment, is accepted.  URL parsing gives the
    authority and the path component as they stand in the input; the
    filesystem and the account returned are the two names of the authority,
    unchanged, and the path returned is the path component without its one
    leading slash and otherwise as written, [..] included. *)
Theorem parse_abfss_valid_uri (ok : str -> bool) (ns acct p t : str) :
  is_filesystem_name ns = true ->
  is_account_name acct = true ->
  is_path_component p = true ->
  is_uri_tail t = true ->
  let uri := lit "abfss://" ++ ns ++ lit "@" ++ acct ++ dfs_suffix ++ p ++ t in
  (exists parsed,
      UrlParse.urlparse ok uri = Ok parsed
      /\ UrlParse.netloc parsed = ns ++ lit "@" ++ acct ++ dfs_suffix
      /\ UrlParse.path parsed = p)
  /\ _parse_abfss_uri ok uri = Ok (ns, acct, strip_leading_slash p)
  /\ (forall p', p = lit "/" ++ p' ->
                 _parse_abfss_uri ok uri = Ok (ns, acct, p')).
Proof.
  intros Hns Hacct Hp Ht uri.
  pose proof (ResolverFacts.parse_valid_form ok ns acct p t Hns Hacct Hp Ht)
    as Hparse.
  split; [|split].
  - unfold is_filesystem_name in Hns. apply andb_true_iff in Hns as [_ Hns].
    unfold is_account_name in Hacct.
    apply andb_true_iff in Hacct as [_ Hacct].
    assert (Hauth : none_of (lit "/?#[]" ++ UrlParse.unsafe_url_bytes)
                            (ns ++ lit "@" ++ acct ++ dfs_suffix) = true).
    { assert (H1 : none_of (lit "/?#[]" ++ UrlParse.unsafe_url_bytes) ns
                   = true).
      { apply (UrlFacts.none_of_weaken
                 (lit "@/?#[]" ++ UrlParse.unsafe_url_bytes));
          [|assumption]. intros c Hc. simpl in *. tauto. }
      assert (H2 : none_of (lit "/?#[]" ++ UrlParse.unsafe_url_bytes) acct
                   = true).
      { apply (UrlFacts.none_of_weaken
                 (lit "./?#[]" ++ UrlParse.unsafe_url_bytes));
          [|assumption]. intros c Hc. simpl in *. tauto. }
      unfold none_of in *. rewrite !forallb_app, H1, H2. reflexivity. }
    destruct (ResolverFacts.urlparse_abfss ok _ p t Hauth Hp Ht)
      as (q & f & E).
    exists (UrlParse.mkParseResult (lit "abfss")
              (ns ++ lit "@" ++ acct ++ dfs_suffix) p [] q f).
    split; [|split; reflexivity].
    unfold uri. rewrite <- E. f_equal. now rewrite <- !app_assoc.
  - exact Hparse.
  - intros p' ->. exact Hparse.
Qed.

Lemma parse_abfss_valid_uri_witness :
  is_filesystem_name (lit "fsA") = true
  /\ is_account_name (lit "acct1") = true
  /\ is_path_component (lit "/root/../sub") = true
  /\ is_uri_tail (lit "?x=1") = true
  /\ _parse_abfss_uri Sample.host_ok
       (lit "abfss://fsA@acct1.dfs.core.windows.net/root/../sub?x=1")
     = Ok (lit "fsA", lit "acct1", lit "root/../sub").
Proof.
  refine (conj eq_refl (conj eq_refl (conj eq_refl (conj eq_refl _)))).
  exact (proj1 (proj2
    (parse_abfss_valid_uri Sample.host_ok (lit "fsA") (lit "acct1")
       (lit "/root/../sub") (lit "?x=1")
       eq_refl eq_refl eq_refl eq_refl))).
Defined.

(** C4, as amended.  When URL parsing accepts the input, the resolver
    fails with the scheme error exactly when the parsed scheme is not
    [abfss]; with that scheme it fails with the authority error when the
    authority does not begin with
    [<filesystem>@<account>.dfs.core.windows.net], and succeeds when the
    authority is exactly of that shape; every success has the scheme
    [abfss] and an authority that begins with the shape, and returns its
    two names and the path without its leading slash.  A failure returns
    no location.  When URL parsing itself raises, that error is the
    outcome. *)
Theorem parse_abfss_outcomes (ok : str -> bool) (uri : str) :
  (forall e, UrlParse.urlparse ok uri = Raise e ->
             _parse_abfss_uri ok uri = Raise e)
  /\ (forall parsed,
         UrlParse.urlparse ok uri = Ok parsed ->
         (UrlParse.scheme parsed <> lit "abfss" <->
          _parse_abfss_uri ok uri = Raise (not_an_abfss_uri uri))
         /\ (UrlParse.scheme parsed = lit "abfss" ->
             (~ exists ns acct extra,
                   authority_shape (UrlParse.netloc parsed) ns acct extra) ->
             _parse_abfss_uri ok uri = Raise bad_abfss_authority)
         /\ (forall ns acct,
                UrlParse.scheme parsed = lit "abfss" ->
                authority_shape (UrlParse.netloc parsed) ns acct [] ->
                _parse_abfss_uri ok uri
                = Ok (ns, acct, strip_leading_slash (UrlParse.path parsed)))
         /\ (forall loc,
                _parse_abfss_uri ok uri = Ok loc ->
                UrlParse.scheme parsed = lit "abfss"
                /\ exists ns acct extra,
                    authority_shape (UrlParse.netloc parsed) ns acct extra
                    /\ loc = (ns, acct,
                              strip_leading_slash (UrlParse.path parsed))))
  /\ (forall e loc, _parse_abfss_uri ok uri = Raise e ->
                    _parse_abfss_uri ok uri <> Ok loc).
Proof.
  split; [|split].
  - intros e H. unfold _parse_abfss_uri. now rewrite H.
  - intros parsed H.
    rewrite (ResolverFacts.parse_of_parsed ok uri parsed H).
    destruct (PyStr.eqb (UrlParse.scheme parsed) (lit "abfss")) eqn:Hs.
    + apply PyStrFacts.eqb_eq in Hs.
      split; [|split; [|split]].
      * split; [congruence|].
        destruct (Re.match_ abfss_netloc_re (UrlParse.netloc parsed));
          unfold bad_abfss_authority, not_an_abfss_uri; intros E;
          [discriminate|].
        simpl in E. discriminate E.
      * intros _ Hno. apply ResolverFacts.match_none in Hno.
        now rewrite Hno.
      * intros ns acct _ Hshape.
        now rewrite (ResolverFacts.match_complete _ _ _ _ Hshape).
      * intros loc Hloc. split; [assumption|].
        destruct (Re.match_ abfss_netloc_re (UrlParse.netloc parsed))
          as [m|] eqn:Hm; [|discriminate].
        destruct (ResolverFacts.match_sound _ _ Hm)
          as (ns & acct & extra & -> & Hshape).
        injection Hloc as <-. now exists ns, acct, extra.
    + apply PyStrFacts.eqb_neq in Hs.
      split; [|split; [|split]].
      * split; [reflexivity | intros _; assumption].
      * congruence.
      * congruence.
      * discriminate.
  - intros e loc H. rewrite H. discriminate.
Qed.

Lemma parse_abfss_outcomes_witness :
  let uri := lit "abfss://fsA@acct1.dfs.core.windows.net/root/sub" in
  let parsed :=
    UrlParse.mkParseResult (lit "abfss")
      (lit "fsA@acct1.dfs.core.windows.net") (lit "/root/sub") [] [] [] in
  UrlParse.urlparse Sample.host_ok uri = Ok parsed
  /\ UrlParse.scheme parsed = lit "abfss"
  /\ authority_shape (UrlParse.netloc parsed) (lit "fsA") (lit "acct1") []
  /\ _parse_abfss_uri Sample.host_ok uri
     = Ok (lit "fsA", lit "acct1", lit "root/sub").
Proof.
  intros uri parsed.
  assert (Hshape : authority_shape (UrlParse.netloc parsed)
                                   (lit "fsA") (lit "acct1") []).
  { unfold authority_shape. repeat split; try discriminate.
    - simpl. intuition discriminate.
    - simpl. intuition discriminate. }
  refine (conj eq_refl (conj eq_refl (conj Hshape _))).
  exact (proj1 (proj2 (proj2
    (proj1 (proj2 (parse_abfss_outcomes Sample.host_ok uri))
       parsed eq_refl)))
    (lit "fsA") (lit "acct1") eq_refl Hshape).
Defined.

(** C4, as stated, fails twice.  An authority that goes on after the
    fixed suffix is accepted although it is not exactly of the shape; and
    a string whose scheme is wrong but whose bracketed host is unbalanced
    ends in the parser's [ValueError], not in the scheme error. *)
Lemma parse_abfss_not_exact :
  let uri := lit "abfss://fs@acct.dfs.core.windows.net.example.org/p" in
  (exists parsed,
      UrlParse.urlparse Sample.host_ok uri = Ok parsed
      /\ UrlParse.scheme parsed = lit "abfss"
      /\ ~ (exists ns acct,
               authority_shape (UrlParse.netloc parsed) ns acct [])
      /\ _parse_abfss_uri Sample.host_ok uri
         = Ok (lit "fs", lit "acct", lit "p"))
  /\ _parse_abfss_uri Sample.host_ok (lit "http://[")
     = Raise (ValueError (lit "Invalid IPv6 URL"))
  /\ _parse_abfss_uri Sample.host_ok (lit "http://[")
     <> Raise (not_an_abfss_uri (lit "http://[")).
Proof.
  intros uri. split; [|split; [reflexivity | discriminate]].
  exists (UrlParse.mkParseResult (lit "abfss")
            (lit "fs@acct.dfs.core.windows.net.example.org")
            (lit "/p") [] [] []).
  refine (conj eq_refl (conj eq_refl (conj _ eq_refl))).
  intros (ns & acct & Hexact).
  assert (Hlong : authority_shape
                    (lit "fs@acct.dfs.core.windows.net.example.org")
                    (lit "fs") (lit "acct") (lit ".example.org")).
  { unfold authority_shape. repeat split; try discriminate.
    - simpl. intuition discriminate.
    - simpl. intuition discriminate. }
  destruct (ResolverFacts.shape_unique _ _ _ _ _ _ _ Hexact Hlong)
    as (_ & _ & E).
  discriminate.
Qed.

(** C10. A URI that URL parsing splits into the scheme [abfss], an
    authority of the shape and a path component that is empty or the single
    slash is accepted, with the empty string as base path; and the
    repository is then constructed, rooted at the empty path. *)
Theorem parse_abfss_empty_path
        (ok : str -> bool) (Credential : Type)
        (service : str -> Credential -> str -> FileSystemClient)
        (uri : str) (parsed : UrlParse.ParseResult) (ns acct : str) :
  UrlParse.urlparse ok uri = Ok parsed ->
  UrlParse.scheme parsed = lit "abfss" ->
  authority_shape (UrlParse.netloc parsed) ns acct [] ->
  UrlParse.path parsed = [] \/ UrlParse.path parsed = lit "/" ->
  _parse_abfss_uri ok uri = Ok (ns, acct, [])
  /\ forall credential configured_timeout,
      exists repo,
        __init__ ok service uri credential configured_timeout = Ok repo
        /\ base_data_lake_directory repo = [].
Proof.
  intros Hparse Hscheme Hshape Hpath.
  assert (E : _parse_abfss_uri ok uri = Ok (ns, acct, [])).
  { rewrite (ResolverFacts.parse_of_parsed ok uri parsed Hparse).
    rewrite Hscheme, PyStrFacts.eqb_refl.
    rewrite (ResolverFacts.match_complete _ _ _ _ Hshape).
    destruct Hpath as [-> | ->]; reflexivity. }
  split; [exact E|].
  intros credential configured_timeout.
  unfold __init__. rewrite E. cbn [bind].
  eexists. split; reflexivity.
Qed.

Lemma parse_abfss_empty_path_witness :
  let uri := lit "abfss://fs@acct.dfs.core.windows.net/" in
  let parsed :=
    UrlParse.mkParseResult (lit "abfss")
      (lit "fs@acct.dfs.core.windows.net") (lit "/") [] [] [] in
  UrlParse.urlparse Sample.host_ok uri = Ok parsed
  /\ authority_shape (UrlParse.netloc parsed) (lit "fs") (lit "acct") []
  /\ _parse_abfss_uri Sample.host_ok uri = Ok (lit "fs", lit "acct", [])
  /\ exists repo,
      __init__ Sample.host_ok Sample.service uri tt None = Ok repo
      /\ base_data_lake_directory repo = [].
Proof.
  intros uri parsed.
  assert (Hshape : authority_shape (UrlParse.netloc parsed)
                                   (lit "fs") (lit "acct") []).
  { unfold authority_shape. repeat split; try discriminate.
    - simpl. intuition discriminate.
    - simpl. intuition discriminate. }
  pose (H := parse_abfss_empty_path Sample.host_ok unit Sample.service uri
               parsed
               (lit "fs") (lit "acct") eq_refl eq_refl Hshape
               (or_intror eq_refl)).
  exact (conj eq_refl (conj Hshape (conj (proj1 H) (proj2 H tt None)))).
Defined.

(** * Construction and the unsupported operations *)

(** C7, as amended.  The write timeout of a constructed repository is the
    configured value when one is set and is not zero, and the default of
    600 seconds when none is set or the value is zero. *)
Theorem write_timeout_resolution
        (ok : str -> bool) (Credential : Type)
        (service : str -> Credential -> str -> FileSystemClient)
        (uri : str) (credential : Credential)
        (configured : option Z) (repo : Repository) :
  __init__ ok service uri credential configured = Ok repo ->
  (forall v, configured = Some v -> v <> 0%Z -> write_timeout repo = v)
  /\ (configured = None \/ configured = Some 0%Z ->
      write_timeout repo = 600%Z).
Proof.
  unfold __init__. intros H.
  destruct (_parse_abfss_uri ok uri) as [[[fs acct] p]|e];
    cbn [bind] in H; [|discriminate].
  injection H as <-. cbn [write_timeout]. split.
  - intros v -> Hv. cbn [resolve_timeout].
    destruct (Z.eqb_spec v 0); [contradiction | reflexivity].
  - intros [-> | ->]; reflexivity.
Qed.

Lemma write_timeout_resolution_witness :
  exists repo,
    __init__ Sample.host_ok Sample.service Sample.uri tt (Some 30%Z) = Ok repo
    /\ write_timeout repo = 30%Z.
Proof.
  eexists. split; [reflexivity|].
  refine (proj1 (write_timeout_resolution Sample.host_ok unit Sample.service
                   Sample.uri tt (Some 30%Z) _ eq_refl) 30%Z eq_refl _).
  discriminate.
Defined.

(** C7, as stated, fails on a negative setting: it is kept, not replaced
    by the default. *)
Lemma write_timeout_negative_kept :
  exists repo,
    __init__ Sample.host_ok Sample.service Sample.uri tt (Some (-1)%Z)
    = Ok repo
    /\ write_timeout repo = (-1)%Z
    /\ write_timeout repo <> 600%Z.
Proof.
  eexists. split; [reflexivity|]. split; [reflexivity | discriminate].
Qed.

(** C9. Logging a single artifact and deleting artifacts raise
    [NotImplementedError] whatever the repository and the arguments. *)
Theorem single_log_and_delete_unsupported
        (self : Repository) (local_file : str) (artifact_path : option str) :
  (exists message,
      log_artifact self local_file artifact_path
      = Raise (NotImplementedError message))
  /\ (exists message,
         delete_artifacts self artifact_path
         = Raise (NotImplementedError message)).
Proof.
  split; eexists; reflexivity.
Qed.

(** * Upload of a directory *)

(** C2. For every file of every directory that the walk of the source
    directory visits, [log_artifacts] sends one request through the
    directory client of the destination root (the base path, joined with
    the artifact path when one is given) and the file client of the path
    of the file's directory relative to the source directory, joined with
    the file's name: the creation of an empty file when the local file has
    length zero, and otherwise an upload of its bytes with overwriting
    enabled.  The upload ends normally and nothing else is sent. *)
Theorem log_artifacts_requests
        (cwd : str) (visited : str -> list (list str * list str * list str))
        (getsize : str -> Z) (read_bytes : str -> list Byte.byte)
        (self : Repository) (local_dir : str) (artifact_path : option str) :
  let top := PosixPath.abspath cwd local_dir in
  let dest :=
    match artifact_path with
    | Some (c :: s) => PosixPath.join (base_data_lake_directory self) (c :: s)
    | _ => base_data_lake_directory self
    end in
  let request_for (root rel f : str) :=
    if (getsize (PosixPath.join root f) =? 0)%Z
    then CreateFile dest (PosixPath.join rel f)
    else UploadData dest (PosixPath.join rel f)
                    (read_bytes (PosixPath.join root f)) true in
  exists sent,
    log_artifacts cwd visited getsize read_bytes self local_dir artifact_path
    = (sent, Ok tt)
    /\ (forall names dirs files f,
           In (names, dirs, files) (visited top) -> In f files ->
           let root := fold_left PosixPath.join names top in
           exists rel,
             PosixPath.relpath cwd root top = Ok rel
             /\ In (request_for root rel f) sent)
    /\ (forall q,
           In q sent ->
           exists names dirs files f rel,
             let root := fold_left PosixPath.join names top in
             In (names, dirs, files) (visited top) /\ In f files
             /\ PosixPath.relpath cwd root top = Ok rel
             /\ q = request_for root rel f).
Proof.
  intros top dest request_for.
  assert (Hdest : upload_dest self artifact_path = dest).
  { unfold upload_dest, dest. destruct artifact_path as [[|c s]|];
      reflexivity. }
  assert (Hroots : Forall (fun e => fst (fst e) <> []) (walk visited top)).
  { unfold walk. apply Forall_forall. intros e He.
    apply in_map_iff in He.
    destruct He as (x & Hx & _). destruct x as [[names dirs] files].
    subst e. cbn [fst].
    apply PathFacts.join_names_nonempty, PathFacts.abspath_nonempty. }
  unfold log_artifacts. rewrite Hdest. fold top.
  destruct (RepositoryFacts.upload_walk_requests cwd getsize read_bytes
              dest top (walk visited top) Hroots [])
    as (reqs & E & Hreqs).
  cbn [app] in E. exists reqs. split; [exact E|]. split.
  - intros names dirs files f Hin Hf. cbv zeta.
    set (root := fold_left PosixPath.join names top).
    destruct (PathFacts.relpath_total cwd root top) as [rel Hrel].
    { apply PathFacts.join_names_nonempty, PathFacts.abspath_nonempty. }
    exists rel. split; [assumption|].
    apply Hreqs. exists root, dirs, files, f, rel.
    repeat split; try assumption.
    unfold walk. apply in_map_iff.
    now exists (names, dirs, files).
  - intros q Hq. apply Hreqs in Hq.
    destruct Hq as (root & dirs & files & f & rel & Hin & Hf & Hrel & ->).
    unfold walk in Hin. apply in_map_iff in Hin.
    destruct Hin as ([[names dirs'] files'] & Heq & Hin).
    injection Heq as <- <- <-.
    exists names, dirs', files', f, rel. cbv zeta.
    repeat split; assumption.
Qed.

(** The upload of the sample tree to [model]: the empty file is created,
    the file of the subdirectory is uploaded. *)
Lemma log_artifacts_requests_witness :
  exists sent,
    log_artifacts Sample.cwd Sample.visited Sample.getsize Sample.read_bytes
                  (Sample.repo []) (lit "/data/run/") (Some (lit "model"))
    = (sent, Ok tt)
    /\ In (CreateFile (lit "root/model") (lit "./empty")) sent
    /\ In (UploadData (lit "root/model") (lit "sub/b.bin")
                      (Sample.read_bytes (lit "/data/run/sub/b.bin")) true)
          sent.
Proof.
  destruct (log_artifacts_requests Sample.cwd Sample.visited Sample.getsize
              Sample.read_bytes (Sample.repo []) (lit "/data/run/")
              (Some (lit "model")))
    as (sent & E & Hall & _).
  exists sent. split; [exact E|]. split.
  - destruct (Hall [] [lit "sub"] [lit "a.txt"; lit "empty"]
                   (lit "empty") (or_introl eq_refl)
                   (or_intror (or_introl eq_refl)))
      as (rel & Hrel & Hin).
    injection Hrel as <-. exact Hin.
  - destruct (Hall [lit "sub"] [] [lit "b.bin"]
                   (lit "b.bin") (or_intror (or_introl eq_refl))
                   (or_introl eq_refl))
      as (rel & Hrel & Hin).
    injection Hrel as <-. exact Hin.
Defined.

(** * Listing *)

(** The text that [list_artifacts] compares with the path of a lone file
    entry is the relative path asked for, when the base path is not empty
    and has no trailing slash and the relative path is not rooted. *)
Lemma rel_path_of_relative (self : Repository) (p : str) :
  base_data_lake_directory self <> [] ->
  PyStr.endswith PosixPath.sep (base_data_lake_directory self) = false ->
  p <> [] -> PyStr.startswith PosixPath.sep p = false ->
  rel_path_of self (Some p) = p.
Proof.
  intros Hb He Hp Hs. unfold rel_path_of, list_target.
  destruct p as [|c p]; [contradiction|]. cbn [truthy arg].
  unfold PosixPath.join. rewrite Hs, He.
  destruct (base_data_lake_directory self) as [|b base] eqn:E;
    [contradiction|].
  cbn [PosixPath.is_empty orb].
  change PosixPath.sep with ["/"%char].
  rewrite app_assoc, Nat.add_comm.
  replace (1 + length (b :: base)) with (length ((b :: base) ++ ["/"%char]))
    by (rewrite length_app; cbn; lia).
  rewrite skipn_app, skipn_all, Nat.sub_diag. reflexivity.
Qed.

(** The single-file test as the code makes it: when the listing has
    produced exactly one entry, that entry is not a directory, and its
    path is the listed directory without its first [len(base) + 1]
    characters, then [list_artifacts] returns the empty list.  This holds
    for the one entry that the loop has kept, and also when the backend
    has returned one result in all. *)
Lemma list_artifacts_single_file
        (cwd : str) (self : Repository) (path : option str) :
  (forall info,
      list_infos cwd self path = Ok [info] ->
      FileInfo.is_dir info = false ->
      FileInfo.path info
      = skipn (length (base_data_lake_directory self) + 1)
              (list_target self path) ->
      list_artifacts cwd self path = Ok [])
  /\ (forall r,
         get_paths (fs_client self) (list_target self path) false = Ok [r] ->
         is_directory r = false ->
         PosixPath.relpath cwd (name r) (base_data_lake_directory self)
         = Ok (skipn (length (base_data_lake_directory self) + 1)
                     (list_target self path)) ->
         list_artifacts cwd self path = Ok []).
Proof.
  assert (Hkept : forall info,
             list_infos cwd self path = Ok [info] ->
             FileInfo.is_dir info = false ->
             FileInfo.path info
             = skipn (length (base_data_lake_directory self) + 1)
                     (list_target self path) ->
             list_artifacts cwd self path = Ok []).
  { intros info Hinfos Hfile Hpath. unfold list_artifacts.
    rewrite Hinfos. cbn [bind].
    rewrite Hfile. unfold rel_path_of. rewrite Hpath, PyStrFacts.eqb_refl.
    reflexivity. }
  split; [exact Hkept|].
  intros r Hg Hfile Hrel.
  destruct (PyStr.eqb (list_target self path) (name r)) eqn:E.
  - unfold list_artifacts, list_infos. rewrite Hg. cbn [bind list_loop].
    rewrite E. reflexivity.
  - apply (Hkept (FileInfo.mk
                    (skipn (length (base_data_lake_directory self) + 1)
                           (list_target self path))
                    false (content_length r))); try reflexivity.
    unfold list_infos. rewrite Hg. cbn [bind list_loop].
    rewrite E, Hfile, Hrel. reflexivity.
Qed.

(** C1.  The code misses the claim when the base path is empty.  A
    repository without base path lists [f.txt], and the backend returns
    that file alone under the name [./f.txt].  The listing produces exactly
    one entry, it is not a directory, and its path relative to the base
    path is [f.txt], the path asked for, which has no base path to be
    stripped of.  The code takes [len(base) + 1] characters off the listed
    directory, one more than the empty base path has, compares the
    entry's path with [.txt], and returns the entry, not the empty
    list. *)
Theorem single_file_test_misses_empty_base :
  let self := Sample.rootless Sample.lone_file_rootless in
  let info := FileInfo.mk (lit "f.txt") false (Some 3%Z) in
  base_data_lake_directory self = []
  /\ list_target self (Some (lit "f.txt")) = lit "f.txt"
  /\ list_infos Sample.cwd self (Some (lit "f.txt")) = Ok [info]
  /\ FileInfo.is_dir info = false
  /\ FileInfo.path info = lit "f.txt"
  /\ rel_path_of self (Some (lit "f.txt")) = lit ".txt"
  /\ list_artifacts Sample.cwd self (Some (lit "f.txt")) = Ok [info]
  /\ list_artifacts Sample.cwd self (Some (lit "f.txt")) <> Ok [].
Proof.
  intros self info.
  assert (E : list_artifacts Sample.cwd self (Some (lit "f.txt"))
              = Ok [info]) by reflexivity.
  repeat split; try reflexivity.
  rewrite E. discriminate.
Qed.

(** C5. Every entry that [list_artifacts] returns stands for a backend
    result whose name is not the listed directory.  The results that name
    the listed directory itself are dropped: the list returned is empty or
    a rearrangement of the entries of the other results, one for each. *)
Theorem list_artifacts_skips_target
        (cwd : str) (self : Repository) (path : option str)
        (results : list PathProperties) (out : list FileInfo.t) :
  get_paths (fs_client self) (list_target self path) false = Ok results ->
  list_artifacts cwd self path = Ok out ->
  Forall (fun e =>
            exists r, In r results
                      /\ name r <> list_target self path
                      /\ entry_of cwd (base_data_lake_directory self) r
                         = Ok e) out
  /\ exists infos,
      Forall2 (fun r e =>
                 entry_of cwd (base_data_lake_directory self) r = Ok e)
              (filter (fun r => negb (PyStr.eqb (list_target self path)
                                                (name r))) results)
              infos
      /\ (out = [] \/ Permutation infos out).
Proof.
  intros Hg H. split.
  - exact (RepositoryFacts.list_artifacts_origin cwd self path results out
             Hg H).
  - destruct (RepositoryFacts.list_artifacts_result cwd self path out H)
      as (results' & infos & Hg' & Hn & Hout).
    rewrite Hg in Hg'. injection Hg' as <-.
    exists infos. split; [exact Hn|].
    destruct Hout as [-> | ->]; [now left | right].
    apply SortedFacts.sorted_perm.
Qed.

Lemma list_artifacts_skips_target_witness :
  let self := Sample.repo Sample.listing in
  let out := [ FileInfo.mk (lit "sub/a.txt") false (Some 0%Z);
               FileInfo.mk (lit "sub/b.txt") false (Some 12%Z);
               FileInfo.mk (lit "sub/inner") true None ] in
  list_artifacts Sample.cwd self (Some (lit "sub")) = Ok out
  /\ Forall (fun e =>
               exists r, In r Sample.listing
                         /\ name r <> lit "root/sub"
                         /\ entry_of Sample.cwd (lit "root") r = Ok e) out.
Proof.
  intros self out. split; [reflexivity|].
  exact (proj1 (list_artifacts_skips_target Sample.cwd self
                  (Some (lit "sub")) Sample.listing out eq_refl eq_refl)).
Defined.

(** C6, as amended.  Every entry returned stands for a backend result:
    its path is the name of that result relative to the base path, not to
    the listed directory, and does not end with a slash; it is a directory
    exactly when the result is one; a directory entry has no size and a
    file entry has the content length of the result, as reported.  So the
    size is present exactly for the files when the backend reports a
    length for every file. *)
Theorem list_artifacts_entries
        (cwd : str) (self : Repository) (path : option str)
        (results : list PathProperties) (out : list FileInfo.t) :
  get_paths (fs_client self) (list_target self path) false = Ok results ->
  list_artifacts cwd self path = Ok out ->
  Forall (fun e =>
            exists r,
              In r results
              /\ PosixPath.relpath cwd (name r)
                                   (base_data_lake_directory self)
                 = Ok (FileInfo.path e)
              /\ PyStr.endswith (lit "/") (FileInfo.path e) = false
              /\ FileInfo.is_dir e = is_directory r
              /\ (FileInfo.is_dir e = true -> FileInfo.file_size e = None)
              /\ (FileInfo.is_dir e = false ->
                  FileInfo.file_size e = content_length r)) out
  /\ ((forall r, In r results -> is_directory r = false ->
                 content_length r <> None) ->
      Forall (fun e => FileInfo.file_size e <> None
                       <-> FileInfo.is_dir e = false) out).
Proof.
  intros Hg H.
  pose proof (RepositoryFacts.list_artifacts_origin cwd self path results
                out Hg H) as Horigin.
  assert (Hentry : forall e r,
             entry_of cwd (base_data_lake_directory self) r = Ok e ->
             PosixPath.relpath cwd (name r) (base_data_lake_directory self)
             = Ok (FileInfo.path e)
             /\ FileInfo.is_dir e = is_directory r
             /\ FileInfo.file_size e
                = if is_directory r then None else content_length r).
  { intros e r He. unfold entry_of in He.
    destruct (PosixPath.relpath cwd (name r) (base_data_lake_directory self))
      as [p|x]; cbn [bind] in He; [|discriminate].
    injection He as <-. cbn. auto. }
  split.
  - eapply Forall_impl; [|exact Horigin].
    intros e (r & Hin & _ & He).
    destruct (Hentry e r He) as (Hp & Hd & Hs).
    exists r. repeat split; try assumption.
    + exact (PathFacts.relpath_end _ _ _ _ Hp).
    + intros Hdir. rewrite Hs, <- Hd, Hdir. reflexivity.
    + intros Hdir. rewrite Hs, <- Hd, Hdir. reflexivity.
  - intros Hlen. eapply Forall_impl; [|exact Horigin].
    intros e (r & Hin & _ & He).
    destruct (Hentry e r He) as (_ & Hd & Hs).
    rewrite Hs, Hd. destruct (is_directory r) eqn:E.
    + split; [congruence | discriminate].
    + split; [reflexivity | intros _; now apply Hlen].
Qed.

Lemma list_artifacts_entries_witness :
  let self := Sample.repo Sample.listing in
  let out := [ FileInfo.mk (lit "sub/a.txt") false (Some 0%Z);
               FileInfo.mk (lit "sub/b.txt") false (Some 12%Z);
               FileInfo.mk (lit "sub/inner") true None ] in
  list_artifacts Sample.cwd self (Some (lit "sub")) = Ok out
  /\ Forall (fun e => FileInfo.file_size e <> None
                      <-> FileInfo.is_dir e = false) out.
Proof.
  intros self out. split; [reflexivity|].
  apply (proj2 (list_artifacts_entries Sample.cwd self (Some (lit "sub"))
                  Sample.listing out eq_refl eq_refl)).
  intros r Hin Hfile.
  destruct Hin as [<-|[<-|[<-|[<-|[]]]]]; discriminate.
Defined.

(** C6, as stated, fails on a file for which the backend reports no
    length: its entry is a file without a size. *)
Lemma list_artifacts_file_without_size :
  exists e,
    list_artifacts Sample.cwd (Sample.repo Sample.file_without_length) None
    = Ok [e]
    /\ FileInfo.is_dir e = false
    /\ FileInfo.file_size e = None
    /\ ~ (FileInfo.file_size e <> None <-> FileInfo.is_dir e = false).
Proof.
  exists (FileInfo.mk (lit "f") false None).
  repeat split; try reflexivity.
  intros [_ H]. now apply H.
Qed.

(** C8. The list that [list_artifacts] returns is in ascending order of
    the paths, compared as strings character by character, whatever the
    order of the backend results: a backend that returns the same results
    in another order leads to the same sequence of paths. *)
Theorem list_artifacts_sorted
        (cwd : str) (self : Repository) (path : option str)
        (out : list FileInfo.t) :
  list_artifacts cwd self path = Ok out ->
  StronglySorted path_le out
  /\ forall self' results results' out',
      base_data_lake_directory self = base_data_lake_directory self' ->
      get_paths (fs_client self) (list_target self path) false
      = Ok results ->
      get_paths (fs_client self') (list_target self' path) false
      = Ok results' ->
      Permutation results results' ->
      list_artifacts cwd self' path = Ok out' ->
      map FileInfo.path out = map FileInfo.path out'.
Proof.
  intros H. split.
  - destruct (RepositoryFacts.list_artifacts_result cwd self path out H)
      as (results & infos & _ & _ & [-> | ->]).
    + constructor.
    + apply SortedFacts.sorted_sorted.
  - intros self' results results' out' Hbase Hg Hg' Hperm H'.
    exact (RepositoryFacts.list_artifacts_order_independent
             cwd self self' path results results' out out'
             Hbase Hg Hg' Hperm H H').
Qed.

Lemma list_artifacts_sorted_witness :
  let self := Sample.repo Sample.listing in
  let out := [ FileInfo.mk (lit "sub/a.txt") false (Some 0%Z);
               FileInfo.mk (lit "sub/b.txt") false (Some 12%Z);
               FileInfo.mk (lit "sub/inner") true None ] in
  list_artifacts Sample.cwd self (Some (lit "sub")) = Ok out
  /\ StronglySorted path_le out.
Proof.
  intros self out. split; [reflexivity|].
  exact (proj1 (list_artifacts_sorted Sample.cwd self (Some (lit "sub")) out
                  eq_refl)).
Defined.

(** * Further properties *)

(** ** Paths that go down from a directory *)

Module DescentFacts.
Import PyStrFacts PathFacts.

Lemma split_nonempty (c : ascii) (s : str) : PyStr.split c s <> [].
Proof.
  induction s as [|x s IH]; cbn [PyStr.split]; [discriminate|].
  destruct (Ascii.eqb x c); [discriminate|].
  destruct (PyStr.split c s); discriminate.
Qed.

(** Splitting distributes over a separator. *)
Lemma split_app_sep (c : ascii) (a b : str) :
  PyStr.split c (a ++ c :: b) = PyStr.split c a ++ PyStr.split c b.
Proof.
  induction a as [|x a IH]; cbn [app PyStr.split].
  - now rewrite Ascii.eqb_refl.
  - destruct (Ascii.eqb x c); [now rewrite IH|].
    rewrite IH. pose proof (split_nonempty c a) as Hne.
    destruct (PyStr.split c a) as [|w ws]; [contradiction | reflexivity].
Qed.

Lemma split_plain (c : ascii) (w : str) :
  ~ In c w -> PyStr.split c w = [w].
Proof.
  induction w as [|x w IH]; intros H; cbn [PyStr.split]; [reflexivity|].
  destruct (Ascii.eqb_spec x c) as [->|Hx].
  - exfalso. apply H. now left.
  - rewrite IH; [reflexivity|]. intros Hin. apply H. now right.
Qed.

(** Splitting undoes joining. *)
Lemma split_join (comps : list str) :
  comps <> [] -> Forall (fun w => ~ In "/"%char w) comps ->
  PyStr.split "/" (PyStr.join PosixPath.sep comps) = comps.
Proof.
  induction comps as [|w comps IH]; intros Hne Hall; [contradiction|].
  inversion Hall as [|? ? Hw Hrest]; subst.
  destruct comps as [|w' comps].
  - cbn [PyStr.join]. now apply split_plain.
  - change (PyStr.join PosixPath.sep (w :: w' :: comps))
      with (w ++ "/"%char :: PyStr.join PosixPath.sep (w' :: comps)).
    rewrite split_app_sep, (split_plain _ _ Hw), IH;
      [reflexivity | discriminate | assumption].
Qed.

Lemma plain_name_spec (w : str) :
  plain_name w = true ->
  is_component w /\ w <> PosixPath.curdir /\ w <> PosixPath.pardir.
Proof.
  unfold plain_name. rewrite !andb_true_iff, !negb_true_iff.
  intros [[[He Hs] Hc] Hp]. repeat split.
  - destruct w; [discriminate | discriminate].
  - now apply contains_false.
  - now apply eqb_neq.
  - now apply eqb_neq.
Qed.

Lemma plain_names_components (names : list str) :
  forallb plain_name names = true -> Forall is_component names.
Proof.
  rewrite forallb_forall, Forall_forall. intros H w Hw.
  apply plain_name_spec. now apply H.
Qed.

(** A plain name is kept by the normalisation. *)
Lemma norm_step_plain (k : nat) (acc : list str) (w : str) :
  plain_name w = true -> PosixPath.norm_step k acc w = acc ++ [w].
Proof.
  intros H. destruct (plain_name_spec w H) as ([Hne _] & Hc & Hp).
  unfold PosixPath.norm_step.
  apply eqb_neq in Hc, Hp. assert (He : PyStr.eqb w [] = false)
    by now apply eqb_neq.
  now rewrite He, Hc, Hp.
Qed.

Lemma norm_fold_plain (k : nat) (names acc : list str) :
  forallb plain_name names = true ->
  fold_left (PosixPath.norm_step k) names acc = acc ++ names.
Proof.
  revert acc. induction names as [|w names IH]; intros acc H;
    cbn [fold_left].
  - now rewrite app_nil_r.
  - cbn [forallb] in H. apply andb_true_iff in H as [Hw H].
    rewrite (norm_step_plain k acc w Hw), IH by assumption.
    now rewrite <- app_assoc.
Qed.

(** The normalisation does not tell one leading slash from two. *)
Lemma norm_step_rooted (k : nat) (acc : list str) (w : str) :
  PosixPath.norm_step (S k) acc w = PosixPath.norm_step 1 acc w.
Proof. reflexivity. Qed.

Lemma norm_fold_rooted (k : nat) (l acc : list str) :
  fold_left (PosixPath.norm_step (S k)) l acc
  = fold_left (PosixPath.norm_step 1) l acc.
Proof.
  revert acc. induction l as [|w l IH]; intros acc; cbn [fold_left];
    [reflexivity|].
  now rewrite IH.
Qed.

Lemma removelast_Forall (A : Type) (P : A -> Prop) (l : list A) :
  Forall P l -> Forall P (removelast l).
Proof.
  induction 1 as [|x l Hx Hl IH]; cbn [removelast]; [constructor|].
  destruct l; [constructor | now constructor].
Qed.

(** What the normalisation keeps are components. *)
Lemma norm_step_components (k : nat) (acc : list str) (w : str) :
  Forall is_component acc -> ~ In "/"%char w ->
  Forall is_component (PosixPath.norm_step k acc w).
Proof.
  intros Hacc Hw. unfold PosixPath.norm_step.
  destruct (PyStr.eqb w []) eqn:He; cbn [orb]; [assumption|].
  destruct (PyStr.eqb w PosixPath.curdir); [assumption|].
  match goal with |- Forall _ (if ?b then _ else _) => destruct b end.
  - apply Forall_app. split; [assumption|].
    constructor; [|constructor]. split; [|assumption].
    now apply eqb_neq.
  - now apply removelast_Forall.
Qed.

Lemma norm_fold_components (k : nat) (l acc : list str) :
  Forall is_component acc -> Forall (fun w => ~ In "/"%char w) l ->
  Forall is_component (fold_left (PosixPath.norm_step k) l acc).
Proof.
  revert acc. induction l as [|w l IH]; intros acc Hacc Hl;
    cbn [fold_left]; [assumption|].
  inversion Hl; subst. apply IH; [|assumption].
  now apply norm_step_components.
Qed.

Lemma filter_components (l : list str) :
  Forall is_component l ->
  filter (fun x => negb (PosixPath.is_empty x)) l = l.
Proof.
  induction 1 as [|w l [Hne _] _ IH]; cbn [filter]; [reflexivity|].
  destruct w; [contradiction|]. cbn. now rewrite IH.
Qed.

(** The pieces of a joined list of components, behind leading slashes. *)
Lemma components_of_rooted (comps : list str) :
  Forall is_component comps ->
  filter (fun x => negb (PosixPath.is_empty x))
         (PyStr.split "/" (PyStr.join PosixPath.sep comps)) = comps.
Proof.
  intros H. destruct comps as [|w comps]; [reflexivity|].
  rewrite split_join; [now apply filter_components | discriminate |].
  eapply Forall_impl; [|exact H]. now intros ? [_ ?].
Qed.

(** The components of a normalised rooted path are what the loop of the
    normalisation keeps. *)
Lemma components_of_normpath (P : str) :
  PosixPath.isabs P = true ->
  filter (fun x => negb (PosixPath.is_empty x))
         (PyStr.split "/" (PosixPath.normpath P))
  = fold_left (PosixPath.norm_step 1) (PyStr.split "/" P) [].
Proof.
  intros Habs. unfold PosixPath.normpath.
  destruct P as [|c P]; [discriminate|]. cbn [PosixPath.is_empty].
  unfold PosixPath.isabs in Habs. rewrite Habs.
  set (k := if PyStr.startswith (PosixPath.sep ++ PosixPath.sep) (c :: P)
               && negb (PyStr.startswith
                          (PosixPath.sep ++ PosixPath.sep ++ PosixPath.sep)
                          (c :: P))
            then 2 else 1).
  assert (Hk : k = 1 \/ k = 2) by (unfold k; destruct (_ && _); auto).
  set (new := fold_left (PosixPath.norm_step k) (PyStr.split "/" (c :: P)) []).
  assert (Hnew : Forall is_component new).
  { apply norm_fold_components; [constructor | apply split_pieces]. }
  assert (Efold : new = fold_left (PosixPath.norm_step 1)
                                  (PyStr.split "/" (c :: P)) []).
  { unfold new. destruct Hk as [-> | ->]; [reflexivity|].
    apply norm_fold_rooted. }
  rewrite <- Efold.
  destruct Hk as [-> | ->].
  - change (concat (repeat PosixPath.sep 1) ++ PyStr.join PosixPath.sep new)
      with ([] ++ "/"%char :: PyStr.join PosixPath.sep new).
    cbn [app PosixPath.is_empty].
    change ("/"%char :: PyStr.join PosixPath.sep new)
      with ([] ++ "/"%char :: PyStr.join PosixPath.sep new).
    rewrite split_app_sep.
    cbn [PyStr.split app filter PosixPath.is_empty negb].
    now apply components_of_rooted.
  - change (concat (repeat PosixPath.sep 2) ++ PyStr.join PosixPath.sep new)
      with ([] ++ "/"%char :: "/"%char :: PyStr.join PosixPath.sep new).
    cbn [app PosixPath.is_empty].
    change ("/"%char :: "/"%char :: PyStr.join PosixPath.sep new)
      with ([] ++ "/"%char :: [] ++ "/"%char :: PyStr.join PosixPath.sep new).
    rewrite !split_app_sep.
    cbn [PyStr.split app filter PosixPath.is_empty negb].
    now apply components_of_rooted.
Qed.

Lemma endswith_sep_inv (P : str) :
  PyStr.endswith PosixPath.sep P = true -> exists P', P = P' ++ ["/"%char].
Proof.
  unfold PyStr.endswith. change (rev PosixPath.sep) with PosixPath.sep.
  destruct (rev P) as [|x r] eqn:E; [discriminate|].
  rewrite startswith_sep_cons. intros H. apply Ascii.eqb_eq in H. subst x.
  exists (rev r). apply (f_equal (@rev ascii)) in E.
  rewrite rev_involutive in E. exact E.
Qed.

Lemma endswith_sep_snoc (P : str) :
  PyStr.endswith PosixPath.sep (P ++ ["/"%char]) = true.
Proof.
  unfold PyStr.endswith. rewrite rev_app_distr. reflexivity.
Qed.

Lemma path_of_start (names : list str) :
  Forall is_component names ->
  PyStr.startswith PosixPath.sep (path_of names) = false.
Proof.
  intros H. destruct names as [|w names]; [reflexivity|].
  inversion H as [|? ? Hw _]; subst.
  destruct Hw as [Hne Hs]. destruct w as [|x w]; [contradiction|].
  unfold path_of. destruct names; cbn [PyStr.join app];
    rewrite startswith_sep_cons; apply Ascii.eqb_neq; intros <-;
    apply Hs; now left.
Qed.

Lemma path_of_nonempty (names : list str) :
  names <> [] -> Forall is_component names -> path_of names <> [].
Proof.
  intros Hne H. destruct names as [|w names]; [contradiction|].
  inversion H as [|? ? [Hw _] _]; subst.
  destruct w; [contradiction|].
  unfold path_of. destruct names; cbn [PyStr.join app]; discriminate.
Qed.

(** Joining a path that is not rooted. *)
Lemma join_relative (a c : str) :
  PyStr.startswith PosixPath.sep c = false ->
  PosixPath.join a c
  = a ++ (if PosixPath.is_empty a || PyStr.endswith PosixPath.sep a
          then [] else PosixPath.sep) ++ c.
Proof.
  intros Hc. unfold PosixPath.join. rewrite Hc.
  destruct (PosixPath.is_empty a || PyStr.endswith PosixPath.sep a);
    reflexivity.
Qed.

(** Making a path absolute commutes with going down from it. *)
Lemma absolute_join (cwd b c : str) :
  PosixPath.isabs cwd = true ->
  PyStr.startswith PosixPath.sep c = false ->
  (if PosixPath.isabs (PosixPath.join b c) then PosixPath.join b c
   else PosixPath.join cwd (PosixPath.join b c))
  = PosixPath.join (if PosixPath.isabs b then b else PosixPath.join cwd b) c.
Proof.
  intros Hcwd Hc. unfold PosixPath.isabs in *.
  destruct cwd as [|x cwd]; [discriminate|].
  destruct b as [|y b].
  - (* an empty start *)
    rewrite (join_relative [] c Hc). cbn [PosixPath.is_empty orb app].
    rewrite Hc.
    change (PyStr.startswith PosixPath.sep []) with false. cbv iota.
    rewrite (join_relative (x :: cwd) c Hc).
    rewrite (join_relative (x :: cwd) []) by reflexivity.
    cbn [PosixPath.is_empty orb]. rewrite app_nil_r.
    destruct (PyStr.endswith PosixPath.sep (x :: cwd)) eqn:E.
    + rewrite app_nil_r, (join_relative (x :: cwd) c Hc).
      cbn [PosixPath.is_empty orb]. now rewrite E.
    + rewrite (join_relative ((x :: cwd) ++ PosixPath.sep) c Hc).
      change ((x :: cwd) ++ PosixPath.sep) with ((x :: cwd) ++ ["/"%char]).
      rewrite endswith_sep_snoc, orb_true_r.
      cbn [app]. now rewrite <- app_assoc.
  - rewrite (join_relative (y :: b) c Hc). cbn [PosixPath.is_empty orb].
    set (s' := if PyStr.endswith PosixPath.sep (y :: b)
               then [] else PosixPath.sep).
    change (PyStr.startswith PosixPath.sep ((y :: b) ++ s' ++ c))
      with (PyStr.startswith PosixPath.sep (y :: b)).
    destruct (PyStr.startswith PosixPath.sep (y :: b)) eqn:Hb.
    + rewrite (join_relative (y :: b) c Hc). reflexivity.
    + (* a relative start, made absolute by the working directory *)
      rewrite (join_relative (x :: cwd) ((y :: b) ++ s' ++ c)) by exact Hb.
      rewrite (join_relative (x :: cwd) (y :: b) Hb).
      cbn [PosixPath.is_empty orb].
      set (s := if PyStr.endswith PosixPath.sep (x :: cwd)
                then [] else PosixPath.sep).
      rewrite (join_relative ((x :: cwd) ++ s ++ y :: b) c Hc).
      cbn [app PosixPath.is_empty orb].
      assert (Hend : PyStr.endswith PosixPath.sep (x :: cwd ++ s ++ y :: b)
                     = PyStr.endswith PosixPath.sep (y :: b)).
      { change (x :: cwd ++ s ++ y :: b) with ((x :: cwd) ++ s ++ y :: b).
        rewrite app_assoc. apply endswith_sep_app. discriminate. }
      rewrite Hend. fold s'. f_equal.
      rewrite <- !app_assoc. cbn [app]. reflexivity.
Qed.

Lemma absolute_isabs (cwd b : str) :
  PosixPath.isabs cwd = true ->
  PosixPath.isabs (if PosixPath.isabs b then b else PosixPath.join cwd b)
  = true.
Proof.
  intros Hcwd. destruct (PosixPath.isabs b) eqn:Hb; [assumption|].
  unfold PosixPath.isabs in *. unfold PosixPath.join. rewrite Hb.
  destruct cwd as [|x cwd]; [discriminate|].
  rewrite startswith_sep_cons in Hcwd.
  destruct (PosixPath.is_empty (x :: cwd)
            || PyStr.endswith PosixPath.sep (x :: cwd));
    cbn [app]; now rewrite startswith_sep_cons.
Qed.

(** Going down from a rooted path adds to what the normalisation of the
    path keeps. *)
Lemma norm_fold_join (P c : str) :
  PosixPath.isabs P = true ->
  PyStr.startswith PosixPath.sep c = false ->
  fold_left (PosixPath.norm_step 1) (PyStr.split "/" (PosixPath.join P c)) []
  = fold_left (PosixPath.norm_step 1) (PyStr.split "/" c)
              (fold_left (PosixPath.norm_step 1) (PyStr.split "/" P) []).
Proof.
  intros HP Hc. unfold PosixPath.join. rewrite Hc.
  destruct P as [|x P]; [discriminate|]. cbn [PosixPath.is_empty orb].
  destruct (PyStr.endswith PosixPath.sep (x :: P)) eqn:E.
  - apply endswith_sep_inv in E as [P' E]. rewrite E.
    rewrite <- app_assoc. cbn [app].
    rewrite split_app_sep, fold_left_app.
    rewrite (split_app_sep "/" P' []), fold_left_app.
    reflexivity.
  - change ((x :: P) ++ PosixPath.sep ++ c) with ((x :: P) ++ "/"%char :: c).
    now rewrite split_app_sep, fold_left_app.
Qed.

Section WithCwd.
Variable cwd : str.
Hypothesis cwd_abs : PosixPath.isabs cwd = true.

Lemma components_fold (p : str) :
  PosixPath.components cwd p
  = fold_left (PosixPath.norm_step 1)
              (PyStr.split "/" (if PosixPath.isabs p then p
                                else PosixPath.join cwd p)) [].
Proof.
  unfold PosixPath.components, PosixPath.abspath.
  apply components_of_normpath. now apply absolute_isabs.
Qed.

(** The components of a path that goes down from [b] through plain
    names are those of [b], and then the names. *)
Lemma components_join (b : str) (names : list str) :
  forallb plain_name names = true ->
  PosixPath.components cwd (PosixPath.join b (path_of names))
  = PosixPath.components cwd b ++ names.
Proof.
  intros Hn. pose proof (plain_names_components names Hn) as Hc.
  rewrite !components_fold.
  rewrite (absolute_join cwd b (path_of names) cwd_abs (path_of_start _ Hc)).
  rewrite norm_fold_join;
    [| now apply absolute_isabs | now apply path_of_start].
  destruct names as [|w names].
  - unfold path_of. cbn [PyStr.join PyStr.split fold_left].
    unfold PosixPath.norm_step. rewrite eqb_refl. cbn [orb].
    now rewrite app_nil_r.
  - unfold path_of. rewrite split_join.
    + now apply norm_fold_plain.
    + discriminate.
    + eapply Forall_impl; [|exact Hc]. now intros ? [_ ?].
Qed.

End WithCwd.

Lemma list_ltb_longer (l m : list str) :
  PosixPath.list_ltb (l ++ m) l = false.
Proof.
  induction l as [|x l IH]; cbn [app PosixPath.list_ltb].
  - destruct m; reflexivity.
  - now rewrite eqb_refl.
Qed.

Lemma common_prefix (l m : list str) : PosixPath.common l (l ++ m) = l.
Proof.
  induction l as [|x l IH]; cbn [app PosixPath.common]; [reflexivity|].
  now rewrite eqb_refl, IH.
Qed.

(** The common prefix of a list and of one that continues it. *)
Lemma commonprefix_prefix (l m : list str) :
  PosixPath.commonprefix l (l ++ m) = l.
Proof.
  unfold PosixPath.commonprefix. rewrite list_ltb_longer.
  destruct (PosixPath.list_ltb l (l ++ m)).
  - apply common_prefix.
  - rewrite <- (app_nil_r l) at 2. apply common_prefix.
Qed.

(** Joining components one by one puts one slash between them. *)
Lemma join_all_components (names : list str) :
  Forall is_component names ->
  PosixPath.join_all names = path_of names.
Proof.
  intros H. destruct names as [|w names]; [reflexivity|].
  inversion H as [|? ? Hw Hrest]; subst. cbn [PosixPath.join_all].
  clear H. revert w Hw.
  induction names as [|w' names IH]; intros w Hw; cbn [fold_left].
  - reflexivity.
  - inversion Hrest as [|? ? Hw' Hrest']; subst.
    assert (E : PosixPath.join w w' = w ++ PosixPath.sep ++ w').
    { unfold PosixPath.join.
      rewrite (component_start w' Hw'), (component_end w Hw).
      destruct Hw as [Hne _]. destruct w; [contradiction | reflexivity]. }
    rewrite E.
    (* the accumulated path behaves like its last component *)
    assert (Hgen : forall acc l,
               acc <> [] -> PyStr.endswith PosixPath.sep acc = false ->
               Forall is_component l ->
               fold_left PosixPath.join l acc
               = acc ++ concat (map (fun n => PosixPath.sep ++ n) l)).
    { clear. intros acc l. revert acc.
      induction l as [|n l IHl]; intros acc Hne Hend Hl; cbn [fold_left map concat].
      - now rewrite app_nil_r.
      - inversion Hl as [|? ? Hn Hl']; subst.
        assert (E : PosixPath.join acc n = acc ++ PosixPath.sep ++ n).
        { unfold PosixPath.join. rewrite (component_start n Hn), Hend.
          destruct acc; [contradiction | reflexivity]. }
        rewrite E, IHl; [now rewrite <- !app_assoc | | | assumption].
        + destruct acc; [contradiction | discriminate].
        + rewrite app_assoc. rewrite endswith_sep_app by apply Hn.
          now apply component_end. }
    rewrite Hgen; [| | | assumption].
    + assert (Hp : forall a l, Forall is_component l ->
                 path_of (a :: l)
                 = a ++ concat (map (fun n => PosixPath.sep ++ n) l)).
      { clear. intros a l. revert a.
        induction l as [|n l IHl]; intros a Hl; cbn [map concat].
        - unfold path_of. cbn. now rewrite app_nil_r.
        - inversion Hl; subst.
          change (path_of (a :: n :: l))
            with (a ++ PosixPath.sep ++ path_of (n :: l)).
          rewrite IHl by assumption. now rewrite <- !app_assoc. }
      rewrite (Hp w (w' :: names)) by assumption.
      cbn [map concat]. now rewrite <- !app_assoc.
    + destruct Hw as [Hne _]. destruct w; [contradiction | discriminate].
    + rewrite app_assoc. rewrite endswith_sep_app by apply Hw'.
      now apply component_end.
Qed.

(** The path from a directory to what lies below it, through plain
    names, is the names joined. *)
Lemma relpath_down (cwd b : str) (names : list str) :
  PosixPath.isabs cwd = true ->
  names <> [] -> forallb plain_name names = true ->
  PosixPath.relpath cwd (PosixPath.join b (path_of names)) b
  = Ok (path_of names).
Proof.
  intros Hcwd Hne Hn.
  pose proof (plain_names_components names Hn) as Hc.
  unfold PosixPath.relpath.
  assert (Hj : PosixPath.join b (path_of names) <> []).
  { rewrite (join_relative b _ (path_of_start _ Hc)).
    pose proof (path_of_nonempty names Hne Hc) as Hp. intros E.
    apply app_eq_nil in E as [_ E]. apply app_eq_nil in E as [_ E].
    contradiction. }
  destruct (PosixPath.join b (path_of names)) as [|x r] eqn:E;
    [contradiction|].
  cbn [PosixPath.is_empty]. rewrite <- E.
  rewrite (components_join cwd Hcwd b names Hn).
  rewrite commonprefix_prefix, Nat.sub_diag. cbn [repeat app].
  rewrite skipn_app, skipn_all, Nat.sub_diag. cbn [skipn app].
  destruct names as [|w names]; [contradiction|].
  cbn [PosixPath.is_nil]. f_equal. now apply join_all_components.
Qed.

(** The path from a directory to itself is the dot. *)
Lemma relpath_self (cwd p : str) :
  p <> [] -> PosixPath.relpath cwd p p = Ok PosixPath.curdir.
Proof.
  intros Hp. unfold PosixPath.relpath.
  destruct p; [contradiction|]. cbn [PosixPath.is_empty].
  pose proof (commonprefix_prefix (PosixPath.components cwd (a :: p)) [])
    as H.
  rewrite app_nil_r in H. rewrite H, Nat.sub_diag, skipn_all.
  reflexivity.
Qed.

(** A relative path is made of components, one slash between them. *)
Lemma relpath_pieces (cwd p start r : str) :
  PosixPath.relpath cwd p start = Ok r ->
  Forall is_component (PyStr.split "/" r).
Proof.
  unfold PosixPath.relpath.
  destruct (PosixPath.is_empty p); [discriminate|].
  set (sl := PosixPath.components cwd start).
  set (pl := PosixPath.components cwd p).
  set (i := length (PosixPath.commonprefix sl pl)).
  assert (Hall : Forall is_component
                        (repeat PosixPath.pardir (length sl - i)
                         ++ skipn i pl)).
  { apply Forall_app. split.
    - apply Forall_forall. intros x Hx. apply repeat_spec in Hx.
      subst. apply pardir_component.
    - apply Forall_forall. intros x Hx.
      pose proof (components_are_components cwd p) as H.
      rewrite Forall_forall in H. apply H.
      fold pl. rewrite <- (firstn_skipn i pl). apply in_or_app. now right. }
  destruct (repeat PosixPath.pardir (length sl - i) ++ skipn i pl)
    as [|w l] eqn:E; cbn [PosixPath.is_nil]; intros H; injection H as <-.
  - repeat constructor; [discriminate | simpl; intuition discriminate].
  - change (fold_left PosixPath.join l w) with (PosixPath.join_all (w :: l)).
    rewrite (join_all_components _ Hall). unfold path_of.
    rewrite split_join; [assumption | discriminate |].
    eapply Forall_impl; [|exact Hall]. now intros ? [_ ?].
Qed.

End DescentFacts.

(** ** Listing: paths, failures, order *)

Module ListingFacts.
Import PyStrFacts PathFacts SortedFacts DescentFacts.

Lemma relpath_raise (cwd p start : str) (e : exn) :
  PosixPath.relpath cwd p start = Raise e ->
  p = [] /\ e = ValueError (lit "no path specified").
Proof.
  unfold PosixPath.relpath. destruct p; cbn [PosixPath.is_empty].
  - intros H. injection H as <-. now split.
  - match goal with |- context [if ?b then _ else _] => destruct b end;
      discriminate.
Qed.

Lemma relpath_empty (cwd start : str) :
  PosixPath.relpath cwd [] start = Raise (ValueError (lit "no path specified")).
Proof. reflexivity. Qed.

(** The loop fails at a kept result without a name. *)
Lemma list_loop_nameless (cwd base target : str)
      (results : list PathProperties) :
  (exists r, In r results /\ is_child target r = true /\ name r = []) ->
  forall infos,
    list_loop cwd base target results infos
    = Raise (ValueError (lit "no path specified")).
Proof.
  induction results as [|h rest IH]; intros (r & Hin & Hc & Hn) infos.
  - contradiction.
  - cbn [list_loop].
    destruct (PyStr.eqb target (name h)) eqn:Et.
    + apply IH. exists r. destruct Hin as [->|Hin]; [|now repeat split].
      unfold is_child in Hc. rewrite Et in Hc. discriminate.
    + destruct (PosixPath.relpath cwd (name h) base) as [p|x] eqn:Hp.
      * assert (Hrest : exists r, In r rest /\ is_child target r = true
                                  /\ name r = []).
        { exists r. destruct Hin as [->|Hin]; [|now repeat split].
          rewrite Hn, relpath_empty in Hp. discriminate. }
        destruct (is_directory h); cbn [bind]; now apply IH.
      * destruct (relpath_raise _ _ _ _ Hp) as [_ ->].
        destruct (is_directory h); reflexivity.
Qed.

Section Stability.
Variable A : Type.
Variable key : A -> str.

Lemma insert_by_filter (k : str) (x : A) (l : list A) :
  filter (fun y => PyStr.eqb (key y) k) (insert_by key x l)
  = filter (fun y => PyStr.eqb (key y) k) (x :: l).
Proof.
  induction l as [|y l IH]; cbn [insert_by]; [reflexivity|].
  destruct (PyStr.ltb (key y) (key x)) eqn:E; [|reflexivity].
  cbn [filter] in *. rewrite IH.
  destruct (PyStr.eqb (key x) k) eqn:Ex; [|reflexivity].
  destruct (PyStr.eqb (key y) k) eqn:Ey; [|reflexivity].
  apply eqb_eq in Ex, Ey. rewrite Ex, Ey, ltb_irrefl in E. discriminate.
Qed.

(** Sorting keeps the order of the elements of equal key. *)
Lemma sorted_filter (k : str) (l : list A) :
  filter (fun y => PyStr.eqb (key y) k) (sorted key l)
  = filter (fun y => PyStr.eqb (key y) k) l.
Proof.
  induction l as [|x l IH]; [reflexivity|].
  change (sorted key (x :: l)) with (insert_by key x (sorted key l)).
  rewrite insert_by_filter. cbn [filter]. now rewrite IH.
Qed.
End Stability.

Lemma pieces_nonempty (r : str) :
  Forall is_component (PyStr.split "/" r) ->
  r <> [] /\ PyStr.startswith PosixPath.sep r = false.
Proof.
  intros H. destruct r as [|x r].
  - cbn in H. inversion H as [|? ? [Hne _] _]; subst. contradiction.
  - split; [discriminate|]. rewrite startswith_sep_cons.
    apply Ascii.eqb_neq. intros <-.
    cbn [PyStr.split] in H. rewrite Ascii.eqb_refl in H.
    inversion H as [|? ? [Hne _] _]; subst. contradiction.
Qed.

Lemma entry_of_fields (cwd base : str) (r : PathProperties)
      (e : FileInfo.t) :
  entry_of cwd base r = Ok e ->
  PosixPath.relpath cwd (name r) base = Ok (FileInfo.path e)
  /\ FileInfo.is_dir e = is_directory r.
Proof.
  unfold entry_of.
  destruct (PosixPath.relpath cwd (name r) base) as [p|x]; cbn [bind];
    [|discriminate].
  intros H. injection H as <-. now split.
Qed.

End ListingFacts.

(** X1. When every backend result other than the listed directory is
    named by the base path joined with a path of plain names, the path of
    each entry returned is that path of names: joining the base path with
    it gives the name of the result back. *)
Theorem list_artifacts_child_paths
        (cwd : str) (self : Repository) (path : option str)
        (results : list PathProperties) (out : list FileInfo.t) :
  PosixPath.isabs cwd = true ->
  get_paths (fs_client self) (list_target self path) false = Ok results ->
  (forall r, In r results -> name r <> list_target self path ->
             exists names,
               names <> [] /\ forallb plain_name names = true
               /\ name r = PosixPath.join (base_data_lake_directory self)
                                          (path_of names)) ->
  list_artifacts cwd self path = Ok out ->
  Forall (fun e =>
            exists r names,
              In r results
              /\ name r = PosixPath.join (base_data_lake_directory self)
                                         (FileInfo.path e)
              /\ FileInfo.path e = path_of names
              /\ forallb plain_name names = true
              /\ FileInfo.is_dir e = is_directory r) out.
Proof.
  intros Hcwd Hg Hnames H.
  pose proof (RepositoryFacts.list_artifacts_origin cwd self path results
                out Hg H) as Horigin.
  eapply Forall_impl; [|exact Horigin].
  intros e (r & Hin & Hne & He).
  destruct (Hnames r Hin Hne) as (names & Hn0 & Hplain & Hname).
  destruct (ListingFacts.entry_of_fields _ _ _ _ He) as [Hrel Hdir].
  rewrite Hname in Hrel.
  rewrite (DescentFacts.relpath_down cwd _ names Hcwd Hn0 Hplain) in Hrel.
  injection Hrel as Hrel.
  exists r, names. rewrite <- Hrel. repeat split; assumption.
Qed.

Lemma list_artifacts_child_paths_witness :
  let self := Sample.repo Sample.listing in
  let out := [ FileInfo.mk (lit "sub/a.txt") false (Some 0%Z);
               FileInfo.mk (lit "sub/b.txt") false (Some 12%Z);
               FileInfo.mk (lit "sub/inner") true None ] in
  list_artifacts Sample.cwd self (Some (lit "sub")) = Ok out
  /\ Forall (fun e =>
               exists r names,
                 In r Sample.listing
                 /\ name r = PosixPath.join (lit "root") (FileInfo.path e)
                 /\ FileInfo.path e = path_of names
                 /\ forallb plain_name names = true
                 /\ FileInfo.is_dir e = is_directory r) out.
Proof.
  intros self out. split; [reflexivity|].
  apply (list_artifacts_child_paths Sample.cwd self (Some (lit "sub"))
           Sample.listing out eq_refl eq_refl); [|reflexivity].
  intros r Hin Hne.
  destruct Hin as [<-|[<-|[<-|[<-|[]]]]].
  - exists [lit "sub"; lit "b.txt"]. repeat split. discriminate.
  - now contradiction Hne.
  - exists [lit "sub"; lit "inner"]. repeat split. discriminate.
  - exists [lit "sub"; lit "a.txt"]. repeat split. discriminate.
Defined.

(** X2. Every path that [list_artifacts] returns is relative and clean:
    it is not empty, does not start with a slash, and its pieces between
    slashes are never empty, so that it neither ends with a slash nor
    holds two slashes in a row. *)
Theorem list_artifacts_relative_paths
        (cwd : str) (self : Repository) (path : option str)
        (out : list FileInfo.t) :
  list_artifacts cwd self path = Ok out ->
  Forall (fun e =>
            FileInfo.path e <> []
            /\ PyStr.startswith (lit "/") (FileInfo.path e) = false
            /\ PyStr.endswith (lit "/") (FileInfo.path e) = false
            /\ Forall (fun w => w <> [] /\ ~ In "/"%char w)
                      (PyStr.split "/" (FileInfo.path e))) out.
Proof.
  intros H.
  destruct (RepositoryFacts.list_artifacts_result cwd self path out H)
    as (results & infos & Hg & _).
  pose proof (RepositoryFacts.list_artifacts_origin cwd self path results
                out Hg H) as Horigin.
  eapply Forall_impl; [|exact Horigin].
  intros e (r & _ & _ & He).
  destruct (ListingFacts.entry_of_fields _ _ _ _ He) as [Hrel _].
  pose proof (DescentFacts.relpath_pieces _ _ _ _ Hrel) as Hp.
  destruct (ListingFacts.pieces_nonempty _ Hp) as [Hne Hs].
  repeat split; try assumption.
  exact (PathFacts.relpath_end _ _ _ _ Hrel).
Qed.

Lemma list_artifacts_relative_paths_witness :
  let self := Sample.repo Sample.listing in
  let out := [ FileInfo.mk (lit "sub/a.txt") false (Some 0%Z);
               FileInfo.mk (lit "sub/b.txt") false (Some 12%Z);
               FileInfo.mk (lit "sub/inner") true None ] in
  list_artifacts Sample.cwd self (Some (lit "sub")) = Ok out
  /\ Forall (fun e => FileInfo.path e <> []) out.
Proof.
  intros self out. split; [reflexivity|].
  eapply Forall_impl;
    [|exact (list_artifacts_relative_paths Sample.cwd self
               (Some (lit "sub")) out eq_refl)].
  intros e He. exact (proj1 He).
Defined.

(** X3. A backend result without a name makes the listing fail: when
    the backend returns its results and one of them has an empty name,
    while the listed directory is not the empty path, [list_artifacts]
    raises the [ValueError] that the relative path of an empty path is,
    whatever the other results are. *)
Theorem list_artifacts_nameless_result
        (cwd : str) (self : Repository) (path : option str)
        (results : list PathProperties) (r : PathProperties) :
  get_paths (fs_client self) (list_target self path) false = Ok results ->
  In r results -> name r = [] -> list_target self path <> [] ->
  list_artifacts cwd self path = Raise (ValueError (lit "no path specified")).
Proof.
  intros Hg Hin Hn Ht. unfold list_artifacts, list_infos.
  rewrite Hg. cbn [bind].
  rewrite (ListingFacts.list_loop_nameless cwd _ _ results);
    [reflexivity|].
  exists r. repeat split; try assumption.
  unfold is_child. apply negb_true_iff, PyStrFacts.eqb_neq. congruence.
Qed.

Lemma list_artifacts_nameless_result_witness :
  let self := Sample.repo Sample.nameless in
  list_target self None = lit "root"
  /\ list_artifacts Sample.cwd self None
     = Raise (ValueError (lit "no path specified")).
Proof.
  intros self. refine (conj eq_refl _).
  apply (list_artifacts_nameless_result Sample.cwd self None Sample.nameless
           (mkPathProperties [] false (Some 2%Z)) eq_refl).
  - right. left. reflexivity.
  - reflexivity.
  - discriminate.
Defined.

(** X4. A listing in which the backend returns nothing, or nothing but
    the listed directory itself, gives the empty list. *)
Theorem list_artifacts_of_empty_directory
        (cwd : str) (self : Repository) (path : option str)
        (results : list PathProperties) :
  get_paths (fs_client self) (list_target self path) false = Ok results ->
  (forall r, In r results -> name r = list_target self path) ->
  list_artifacts cwd self path = Ok [].
Proof.
  intros Hg Hself. unfold list_artifacts, list_infos. rewrite Hg.
  cbn [bind].
  assert (Hl : forall infos,
             list_loop cwd (base_data_lake_directory self)
                       (list_target self path) results infos = Ok infos).
  { clear Hg. induction results as [|r rest IH]; intros infos;
      [reflexivity|].
    cbn [list_loop]. rewrite (Hself r (or_introl eq_refl)).
    rewrite PyStrFacts.eqb_refl. apply IH.
    intros r' Hr'. apply Hself. now right. }
  rewrite Hl. reflexivity.
Qed.

Lemma list_artifacts_of_empty_directory_witness :
  let self :=
    Sample.repo [ mkPathProperties (lit "root/sub") true None ] in
  list_artifacts Sample.cwd self (Some (lit "sub")) = Ok [].
Proof.
  intros self.
  apply (list_artifacts_of_empty_directory Sample.cwd self (Some (lit "sub"))
           [ mkPathProperties (lit "root/sub") true None ] eq_refl).
  intros r [<-|[]]. reflexivity.
Defined.

(** X5. The sort of the entries is stable: among the entries returned,
    those of one and the same path stand in the order in which the backend
    returned their results. *)
Theorem list_artifacts_stable
        (cwd : str) (self : Repository) (path : option str)
        (results : list PathProperties) (out : list FileInfo.t) :
  get_paths (fs_client self) (list_target self path) false = Ok results ->
  list_artifacts cwd self path = Ok out ->
  out = []
  \/ forall k,
      filter (fun e => PyStr.eqb (FileInfo.path e) k) out
      = filter (fun e => PyStr.eqb (FileInfo.path e) k)
               (map (entry_or_default cwd (base_data_lake_directory self))
                    (filter (fun r => negb (PyStr.eqb (list_target self path)
                                                      (name r))) results)).
Proof.
  intros Hg H.
  destruct (RepositoryFacts.list_artifacts_exact cwd self path out H)
    as (results' & Hg' & ->).
  rewrite Hg in Hg'. injection Hg' as <-. cbv zeta.
  fold (is_child (list_target self path)).
  destruct (is_lone_file _ _); [now left | right].
  intros k. apply ListingFacts.sorted_filter.
Qed.

Lemma list_artifacts_stable_witness :
  let twice := [ mkPathProperties (lit "root/a/") false (Some 1%Z);
                 mkPathProperties (lit "root/b") false (Some 5%Z);
                 mkPathProperties (lit "root/a") false (Some 2%Z) ] in
  let out := [ FileInfo.mk (lit "a") false (Some 1%Z);
               FileInfo.mk (lit "a") false (Some 2%Z);
               FileInfo.mk (lit "b") false (Some 5%Z) ] in
  list_artifacts Sample.cwd (Sample.repo twice) None = Ok out
  /\ filter (fun e => PyStr.eqb (FileInfo.path e) (lit "a")) out
     = [ FileInfo.mk (lit "a") false (Some 1%Z);
         FileInfo.mk (lit "a") false (Some 2%Z) ].
Proof.
  intros twice out. split; [reflexivity|].
  destruct (list_artifacts_stable Sample.cwd (Sample.repo twice) None
              twice out eq_refl eq_refl) as [E | E].
  - discriminate E.
  - rewrite (E (lit "a")). reflexivity.
Defined.

(** X6. With an empty base path the text compared with the path of a lone
    file is the relative path asked for without its first character.  A
    lone file entry whose path is the relative path asked for is then not
    taken for the file itself: it is returned. *)
Theorem list_artifacts_lone_file_empty_base
        (cwd : str) (self : Repository) (p : str) (info : FileInfo.t) :
  base_data_lake_directory self = [] ->
  p <> [] ->
  list_infos cwd self (Some p) = Ok [info] ->
  FileInfo.path info = p ->
  rel_path_of self (Some p) = skipn 1 p
  /\ list_artifacts cwd self (Some p) = Ok [info].
Proof.
  intros Hbase Hp Hinfos Hpath.
  assert (Ht : list_target self (Some p) = p).
  { unfold list_target. rewrite Hbase. destruct p as [|c p];
      [contradiction|]. cbn [truthy arg]. unfold PosixPath.join.
    destruct (PyStr.startswith PosixPath.sep (c :: p)); reflexivity. }
  assert (Hrel : rel_path_of self (Some p) = skipn 1 p).
  { unfold rel_path_of. now rewrite Ht, Hbase. }
  split; [exact Hrel|].
  unfold list_artifacts. rewrite Hinfos. cbn [bind]. rewrite Hrel, Hpath.
  assert (Hneq : PyStr.eqb p (skipn 1 p) = false).
  { apply PyStrFacts.eqb_neq. intros E.
    apply (f_equal (@length ascii)) in E.
    destruct p; [contradiction|]. cbn in E. lia. }
  rewrite Hneq, andb_false_r. reflexivity.
Qed.

Lemma list_artifacts_lone_file_empty_base_witness :
  let self := Sample.rootless Sample.lone_file_rootless in
  let info := FileInfo.mk (lit "f.txt") false (Some 3%Z) in
  list_infos Sample.cwd self (Some (lit "f.txt")) = Ok [info]
  /\ list_artifacts Sample.cwd self (Some (lit "f.txt")) = Ok [info].
Proof.
  intros self info. split; [reflexivity|].
  refine (proj2 (list_artifacts_lone_file_empty_base Sample.cwd self
                   (lit "f.txt") info eq_refl _ eq_refl eq_refl)).
  discriminate.
Defined.

(** ** Upload: the paths of the requests *)

Module UploadFacts.
Import PyStrFacts PathFacts DescentFacts.

Lemma fold_join_components (acc : str) (l : list str) :
  acc <> [] -> PyStr.endswith PosixPath.sep acc = false ->
  Forall is_component l ->
  fold_left PosixPath.join l acc
  = acc ++ concat (map (fun n => PosixPath.sep ++ n) l).
Proof.
  revert acc. induction l as [|n l IH]; intros acc Hne Hend Hl;
    cbn [fold_left map concat].
  - now rewrite app_nil_r.
  - inversion Hl as [|? ? Hn Hl']; subst.
    rewrite (join_relative acc n (component_start n Hn)), Hend.
    destruct acc as [|a acc]; [contradiction|].
    cbn [PosixPath.is_empty orb]. rewrite IH; [| | |assumption].
    + now rewrite <- !app_assoc.
    + discriminate.
    + rewrite app_assoc, endswith_sep_app by apply Hn.
      now apply component_end.
Qed.

Lemma path_of_cons (a : str) (l : list str) :
  path_of (a :: l) = a ++ concat (map (fun n => PosixPath.sep ++ n) l).
Proof.
  revert a. induction l as [|n l IH]; intros a; cbn [map concat].
  - unfold path_of. cbn [PyStr.join]. now rewrite app_nil_r.
  - change (path_of (a :: n :: l))
      with (a ++ PosixPath.sep ++ path_of (n :: l)).
    now rewrite IH, <- !app_assoc.
Qed.

Lemma path_of_snoc (names : list str) (f : str) :
  names <> [] ->
  path_of (names ++ [f]) = path_of names ++ PosixPath.sep ++ f.
Proof.
  intros Hne. destruct names as [|a l]; [contradiction|].
  cbn [app]. rewrite !path_of_cons, map_app, concat_app. cbn [map concat].
  now rewrite app_nil_r, <- !app_assoc.
Qed.

Lemma path_of_end (names : list str) :
  names <> [] -> Forall is_component names ->
  PyStr.endswith PosixPath.sep (path_of names) = false.
Proof.
  intros Hne Hall. destruct names as [|a l]; [contradiction|]. clear Hne.
  revert a Hall. induction l as [|n l IH]; intros a Hall.
  - inversion Hall; subst. now apply component_end.
  - inversion Hall as [|? ? Ha Hrest]; subst.
    change (path_of (a :: n :: l))
      with (a ++ PosixPath.sep ++ path_of (n :: l)).
    rewrite app_assoc, endswith_sep_app.
    + now apply IH.
    + apply path_of_nonempty; [discriminate | assumption].
Qed.

(** The directory reached from [top] through plain names. *)
Lemma join_names (top : str) (names : list str) :
  names <> [] -> Forall is_component names ->
  fold_left PosixPath.join names top = PosixPath.join top (path_of names).
Proof.
  intros Hne Hall. destruct names as [|n rest]; [contradiction|].
  inversion Hall as [|? ? Hn Hrest]; subst. cbn [fold_left].
  rewrite (join_relative top n (component_start n Hn)).
  rewrite (join_relative top _ (path_of_start _ Hall)).
  set (s := if PosixPath.is_empty top || PyStr.endswith PosixPath.sep top
            then [] else PosixPath.sep).
  rewrite fold_join_components; [| | |assumption].
  - now rewrite path_of_cons, <- !app_assoc.
  - destruct Hn as [Hn _]. intros E.
    apply app_eq_nil in E as [_ E]. apply app_eq_nil in E as [_ E].
    contradiction.
  - rewrite app_assoc, endswith_sep_app by apply Hn.
    now apply component_end.
Qed.

(** The path of a directory of the walk, relative to the top. *)
Lemma relpath_walk (cwd top : str) (names : list str) :
  PosixPath.isabs cwd = true -> top <> [] ->
  forallb plain_name names = true ->
  PosixPath.relpath cwd (fold_left PosixPath.join names top) top
  = Ok (rel_dir names).
Proof.
  intros Hcwd Htop Hn. destruct names as [|n rest].
  - now apply relpath_self.
  - rewrite join_names;
      [| discriminate | now apply plain_names_components].
    apply relpath_down; [assumption | discriminate | assumption].
Qed.

Section Walk.
Variable cwd : str.
Variable getsize : str -> Z.
Variable read_bytes : str -> list Byte.byte.
Hypothesis cwd_abs : PosixPath.isabs cwd = true.

Lemma upload_walk_exact (dest top : str)
      (vis : list (list str * list str * list str)) :
  top <> [] ->
  (forall names dirs files,
      In (names, dirs, files) vis -> forallb plain_name names = true) ->
  forall sent,
    upload_walk cwd getsize read_bytes dest top
      (map (fun '(names, dirnames, filenames) =>
              (fold_left PosixPath.join names top, dirnames, filenames)) vis)
      sent
    = (sent
       ++ flat_map
            (fun '(names, _, files) =>
               map (upload_file getsize read_bytes dest (rel_dir names)
                                (fold_left PosixPath.join names top)) files)
            vis,
       Ok tt).
Proof.
  intros Htop. induction vis as [|[[names dirs] files] rest IH];
    intros Hplain sent; cbn [map upload_walk flat_map].
  - now rewrite app_nil_r.
  - rewrite (relpath_walk cwd top names cwd_abs Htop).
    + rewrite IH.
      * now rewrite <- app_assoc.
      * intros n d f Hin. apply (Hplain n d f). now right.
    + apply (Hplain names dirs files). now left.
Qed.
End Walk.

End UploadFacts.

(** X7. When the names of the directories walked are plain, the requests
    of [log_artifacts] are, in the order of the walk and of the files of
    each directory, one per file: the file [f] of the top directory goes
    through the file client of [./f], the file [f] of the directory
    reached through the names [d1], ..., [dn] through that of
    [d1/.../dn/f].  The upload ends normally. *)
Theorem log_artifacts_file_paths
        (cwd : str) (visited : str -> list (list str * list str * list str))
        (getsize : str -> Z) (read_bytes : str -> list Byte.byte)
        (self : Repository) (local_dir : str) (artifact_path : option str) :
  let top := PosixPath.abspath cwd local_dir in
  let dest :=
    match artifact_path with
    | Some (c :: s) => PosixPath.join (base_data_lake_directory self) (c :: s)
    | _ => base_data_lake_directory self
    end in
  PosixPath.isabs cwd = true ->
  (forall names dirs files,
      In (names, dirs, files) (visited top) ->
      forallb plain_name names = true) ->
  log_artifacts cwd visited getsize read_bytes self local_dir artifact_path
  = (flat_map
       (fun '(names, _, files) =>
          map (fun f =>
                 let local :=
                   PosixPath.join (fold_left PosixPath.join names top) f in
                 if (getsize local =? 0)%Z
                 then CreateFile dest (PosixPath.join (rel_dir names) f)
                 else UploadData dest (PosixPath.join (rel_dir names) f)
                                 (read_bytes local) true)
              files)
       (visited top),
     Ok tt)
  /\ (forall names f,
         forallb plain_name names = true -> plain_name f = true ->
         PosixPath.join (rel_dir names) f
         = match names with
           | [] => lit "./" ++ f
           | _ :: _ => path_of (names ++ [f])
           end).
Proof.
  intros top dest Hcwd Hplain. split.
  - assert (Hdest : upload_dest self artifact_path = dest).
    { unfold upload_dest, dest. destruct artifact_path as [[|c s]|];
        reflexivity. }
    unfold log_artifacts, walk. rewrite Hdest. fold top.
    rewrite (UploadFacts.upload_walk_exact cwd getsize read_bytes Hcwd
               dest top (visited top)
               (PathFacts.abspath_nonempty cwd local_dir) Hplain []).
    reflexivity.
  - intros names f Hn Hf.
    destruct (DescentFacts.plain_name_spec f Hf) as (Hc & _ & _).
    rewrite (DescentFacts.join_relative _ f (PathFacts.component_start f Hc)).
    destruct names as [|n rest].
    + reflexivity.
    + pose proof (DescentFacts.plain_names_components _ Hn) as Hall.
      rewrite UploadFacts.path_of_snoc by discriminate.
      cbn [rel_dir].
      rewrite (UploadFacts.path_of_end (n :: rest)) by
          (discriminate || assumption).
      pose proof (DescentFacts.path_of_nonempty (n :: rest)) as Hne.
      destruct (path_of (n :: rest)) as [|x r]; [|reflexivity].
      exfalso. apply Hne; [discriminate | assumption | reflexivity].
Qed.

Lemma log_artifacts_file_paths_witness :
  log_artifacts Sample.cwd Sample.visited Sample.getsize Sample.read_bytes
                (Sample.repo []) (lit "/data/run/") (Some (lit "model"))
  = ([ UploadData (lit "root/model") (lit "./a.txt")
                  (Sample.read_bytes (lit "/data/run/a.txt")) true;
       CreateFile (lit "root/model") (lit "./empty");
       UploadData (lit "root/model") (lit "sub/b.bin")
                  (Sample.read_bytes (lit "/data/run/sub/b.bin")) true ],
     Ok tt).
Proof.
  assert (Hplain : forall names dirs files,
             In (names, dirs, files)
                (Sample.visited
                   (PosixPath.abspath Sample.cwd (lit "/data/run/"))) ->
             forallb plain_name names = true).
  { intros names dirs files [E|[E|[]]]; injection E as <- _ _; reflexivity. }
  rewrite (proj1 (log_artifacts_file_paths Sample.cwd Sample.visited
                    Sample.getsize Sample.read_bytes (Sample.repo [])
                    (lit "/data/run/") (Some (lit "model")) eq_refl Hplain)).
  reflexivity.
Defined.

(** ** Download: the directory and the leaf *)

Module DownloadFacts.
Import PyStrFacts PathFacts DescentFacts.

Lemma rfind_none (c : ascii) (s : str) :
  ~ In c s -> PyStr.rfind c s = (-1)%Z.
Proof.
  induction s as [|x s IH]; intros H; cbn [PyStr.rfind]; [reflexivity|].
  rewrite IH by (intros Hin; apply H; now right).
  cbn. destruct (Ascii.eqb_spec x c) as [->|]; [|reflexivity].
  exfalso. apply H. now left.
Qed.

Lemma rfind_nonneg (c : ascii) (s : str) : (-1 <= PyStr.rfind c s)%Z.
Proof.
  induction s as [|x s IH]; cbn [PyStr.rfind]; [lia|].
  destruct (Z.leb_spec 0 (PyStr.rfind c s)); [lia|].
  destruct (Ascii.eqb x c); lia.
Qed.

(** The last occurrence, when the text after it is known. *)
Lemma rfind_last (c : ascii) (X f : str) :
  ~ In c f -> PyStr.rfind c (X ++ c :: f) = Z.of_nat (length X).
Proof.
  intros Hf. induction X as [|x X IH]; cbn [app PyStr.rfind length].
  - rewrite (rfind_none c f Hf). cbn. now rewrite Ascii.eqb_refl.
  - rewrite IH. destruct (Z.leb_spec 0 (Z.of_nat (length X))); lia.
Qed.

(** Every text splits at its last occurrence of [c]. *)
Lemma rfind_split (c : ascii) (s : str) :
  exists h t,
    s = h ++ t /\ ~ In c t
    /\ (h = [] \/ exists h', h = h' ++ [c])
    /\ (PyStr.rfind c s + 1)%Z = Z.of_nat (length h).
Proof.
  induction s as [|x s IH].
  - exists [], []. repeat split; auto.
  - destruct IH as (h & t & -> & Ht & Hh & Hr). cbn [PyStr.rfind].
    destruct Hh as [-> | [h' ->]].
    + cbn [app length] in *.
      assert (Er : PyStr.rfind c t = (-1)%Z) by lia. rewrite Er.
      cbn. destruct (Ascii.eqb_spec x c) as [->|Hx].
      * exists [c], t. repeat split; auto. right. now exists [].
      * exists [], (x :: t). repeat split; auto.
        intros [E|E]; [congruence | contradiction].
    + assert (Hpos : (0 <= PyStr.rfind c ((h' ++ [c]) ++ t))%Z).
      { rewrite length_app in Hr. cbn in Hr. lia. }
      destruct (Z.leb_spec 0 (PyStr.rfind c ((h' ++ [c]) ++ t))); [|lia].
      exists (x :: h' ++ [c]), t. repeat split; auto.
      * right. now exists (x :: h').
      * cbn [length]. lia.
Qed.

Lemma repeat_sep (n : nat) :
  concat (repeat PosixPath.sep n) = repeat "/"%char n.
Proof. induction n as [|n IH]; cbn; [reflexivity | now rewrite <- IH]. Qed.

Lemma all_slashes_repeat (n : nat) : all_slashes (repeat "/"%char n) = true.
Proof. induction n as [|n IH]; cbn; [reflexivity | exact IH]. Qed.

Lemma all_slashes_spec (s : str) :
  all_slashes s = true -> s = repeat "/"%char (length s).
Proof.
  induction s as [|x s IH]; cbn [all_slashes forallb length repeat];
    [reflexivity|].
  intros H. apply andb_true_iff in H as [Hx Hs]. apply Ascii.eqb_eq in Hx.
  subst x. f_equal. now apply IH.
Qed.

(** Stripping slashes at the front. *)
Lemma lstrip_slashes (l : str) :
  exists k,
    l = repeat "/"%char k ++ PyStr.lstrip (Ascii.eqb "/") l
    /\ PyStr.startswith PosixPath.sep (PyStr.lstrip (Ascii.eqb "/") l)
       = false.
Proof.
  induction l as [|x l (k & E & H)]; cbn [PyStr.lstrip].
  - exists 0. now split.
  - destruct (Ascii.eqb_spec "/"%char x) as [<-|Hx].
    + exists (S k). cbn [repeat app]. split; [now f_equal | assumption].
    + exists 0. split; [reflexivity|]. rewrite startswith_sep_cons.
      now apply Ascii.eqb_neq.
Qed.

Lemma rev_repeat (c : ascii) (k : nat) : rev (repeat c k) = repeat c k.
Proof.
  induction k as [|k IH]; [reflexivity|]. cbn [repeat rev]. rewrite IH.
  clear IH. induction k as [|k IH]; [reflexivity|].
  cbn [repeat app]. now rewrite IH.
Qed.

(** Stripping slashes at the end. *)
Lemma rstrip_slashes (s : str) :
  exists k,
    s = PyStr.rstrip (Ascii.eqb "/") s ++ repeat "/"%char k
    /\ PyStr.endswith PosixPath.sep (PyStr.rstrip (Ascii.eqb "/") s) = false.
Proof.
  unfold PyStr.rstrip. destruct (lstrip_slashes (rev s)) as (k & E & H).
  exists k. split.
  - apply (f_equal (@rev ascii)) in E.
    rewrite rev_involutive, rev_app_distr, rev_repeat in E. exact E.
  - unfold PyStr.endswith. rewrite rev_involutive. exact H.
Qed.

(** The parent and the leaf of a path that ends with a plain leaf. *)
Lemma dirname_basename_child (X f : str) :
  X <> [] -> PyStr.endswith PosixPath.sep X = false -> ~ In "/"%char f ->
  PosixPath.dirname (X ++ "/"%char :: f) = X
  /\ PosixPath.basename (X ++ "/"%char :: f) = f.
Proof.
  intros HX Hend Hf.
  unfold PosixPath.dirname, PosixPath.basename, PyStr.upto, PyStr.from.
  rewrite (rfind_last "/" X f Hf).
  replace (Z.to_nat (Z.of_nat (length X) + 1)) with (length X + 1) by lia.
  assert (Ehead : firstn (length X + 1) (X ++ "/"%char :: f) = X ++ ["/"%char]).
  { replace (X ++ "/"%char :: f) with ((X ++ ["/"%char]) ++ f)
      by now rewrite <- app_assoc.
    replace (length X + 1) with (length (X ++ ["/"%char]))
      by (rewrite length_app; reflexivity).
    now rewrite firstn_app, Nat.sub_diag, firstn_all, app_nil_r. }
  assert (Etail : skipn (length X + 1) (X ++ "/"%char :: f) = f).
  { replace (X ++ "/"%char :: f) with ((X ++ ["/"%char]) ++ f)
      by now rewrite <- app_assoc.
    replace (length X + 1) with (length (X ++ ["/"%char]))
      by (rewrite length_app; reflexivity).
    now rewrite skipn_app, Nat.sub_diag, skipn_all. }
  rewrite Ehead, Etail. split; [|reflexivity].
  assert (Hnot : PyStr.eqb (X ++ ["/"%char])
                   (concat (repeat PosixPath.sep (length (X ++ ["/"%char]))))
                 = false).
  { apply eqb_neq. rewrite repeat_sep. intros E.
    assert (Hall : all_slashes (X ++ ["/"%char]) = true)
      by (rewrite E; apply all_slashes_repeat).
    unfold all_slashes in Hall. rewrite forallb_app in Hall.
    apply andb_true_iff in Hall as [Hall _].
    unfold PyStr.endswith in Hend.
    destruct (rev X) as [|x r] eqn:Er.
    - apply (f_equal (@rev ascii)) in Er. rewrite rev_involutive in Er.
      contradiction.
    - change (rev PosixPath.sep) with PosixPath.sep in Hend.
      rewrite startswith_sep_cons in Hend.
      rewrite forallb_forall in Hall.
      rewrite (Hall x) in Hend; [discriminate|].
      apply in_rev. rewrite Er. now left. }
  rewrite Hnot. destruct (X ++ ["/"%char]) eqn:E0; [destruct X; discriminate|].
  cbn [PosixPath.is_empty negb andb]. rewrite <- E0.
  unfold PyStr.rstrip. rewrite rev_app_distr. cbn [rev app PyStr.lstrip].
  rewrite Ascii.eqb_refl.
  destruct (rev X) as [|x r] eqn:Er.
  - apply (f_equal (@rev ascii)) in Er. rewrite rev_involutive in Er.
    contradiction.
  - unfold PyStr.endswith in Hend. rewrite Er in Hend.
    change (rev PosixPath.sep) with PosixPath.sep in Hend.
    rewrite startswith_sep_cons in Hend.
    cbn [PyStr.lstrip]. rewrite Hend. rewrite <- Er. apply rev_involutive.
Qed.

Lemma dirname_basename_plain (f : str) :
  ~ In "/"%char f ->
  PosixPath.dirname f = [] /\ PosixPath.basename f = f.
Proof.
  intros Hf. unfold PosixPath.dirname, PosixPath.basename.
  rewrite (rfind_none "/" f Hf). split; reflexivity.
Qed.

End DownloadFacts.

(** X8. The download of the file [f] that lies below the base path
    through the plain names [d1], ..., [dn] goes through the directory
    client of the base path joined with [d1/.../dn] and its file client of
    [f]; the download of a file [f] directly below a base path that is not
    empty and has no slash at its end goes through the directory client of
    the base path.  What the transfer delivers is written to the local
    path, and the transfer's error, if any, is raised. *)
Theorem download_file_address
        (download : str -> str -> list Byte.byte * option exn)
        (self : Repository) (names : list str) (f local_path : str) :
  forallb plain_name names = true -> plain_name f = true ->
  let outcome (dir : str) :=
    ((local_path, fst (download dir f)),
     match snd (download dir f) with
     | None => Ok tt
     | Some e => Raise e
     end) in
  (names <> [] ->
   _download_file download self (path_of (names ++ [f])) local_path
   = outcome (PosixPath.join (base_data_lake_directory self)
                             (path_of names)))
  /\ (base_data_lake_directory self <> [] ->
      PyStr.endswith (lit "/") (base_data_lake_directory self) = false ->
      _download_file download self f local_path
      = outcome (base_data_lake_directory self))
  /\ (base_data_lake_directory self = [] ->
      _download_file download self f local_path = outcome []).
Proof.
  intros Hn Hf outcome.
  destruct (DescentFacts.plain_name_spec f Hf) as (Hfc & _ & _).
  pose proof (DescentFacts.plain_names_components _ Hn) as Hall.
  assert (Hrun : forall remote d,
             download_address self remote = (d, f) ->
             _download_file download self remote local_path = outcome d).
  { intros remote d E. unfold _download_file, outcome. rewrite E.
    destruct (download d f) as [data failure]. reflexivity. }
  split; [|split].
  - intros Hne. apply Hrun. unfold download_address.
    rewrite UploadFacts.path_of_snoc by assumption.
    set (base := base_data_lake_directory self).
    assert (Hstart : PyStr.startswith PosixPath.sep
                       (path_of names ++ PosixPath.sep ++ f) = false).
    { pose proof (DescentFacts.path_of_start _ Hall) as Hs.
      pose proof (DescentFacts.path_of_nonempty _ Hne Hall) as Hp.
      destruct (path_of names); [contradiction | exact Hs]. }
    rewrite (DescentFacts.join_relative base _ Hstart).
    rewrite (DescentFacts.join_relative base _
               (DescentFacts.path_of_start _ Hall)).
    set (s := if PosixPath.is_empty base || PyStr.endswith PosixPath.sep base
              then [] else PosixPath.sep).
    replace (base ++ s ++ path_of names ++ PosixPath.sep ++ f)
      with ((base ++ s ++ path_of names) ++ "/"%char :: f)
      by (rewrite <- !app_assoc; reflexivity).
    destruct (DownloadFacts.dirname_basename_child
                (base ++ s ++ path_of names) f) as [-> ->];
      try reflexivity.
    + pose proof (DescentFacts.path_of_nonempty _ Hne Hall) as Hp.
      intros E. apply app_eq_nil in E as [_ E].
      apply app_eq_nil in E as [_ E]. contradiction.
    + rewrite app_assoc, PathFacts.endswith_sep_app.
      * now apply UploadFacts.path_of_end.
      * now apply DescentFacts.path_of_nonempty.
    + apply Hfc.
  - intros Hb He. apply Hrun. unfold download_address.
    rewrite (DescentFacts.join_relative _ f
               (PathFacts.component_start f Hfc)).
    change (lit "/") with PosixPath.sep in He. rewrite He.
    destruct (base_data_lake_directory self) as [|b base] eqn:Eb;
      [contradiction|].
    cbn [PosixPath.is_empty orb].
    change ((b :: base) ++ PosixPath.sep ++ f)
      with ((b :: base) ++ "/"%char :: f).
    destruct (DownloadFacts.dirname_basename_child (b :: base) f)
      as [-> ->]; try reflexivity; try assumption.
    apply Hfc.
  - intros Hb. apply Hrun. unfold download_address. rewrite Hb.
    rewrite (DescentFacts.join_relative [] f
               (PathFacts.component_start f Hfc)).
    cbn [PosixPath.is_empty orb app].
    destruct (DownloadFacts.dirname_basename_plain f) as [-> ->];
      [apply Hfc | reflexivity].
Qed.

Lemma download_file_address_witness :
  _download_file Sample.breaks (Sample.repo []) (lit "sub/inner/b.bin")
                 (lit "/tmp/b.bin")
  = ((lit "/tmp/b.bin", [Byte.x01]),
     Raise (ValueError (lit "connection lost")))
  /\ download_address (Sample.repo []) (lit "sub/inner/b.bin")
     = (lit "root/sub/inner", lit "b.bin").
Proof.
  split; [|reflexivity].
  refine (proj1 (download_file_address Sample.breaks (Sample.repo [])
                   [lit "sub"; lit "inner"] (lit "b.bin") (lit "/tmp/b.bin")
                   eq_refl eq_refl) _).
  discriminate.
Defined.

(** X9. Whatever the base path and the remote path, the file client of a
    download is named by what follows the last slash of the joined path,
    which holds no slash and is empty when the joined path ends with a
    slash; the joined path is the directory, then slashes, then that name;
    and the directory ends with a slash only if it consists of slashes. *)
Theorem download_address_splits (self : Repository) (remote : str) :
  let full := PosixPath.join (base_data_lake_directory self) remote in
  let dir := fst (download_address self remote) in
  let file := snd (download_address self remote) in
  ~ In "/"%char file
  /\ (exists k, full = dir ++ repeat "/"%char k ++ file)
  /\ (PyStr.endswith (lit "/") full = true -> file = [])
  /\ (all_slashes dir = true \/ PyStr.endswith (lit "/") dir = false).
Proof.
  intros full dir file.
  destruct (DownloadFacts.rfind_split "/" full)
    as (h & t & Efull & Ht & Hh & Hr).
  assert (Efile : file = t).
  { unfold file, download_address. cbn [snd]. fold full.
    unfold PosixPath.basename, PyStr.from. rewrite Hr, Nat2Z.id, Efull.
    now rewrite skipn_app, Nat.sub_diag, skipn_all. }
  assert (Ehead : PyStr.upto (PyStr.rfind "/" full + 1) full = h).
  { unfold PyStr.upto. rewrite Hr, Nat2Z.id, Efull.
    now rewrite firstn_app, Nat.sub_diag, firstn_all, app_nil_r. }
  assert (Edir : dir = if negb (PosixPath.is_empty h)
                          && negb (PyStr.eqb h (repeat "/"%char (length h)))
                       then PyStr.rstrip (Ascii.eqb "/") h else h).
  { unfold dir, download_address. cbn [fst]. fold full.
    unfold PosixPath.dirname. rewrite Ehead, DownloadFacts.repeat_sep.
    reflexivity. }
  rewrite Efile. split; [exact Ht|].
  destruct (DownloadFacts.rstrip_slashes h) as (k & Ek & Hk).
  split; [|split].
  - rewrite Edir.
    destruct (negb (PosixPath.is_empty h)
              && negb (PyStr.eqb h (repeat "/"%char (length h)))).
    + exists k. rewrite Efull. rewrite Ek at 1. now rewrite <- app_assoc.
    + exists 0. exact Efull.
  - intros Hend. destruct t as [|x t]; [reflexivity|]. exfalso.
    change (lit "/") with PosixPath.sep in Hend.
    rewrite Efull, PathFacts.endswith_sep_app in Hend by discriminate.
    assert (Hc : is_component (x :: t)) by (split; [discriminate | exact Ht]).
    rewrite (PathFacts.component_end _ Hc) in Hend. discriminate.
  - rewrite Edir. change (lit "/") with PosixPath.sep.
    destruct (PosixPath.is_empty h) eqn:E1; cbn [negb andb].
    + left. destruct h; [reflexivity | discriminate].
    + destruct (PyStr.eqb h (repeat "/"%char (length h))) eqn:E2;
        cbn [negb].
      * left. apply PyStrFacts.eqb_eq in E2. rewrite E2.
        apply DownloadFacts.all_slashes_repeat.
      * right. exact Hk.
Qed.

(** ** The resolver: what it lets through and what it returns *)

Module ResolverMore.
Import PyStrFacts UrlFacts ResolverFacts.

Lemma remove_incl (c x : ascii) (s : str) :
  In x (PyStr.remove c s) -> In x s /\ x <> c.
Proof.
  unfold PyStr.remove. rewrite filter_In, negb_true_iff, Ascii.eqb_neq.
  tauto.
Qed.

(** What is left of a URL holds no tab and no line break. *)
Lemma sanitize_clean (url : str) (x : ascii) :
  In x (UrlParse.sanitize url) ->
  In x url /\ ~ In x UrlParse.unsafe_url_bytes.
Proof.
  unfold UrlParse.sanitize. cbn [fold_left UrlParse.unsafe_url_bytes].
  intros H.
  apply remove_incl in H as [H H3]. apply remove_incl in H as [H H2].
  apply remove_incl in H as [H H1]. split.
  - clear - H. induction url as [|c url IH]; cbn [PyStr.lstrip] in H;
      [contradiction|].
    destruct (UrlParse.c0_control_or_space c); [right; now apply IH | exact H].
  - intros [E|[E|[E|[]]]]; [apply H1 | apply H2 | apply H3];
      symmetry; exact E.
Qed.

Lemma skipn_incl (A : Type) (n : nat) (l : list A) (x : A) :
  In x (skipn n l) -> In x l.
Proof.
  intros H. rewrite <- (firstn_skipn n l). apply in_or_app. now right.
Qed.

Lemma split_scheme_incl (url : str) (x : ascii) :
  In x (snd (UrlParse.split_scheme url)) -> In x url.
Proof.
  unfold UrlParse.split_scheme.
  match goal with |- context [if ?b then _ else _] => destruct b end;
    cbn [snd]; [|tauto].
  unfold PyStr.from. apply skipn_incl.
Qed.

Lemma splitnetloc_spec (u : str) :
  u = fst (UrlParse.splitnetloc u) ++ snd (UrlParse.splitnetloc u)
  /\ forall x, In x (fst (UrlParse.splitnetloc u)) ->
               UrlParse.is_delim x = false.
Proof.
  induction u as [|c u [IH1 IH2]]; cbn [UrlParse.splitnetloc].
  - split; [reflexivity | contradiction].
  - destruct (UrlParse.is_delim c) eqn:E; cbn [fst snd app].
    + split; [reflexivity | contradiction].
    + destruct (UrlParse.splitnetloc u) as [n r]. cbn [fst snd app] in *.
      split; [now f_equal|]. intros x [<-|Hx]; auto.
Qed.

Lemma split_authority_spec (ok : str -> bool) (url netloc rest : str) :
  UrlParse.split_authority ok url = Ok (netloc, rest) ->
  (forall x, In x netloc -> In x url /\ UrlParse.is_delim x = false)
  /\ (forall x, In x rest -> In x url).
Proof.
  unfold UrlParse.split_authority.
  destruct (PyStr.startswith (lit "//") url).
  - destruct (splitnetloc_spec (skipn 2 url)) as [E Hd].
    destruct (UrlParse.splitnetloc (skipn 2 url)) as [n r].
    cbn [fst snd] in *.
    match goal with |- context [if ?b then _ else _] => destruct b end;
      [discriminate|].
    match goal with |- context [if ?b then _ else _] => destruct b end;
      [discriminate|].
    intros H. injection H as <- <-. split.
    + intros x Hx. split; [|now apply Hd].
      apply (skipn_incl _ 2). rewrite E. apply in_or_app. now left.
    + intros x Hx. apply (skipn_incl _ 2). rewrite E.
      apply in_or_app. now right.
  - intros H. injection H as <- <-. split; [contradiction | tauto].
Qed.

Lemma split1_spec (c : ascii) (s : str) :
  (forall x, In x (fst (PyStr.split1 c s)) -> In x s /\ x <> c).
Proof.
  induction s as [|y s IH]; cbn [PyStr.split1]; [contradiction|].
  destruct (Ascii.eqb_spec y c) as [->|Hy]; cbn [fst]; [contradiction|].
  destruct (PyStr.split1 c s) as [a b]. cbn [fst] in *.
  intros x [<-|Hx].
  - split; [now left | assumption].
  - destruct (IH x Hx). split; [now right | assumption].
Qed.

(** The path left after the fragment and the query are cut off. *)
Lemma split_fragment_query_spec (url : str) (x : ascii) :
  In x (fst (fst (UrlParse.split_fragment_query url))) ->
  In x url /\ x <> "?"%char /\ x <> "#"%char.
Proof.
  unfold UrlParse.split_fragment_query.
  destruct (PyStr.contains "#" url) eqn:Ef.
  - pose proof (split1_spec "#" url) as Hs.
    destruct (PyStr.split1 "#" url) as [u1 fr]. cbn [fst] in Hs.
    destruct (PyStr.contains "?" u1) eqn:Eq.
    + pose proof (split1_spec "?" u1) as Hq.
      destruct (PyStr.split1 "?" u1) as [u2 q]. cbn [fst] in *.
      intros H. destruct (Hq x H) as [H1 H2]. destruct (Hs x H1).
      now repeat split.
    + cbn [fst]. intros H. destruct (Hs x H). repeat split; auto.
      intros ->. apply contains_false in Eq. contradiction.
  - destruct (PyStr.contains "?" url) eqn:Eq.
    + pose proof (split1_spec "?" url) as Hq.
      destruct (PyStr.split1 "?" url) as [u2 q]. cbn [fst] in *.
      intros H. destruct (Hq x H) as [H1 H2]. repeat split; auto.
      intros ->. apply contains_false in Ef. contradiction.
    + cbn [fst]. intros H. repeat split; auto.
      * intros ->. apply contains_false in Eq. contradiction.
      * intros ->. apply contains_false in Ef. contradiction.
Qed.

(** The authority and the path of a parsed URL of the scheme. *)
Lemma urlparse_fields (ok : str -> bool) (uri : str)
      (parsed : UrlParse.ParseResult) :
  UrlParse.urlparse ok uri = Ok parsed ->
  UrlParse.scheme parsed = lit "abfss" ->
  (forall x, In x (UrlParse.netloc parsed) ->
             UrlParse.is_delim x = false
             /\ ~ In x UrlParse.unsafe_url_bytes)
  /\ (forall x, In x (UrlParse.path parsed) ->
                x <> "?"%char /\ x <> "#"%char
                /\ ~ In x UrlParse.unsafe_url_bytes).
Proof.
  unfold UrlParse.urlparse, UrlParse.urlsplit. intros H Hs.
  pose proof (split_scheme_incl (UrlParse.sanitize uri)) as Hsch.
  destruct (UrlParse.split_scheme (UrlParse.sanitize uri)) as [sch u1].
  cbn [snd] in Hsch.
  destruct (UrlParse.split_authority ok u1) as [[n u2]|e] eqn:Ea;
    cbn [bind] in H; [|discriminate].
  destruct (split_authority_spec ok u1 n u2 Ea) as [Hn Hu2].
  pose proof (split_fragment_query_spec u2) as Hfq.
  destruct (UrlParse.split_fragment_query u2) as [[p q] f].
  cbn [fst bind] in *.
  destruct (existsb (PyStr.eqb sch) UrlParse.uses_params
            && PyStr.contains ";" p) eqn:Ep.
  - (* the scheme would have to be one of those with parameters *)
    exfalso. destruct (UrlParse.splitparams p) as [p' pa].
    injection H as <-. cbn [UrlParse.scheme] in Hs. subst sch.
    discriminate Ep.
  - injection H as <-. cbn [UrlParse.netloc UrlParse.path]. split.
    + intros x Hx. destruct (Hn x Hx) as [H1 H2]. split; [assumption|].
      apply (sanitize_clean uri). now apply Hsch.
    + intros x Hx. destruct (Hfq x Hx) as (H1 & H2 & H3).
      repeat split; try assumption.
      apply (sanitize_clean uri). now apply Hsch, Hu2.
Qed.

Lemma strip_incl (p : str) (x : ascii) :
  In x (strip_leading_slash p) -> In x p.
Proof.
  destruct p as [|c p]; [tauto|]. cbn [strip_leading_slash].
  destruct c as [[] [] [] [] [] [] [] []]; cbn; tauto.
Qed.

Lemma lower_char_cases (c d : ascii) :
  In d (lit "abfs") -> PyStr.lower_char c = d ->
  c = d \/ c = ascii_of_nat (nat_of_ascii d - 32).
Proof.
  intros Hd. cbn in Hd.
  destruct Hd as [<-|[<-|[<-|[<-|[]]]]];
    destruct c as [[] [] [] [] [] [] [] []]; cbv; intros H;
      try discriminate H; auto.
Qed.

(** The spellings of the scheme. *)
Lemma spelling_cases (sch : str) :
  is_abfss_spelling sch = true ->
  exists c1 c2 c3 c4 c5,
    sch = [c1; c2; c3; c4; c5]
    /\ (c1 = "a" \/ c1 = "A")%char /\ (c2 = "b" \/ c2 = "B")%char
    /\ (c3 = "f" \/ c3 = "F")%char /\ (c4 = "s" \/ c4 = "S")%char
    /\ (c5 = "s" \/ c5 = "S")%char.
Proof.
  unfold is_abfss_spelling. intros H. apply eqb_eq in H.
  destruct sch as [|c1 [|c2 [|c3 [|c4 [|c5 [|c6 sch]]]]]];
    try discriminate H.
  cbn [PyStr.lower map lit list_ascii_of_string] in H.
  injection H as H1 H2 H3 H4 H5.
  exists c1, c2, c3, c4, c5. split; [reflexivity|].
  repeat split.
  - apply (lower_char_cases c1 "a"); [cbn; tauto | assumption].
  - apply (lower_char_cases c2 "b"); [cbn; tauto | assumption].
  - apply (lower_char_cases c3 "f"); [cbn; tauto | assumption].
  - apply (lower_char_cases c4 "s"); [cbn; tauto | assumption].
  - apply (lower_char_cases c5 "s"); [cbn; tauto | assumption].
Qed.

(** The first steps of URL splitting on a URL that spells the scheme. *)
Lemma spelled_prefix (sch : str) :
  is_abfss_spelling sch = true ->
  (forall rest,
      UrlParse.sanitize (sch ++ lit "://" ++ rest)
      = sch ++ lit "://"
            ++ fold_left (fun u b => PyStr.remove b u)
                         UrlParse.unsafe_url_bytes rest)
  /\ (forall r, UrlParse.split_scheme (sch ++ lit ":" ++ r)
                = (lit "abfss", r)).
Proof.
  intros H.
  destruct (spelling_cases sch H)
    as (c1 & c2 & c3 & c4 & c5 & -> & H1 & H2 & H3 & H4 & H5).
  destruct H1 as [-> | ->], H2 as [-> | ->], H3 as [-> | ->],
           H4 as [-> | ->], H5 as [-> | ->];
    (split; [intros rest; reflexivity | intros r; reflexivity]).
Qed.

(** URL parsing of a URI that spells the scheme in any case: authority
    [a], path component [p], and a query or fragment [t] after it. *)
Lemma urlparse_spelled (ok : str -> bool) (sch a p t : str) :
  is_abfss_spelling sch = true ->
  none_of (lit "/?#[]" ++ UrlParse.unsafe_url_bytes) a = true ->
  is_path_component p = true ->
  is_uri_tail t = true ->
  exists q f,
    UrlParse.urlparse ok (sch ++ lit "://" ++ a ++ p ++ t)
    = Ok (UrlParse.mkParseResult (lit "abfss") a p [] q f).
Proof.
  intros Hsch Ha Hp Ht.
  destruct (spelled_prefix sch Hsch) as [Hsan Hsplit].
  unfold is_path_component in Hp. apply andb_true_iff in Hp as [Hp0 Hp].
  assert (Hau : none_of UrlParse.unsafe_url_bytes a = true).
  { apply (none_of_weaken (lit "/?#[]" ++ UrlParse.unsafe_url_bytes));
      [|assumption]. intros c Hc. apply in_or_app. now right. }
  assert (Had : none_of (lit "/?#[]") a = true).
  { apply (none_of_weaken (lit "/?#[]" ++ UrlParse.unsafe_url_bytes));
      [|assumption]. intros c Hc. apply in_or_app. now left. }
  assert (Hpu : none_of UrlParse.unsafe_url_bytes p = true).
  { apply (none_of_weaken (lit "?#" ++ UrlParse.unsafe_url_bytes));
      [|assumption]. intros c Hc. apply in_or_app. now right. }
  assert (Hpd : none_of (lit "?#") p = true).
  { apply (none_of_weaken (lit "?#" ++ UrlParse.unsafe_url_bytes));
      [|assumption]. intros c Hc. apply in_or_app. now left. }
  pose proof (remove_unsafe_tail t Ht) as Ht'.
  set (t' := fold_left (fun u c => PyStr.remove c u)
                       UrlParse.unsafe_url_bytes t) in *.
  destruct (split_fragment_query_path p t' Hpd Ht') as (q & f & Hfq).
  exists q, f.
  unfold UrlParse.urlparse, UrlParse.urlsplit.
  rewrite Hsan, !remove_unsafe_app.
  rewrite (remove_unsafe_id a Hau), (remove_unsafe_id p Hpu). fold t'.
  change (sch ++ lit "://" ++ a ++ p ++ t')
    with (sch ++ lit ":" ++ lit "//" ++ a ++ p ++ t').
  rewrite Hsplit.
  rewrite (split_authority_plain ok a (p ++ t') Had).
  - cbn [bind]. rewrite Hfq. reflexivity.
  - destruct p as [|c p].
    + destruct t' as [|c t'']; [reflexivity|].
      cbn [app]. apply is_delim_spec. simpl in Ht'.
      apply orb_true_iff in Ht'.
      destruct Ht' as [E|E]; apply Ascii.eqb_eq in E; subst c;
        simpl; tauto.
    + cbn [app]. apply is_delim_spec.
      cbn [PosixPath.is_empty orb PyStr.startswith lit
             list_ascii_of_string] in Hp0.
      rewrite andb_true_r in Hp0. apply Ascii.eqb_eq in Hp0. subst c.
      simpl. tauto.
Qed.

(** The resolver on a URI that spells the scheme in any case and whose
    authority goes on after the fixed suffix. *)
Lemma parse_spelled (ok : str -> bool) (sch ns acct extra p t : str) :
  is_abfss_spelling sch = true ->
  is_filesystem_name ns = true ->
  is_account_name acct = true ->
  none_of (lit "/?#[]" ++ UrlParse.unsafe_url_bytes) extra = true ->
  is_path_component p = true ->
  is_uri_tail t = true ->
  _parse_abfss_uri ok
    (sch ++ lit "://" ++ ns ++ lit "@" ++ acct ++ dfs_suffix ++ extra
         ++ p ++ t)
  = Ok (ns, acct, strip_leading_slash p).
Proof.
  intros Hsch Hns Hacct Hextra Hp Ht.
  unfold is_filesystem_name in Hns. apply andb_true_iff in Hns as [Hn0 Hns].
  unfold is_account_name in Hacct.
  apply andb_true_iff in Hacct as [Ha0 Hacct].
  assert (Hshape : authority_shape
                     (ns ++ lit "@" ++ acct ++ dfs_suffix ++ extra)
                     ns acct extra).
  { unfold authority_shape. repeat split.
    - destruct ns; [discriminate | congruence].
    - apply (none_of_In _ _ _ Hns). simpl. tauto.
    - destruct acct; [discriminate | congruence].
    - apply (none_of_In _ _ _ Hacct). simpl. tauto. }
  assert (Hauth : none_of (lit "/?#[]" ++ UrlParse.unsafe_url_bytes)
                          (ns ++ lit "@" ++ acct ++ dfs_suffix ++ extra)
                  = true).
  { assert (H1 : none_of (lit "/?#[]" ++ UrlParse.unsafe_url_bytes) ns
                 = true).
    { apply (none_of_weaken (lit "@/?#[]" ++ UrlParse.unsafe_url_bytes));
        [|assumption]. intros c Hc. simpl in *. tauto. }
    assert (H2 : none_of (lit "/?#[]" ++ UrlParse.unsafe_url_bytes) acct
                 = true).
    { apply (none_of_weaken (lit "./?#[]" ++ UrlParse.unsafe_url_bytes));
        [|assumption]. intros c Hc. simpl in *. tauto. }
    unfold none_of in *. rewrite !forallb_app, H1, H2, Hextra. reflexivity. }
  destruct (urlparse_spelled ok sch _ p t Hsch Hauth Hp Ht)
    as (q & f & Hparse).
  replace (sch ++ lit "://" ++ ns ++ lit "@" ++ acct ++ dfs_suffix ++ extra
               ++ p ++ t)
    with (sch ++ lit "://"
              ++ (ns ++ lit "@" ++ acct ++ dfs_suffix ++ extra) ++ p ++ t)
    by (now rewrite <- !app_assoc).
  rewrite (parse_of_parsed ok _ _ Hparse).
  cbn [UrlParse.scheme UrlParse.netloc UrlParse.path].
  rewrite eqb_refl, (match_complete _ _ _ _ Hshape). reflexivity.
Qed.

End ResolverMore.

Module AuthorityFacts.
Import PyStrFacts ResolverFacts.

(** An authority that lacks a part does not begin with the shape. *)
Lemma malformed_no_shape (a : str) :
  malformed_authority a ->
  ~ exists ns acct extra, authority_shape a ns acct extra.
Proof.
  intros H (ns' & acct' & extra' & E & Hn & Hat & Ha & Hdot).
  destruct H as [a H | r | ns acct H1 H2 | ns r H1 | ns acct r H1 H2 H3].
  - apply H. rewrite E. apply in_or_app. right. now left.
  - destruct ns' as [|c ns']; [congruence|].
    cbn [app] in E. injection E as <- _. apply Hat. now left.
  - change (lit "@" ++ acct) with ("@"%char :: acct) in E.
    change (lit "@" ++ acct' ++ dfs_suffix ++ extra')
      with ("@"%char :: acct' ++ dfs_suffix ++ extra') in E.
    apply (first_occurrence_unique "@") in E as [_ E]; try assumption.
    apply H2. rewrite E. apply in_or_app. right. now left.
  - change (lit "@." ++ r) with ("@"%char :: "."%char :: r) in E.
    change (lit "@" ++ acct' ++ dfs_suffix ++ extra')
      with ("@"%char :: acct' ++ dfs_suffix ++ extra') in E.
    apply (first_occurrence_unique "@") in E as [_ E]; try assumption.
    destruct acct' as [|c acct']; [congruence|].
    cbn [app] in E. injection E as <- _. apply Hdot. now left.
  - change (lit "@" ++ acct ++ lit "." ++ r)
      with ("@"%char :: acct ++ "."%char :: r) in E.
    change (lit "@" ++ acct' ++ dfs_suffix ++ extra')
      with ("@"%char :: acct' ++ "."%char
              :: lit "dfs.core.windows.net" ++ extra') in E.
    apply (first_occurrence_unique "@") in E as [_ E]; try assumption.
    apply (first_occurrence_unique ".") in E as [_ E]; try assumption.
    rewrite E, startswith_app in H3. discriminate.
Qed.

End AuthorityFacts.

(** X10. Whatever stands in the authority after the fixed suffix and
    before the path, a port or further labels of a host name, is accepted
    and dropped: the resolver returns the two names and the path, and the
    repository is built on the account URL
    [https://<account>.dfs.core.windows.net], with the URI kept as given
    and the path without its leading slash as base path. *)
Theorem init_ignores_text_after_suffix
        (ok : str -> bool) (Credential : Type)
        (service : str -> Credential -> str -> FileSystemClient)
        (credential : Credential) (configured : option Z)
        (ns acct extra p t : str) :
  is_filesystem_name ns = true ->
  is_account_name acct = true ->
  none_of (lit "/?#[]" ++ UrlParse.unsafe_url_bytes) extra = true ->
  is_path_component p = true ->
  is_uri_tail t = true ->
  let uri :=
    lit "abfss://" ++ ns ++ lit "@" ++ acct ++ dfs_suffix ++ extra
        ++ p ++ t in
  _parse_abfss_uri ok uri = Ok (ns, acct, strip_leading_slash p)
  /\ __init__ ok service uri credential configured
     = Ok (mkRepository uri
             (match configured with
              | Some v => if (v =? 0)%Z then 600%Z else v
              | None => 600%Z
              end)
             (service (lit "https://" ++ acct ++ dfs_suffix) credential ns)
             (strip_leading_slash p)).
Proof.
  intros Hns Hacct Hextra Hp Ht uri.
  assert (E : _parse_abfss_uri ok uri = Ok (ns, acct, strip_leading_slash p)).
  { exact (ResolverMore.parse_spelled ok (lit "abfss") ns acct extra p t
             eq_refl Hns Hacct Hextra Hp Ht). }
  split; [exact E|].
  unfold __init__. rewrite E. reflexivity.
Qed.

Lemma init_ignores_text_after_suffix_witness :
  is_filesystem_name (lit "fs") = true
  /\ is_account_name (lit "acct") = true
  /\ none_of (lit "/?#[]" ++ UrlParse.unsafe_url_bytes)
             (lit ".example.org:8443") = true
  /\ is_path_component (lit "/root") = true
  /\ is_uri_tail [] = true
  /\ _parse_abfss_uri Sample.host_ok
       (lit "abfss://fs@acct.dfs.core.windows.net.example.org:8443/root")
     = Ok (lit "fs", lit "acct", lit "root").
Proof.
  refine (conj eq_refl (conj eq_refl (conj eq_refl (conj eq_refl
            (conj eq_refl _))))).
  exact (proj1
    (init_ignores_text_after_suffix Sample.host_ok unit Sample.service tt
       None (lit "fs") (lit "acct") (lit ".example.org:8443") (lit "/root")
       [] eq_refl eq_refl eq_refl eq_refl eq_refl)).
Defined.

(** X11. The scheme is recognised in any mix of upper and lower case: a
    URI of the valid form whose scheme is spelled so is resolved like the
    one spelled [abfss]. *)
Theorem parse_abfss_scheme_any_case
        (ok : str -> bool) (sch ns acct p t : str) :
  is_abfss_spelling sch = true ->
  is_filesystem_name ns = true ->
  is_account_name acct = true ->
  is_path_component p = true ->
  is_uri_tail t = true ->
  _parse_abfss_uri ok
    (sch ++ lit "://" ++ ns ++ lit "@" ++ acct ++ dfs_suffix ++ p ++ t)
  = Ok (ns, acct, strip_leading_slash p).
Proof.
  intros Hsch Hns Hacct Hp Ht.
  exact (ResolverMore.parse_spelled ok sch ns acct [] p t
           Hsch Hns Hacct eq_refl Hp Ht).
Qed.

Lemma parse_abfss_scheme_any_case_witness :
  is_abfss_spelling (lit "AbFsS") = true
  /\ _parse_abfss_uri Sample.host_ok
       (lit "AbFsS://fs@acct.dfs.core.windows.net/root")
     = Ok (lit "fs", lit "acct", lit "root").
Proof.
  refine (conj eq_refl _).
  exact (parse_abfss_scheme_any_case Sample.host_ok (lit "AbFsS") (lit "fs")
           (lit "acct") (lit "/root") [] eq_refl eq_refl eq_refl eq_refl
           eq_refl).
Defined.

(** X12. Whatever the input, the names that the resolver returns are
    usable: the filesystem is not empty and holds no [@], the account is
    not empty and holds no dot, neither holds a slash, a question mark, a
    hash sign, a tab or a line break, and the path holds no question mark,
    hash sign, tab or line break. *)
Theorem parse_abfss_result_names
        (ok : str -> bool) (uri fs acct p : str) :
  _parse_abfss_uri ok uri = Ok (fs, acct, p) ->
  (fs <> [] /\ ~ In "@"%char fs)
  /\ (acct <> [] /\ ~ In "."%char acct)
  /\ (forall c, In c (lit "/?#" ++ UrlParse.unsafe_url_bytes) ->
                ~ In c fs /\ ~ In c acct)
  /\ (forall c, In c (lit "?#" ++ UrlParse.unsafe_url_bytes) -> ~ In c p).
Proof.
  intros H.
  destruct (UrlParse.urlparse ok uri) as [parsed|e] eqn:Hu;
    [|unfold _parse_abfss_uri in H; rewrite Hu in H; discriminate H].
  rewrite (ResolverFacts.parse_of_parsed ok uri parsed Hu) in H.
  destruct (PyStr.eqb (UrlParse.scheme parsed) (lit "abfss")) eqn:Hs;
    [|discriminate].
  apply PyStrFacts.eqb_eq in Hs.
  destruct (Re.match_ abfss_netloc_re (UrlParse.netloc parsed))
    as [m|] eqn:Hm; [|discriminate].
  destruct (ResolverFacts.match_sound _ _ Hm)
    as (ns & ac & extra & -> & Hshape).
  injection H as <- <- <-.
  destruct Hshape as (En & Hn0 & Hat & Ha0 & Hdot).
  destruct (ResolverMore.urlparse_fields ok uri parsed Hu Hs)
    as [Hnet Hpath].
  assert (Hin : forall x, In x ns \/ In x ac ->
                          In x (UrlParse.netloc parsed)).
  { intros x Hx. rewrite En. apply in_or_app.
    destruct Hx as [Hx|Hx]; [now left|]. right.
    change (lit "@" ++ ac ++ dfs_suffix ++ extra)
      with ("@"%char :: ac ++ dfs_suffix ++ extra).
    right. apply in_or_app. now left. }
  repeat split; try assumption.
  - intros Hc'. destruct (Hnet c (Hin c (or_introl Hc'))) as [Hd Hu'].
    apply in_app_or in H as [H|H]; [|contradiction].
    unfold UrlParse.is_delim in Hd.
    cbn in H. destruct H as [<-|[<-|[<-|[]]]]; discriminate Hd.
  - intros Hc'. destruct (Hnet c (Hin c (or_intror Hc'))) as [Hd Hu'].
    apply in_app_or in H as [H|H]; [|contradiction].
    unfold UrlParse.is_delim in Hd.
    cbn in H. destruct H as [<-|[<-|[<-|[]]]]; discriminate Hd.
  - intros c Hc Hc'. apply ResolverMore.strip_incl in Hc'.
    destruct (Hpath c Hc') as (H1 & H2 & H3).
    apply in_app_or in Hc as [Hc|Hc]; [|contradiction].
    cbn in Hc. destruct Hc as [<-|[<-|[]]]; congruence.
Qed.

Lemma parse_abfss_result_names_witness :
  _parse_abfss_uri Sample.host_ok Sample.uri
  = Ok (lit "fs", lit "acct", lit "root")
  /\ ~ In "."%char (lit "acct").
Proof.
  refine (conj eq_refl _).
  exact (proj2 (proj1 (proj2
    (parse_abfss_result_names Sample.host_ok Sample.uri (lit "fs")
       (lit "acct") (lit "root") eq_refl)))).
Defined.

(** X13. One slash only is taken off the path: the base path that comes
    out of a URI of the valid form is rooted exactly when the path of the
    URI starts with two slashes. *)
Theorem parse_abfss_rooted_base
        (ok : str -> bool) (ns acct p t : str) :
  is_filesystem_name ns = true ->
  is_account_name acct = true ->
  is_path_component p = true ->
  is_uri_tail t = true ->
  exists base,
    _parse_abfss_uri ok
      (lit "abfss://" ++ ns ++ lit "@" ++ acct ++ dfs_suffix ++ p ++ t)
    = Ok (ns, acct, base)
    /\ PosixPath.isabs base = PyStr.startswith (lit "//") p
    /\ (PosixPath.isabs base = false -> p = [] \/ p = lit "/" ++ base).
Proof.
  intros Hns Hacct Hp Ht.
  exists (strip_leading_slash p). split; [|split].
  - exact (ResolverMore.parse_spelled ok (lit "abfss") ns acct [] p t
             eq_refl Hns Hacct eq_refl Hp Ht).
  - unfold is_path_component in Hp. apply andb_true_iff in Hp as [Hp _].
    destruct p as [|c p]; [reflexivity|].
    cbn [PosixPath.is_empty orb] in Hp.
    cbn [PyStr.startswith lit list_ascii_of_string] in Hp.
    rewrite andb_true_r in Hp. apply Ascii.eqb_eq in Hp. subst c.
    cbn [strip_leading_slash]. unfold PosixPath.isabs.
    destruct p as [|d p]; reflexivity.
  - intros _.
    unfold is_path_component in Hp. apply andb_true_iff in Hp as [Hp _].
    destruct p as [|c p]; [now left|]. right.
    cbn [PosixPath.is_empty orb] in Hp.
    cbn [PyStr.startswith lit list_ascii_of_string] in Hp.
    rewrite andb_true_r in Hp. apply Ascii.eqb_eq in Hp. subst c.
    reflexivity.
Qed.

Lemma parse_abfss_rooted_base_witness :
  is_path_component (lit "//data/run") = true
  /\ exists base,
      _parse_abfss_uri Sample.host_ok
        (lit "abfss://fs@acct.dfs.core.windows.net//data/run")
      = Ok (lit "fs", lit "acct", base)
      /\ PosixPath.isabs base = true.
Proof.
  refine (conj eq_refl _).
  destruct (parse_abfss_rooted_base Sample.host_ok (lit "fs") (lit "acct")
              (lit "//data/run") [] eq_refl eq_refl eq_refl eq_refl)
    as (base & E & Habs & _).
  exists base. split; [exact E | exact Habs].
Defined.

(** X14. An authority that lacks a part of
    [<filesystem>@<account>.dfs.core.windows.net] is refused with the
    authority error: one without [@], one that starts with [@], one with
    no dot after its first [@], one with a dot right after its first [@],
    and one where something else than the fixed domain follows the first
    dot after the first [@]. *)
Theorem parse_abfss_malformed_authority
        (ok : str -> bool) (a p t : str) :
  none_of (lit "/?#[]" ++ UrlParse.unsafe_url_bytes) a = true ->
  is_path_component p = true ->
  is_uri_tail t = true ->
  malformed_authority a ->
  _parse_abfss_uri ok (lit "abfss://" ++ a ++ p ++ t)
  = Raise bad_abfss_authority.
Proof.
  intros Ha Hp Ht Hbad.
  destruct (ResolverFacts.urlparse_abfss ok a p t Ha Hp Ht)
    as (q & f & Hparse).
  rewrite (ResolverFacts.parse_of_parsed ok _ _ Hparse).
  cbn [UrlParse.scheme UrlParse.netloc UrlParse.path].
  rewrite PyStrFacts.eqb_refl.
  apply AuthorityFacts.malformed_no_shape in Hbad.
  apply ResolverFacts.match_none in Hbad. now rewrite Hbad.
Qed.

Lemma parse_abfss_malformed_authority_witness :
  malformed_authority (lit "fs@acct.blob.core.windows.net")
  /\ _parse_abfss_uri Sample.host_ok
       (lit "abfss://fs@acct.blob.core.windows.net/root")
     = Raise bad_abfss_authority.
Proof.
  assert (H : malformed_authority (lit "fs@acct.blob.core.windows.net")).
  { apply (other_domain (lit "fs") (lit "acct")
             (lit "blob.core.windows.net")); [| | reflexivity];
      cbn; intuition discriminate. }
  refine (conj H _).
  exact (parse_abfss_malformed_authority Sample.host_ok
           (lit "fs@acct.blob.core.windows.net") (lit "/root") []
           eq_refl eq_refl eq_refl H).
Defined.

(** X15. Below a base path that is not empty and does not end with a
    slash, a listing of a relative path that produces exactly one entry,
    not a directory, whose path is the path asked for, returns the empty
    list; so does a listing in which the backend returns one file in all
    whose name, relative to the base path, is the path asked for. *)
Theorem list_artifacts_single_file_below_base
        (cwd : str) (self : Repository) (p : str) :
  base_data_lake_directory self <> [] ->
  PyStr.endswith PosixPath.sep (base_data_lake_directory self) = false ->
  p <> [] -> PyStr.startswith PosixPath.sep p = false ->
  (forall info,
      list_infos cwd self (Some p) = Ok [info] ->
      FileInfo.is_dir info = false ->
      FileInfo.path info = p ->
      list_artifacts cwd self (Some p) = Ok [])
  /\ (forall r,
         get_paths (fs_client self) (list_target self (Some p)) false
         = Ok [r] ->
         is_directory r = false ->
         PosixPath.relpath cwd (name r) (base_data_lake_directory self)
         = Ok p ->
         list_artifacts cwd self (Some p) = Ok []).
Proof.
  intros Hb He Hp Hs.
  pose proof (rel_path_of_relative self p Hb He Hp Hs) as Hrel.
  unfold rel_path_of in Hrel.
  destruct (list_artifacts_single_file cwd self (Some p)) as [H1 H2].
  split.
  - intros info Hinfos Hfile Hpath. apply (H1 info Hinfos Hfile).
    now rewrite Hrel.
  - intros r Hg Hfile Hr. apply (H2 r Hg Hfile). now rewrite Hrel.
Qed.

Lemma list_artifacts_single_file_below_base_witness :
  let self := Sample.repo Sample.lone_file in
  let info := FileInfo.mk (lit "f.txt") false (Some 3%Z) in
  list_infos Sample.cwd self (Some (lit "f.txt")) = Ok [info]
  /\ list_artifacts Sample.cwd self (Some (lit "f.txt")) = Ok [].
Proof.
  intros self info. refine (conj eq_refl _).
  refine (proj1 (list_artifacts_single_file_below_base Sample.cwd self
                   (lit "f.txt") _ eq_refl _ eq_refl)
            info eq_refl eq_refl eq_refl); discriminate.
Defined.
